(** * Organizador: tasks and expenses (src/Organizador/app.js)

    A shallow embedding of the state-management and derived-view layer of
    the Organizador application, and the properties of that layer.

    Layout of the development:
    - [JSNumber]: IEEE-754 binary64 numbers, [parseFloat], [Math_round];
    - [JSString]: the string methods the program calls;
    - [JSArray]: [Array.prototype.sort] with a comparison function;
    - [Platform]: host services whose results the program only passes on
      (locale collation, [Date], [JSON], storage quota, id generation);
    - [App]: the global [state], the array store it points into, and the
      functions of app.js in a state-and-exception monad;
    - [Handlers]: the start of the application and its event listeners,
      with what the user enters or answers as their arguments;
    - the theorems, grouped by function. *)

From stdpp Require Import gmap strings list fin_maps pretty.
From Stdlib Require Import ZArith Strings.Ascii Floats.SpecFloat.
From Stdlib Require Import Sorting.Permutation Sorting.Sorted Structures.OrdersEx.

Local Open Scope Z_scope.

(** ** JavaScript numbers *)

Module JSNumber.

(** A JavaScript Number is an IEEE-754 binary64 value; [spec_float] is the
    Standard Library's specification of such values (sign, mantissa,
    exponent; one NaN). *)
Abbreviation number := spec_float.

Definition prec : Z := 53.
Definition emax : Z := 1024.

Definition NaN : number := S754_nan.
Definition posZero : number := S754_zero false.

(** The Number nearest to an integer (a numeric literal such as [100]). *)
Definition ofZ (z : Z) : number := binary_normalize prec emax z 0 false.

(** [x * y] and [x + y] on Numbers. *)
Definition mul (x y : number) : number := SFmul prec emax x y.
Definition add (x y : number) : number := SFadd prec emax x y.

Definition isNaN (x : number) : bool :=
  match x with S754_nan => true | _ => false end.

(** The integer a Number denotes, when it denotes one. *)
Definition toZ (x : number) : option Z :=
  match x with
  | S754_zero _ => Some 0
  | S754_finite s m e =>
      let v := cond_Zopp s (Zpos m) in
      if 0 <=? e then Some (v * 2 ^ e)
      else if (v mod 2 ^ (- e)) =? 0 then Some (v / 2 ^ (- e)) else None
  | _ => None
  end.

(** *** White space

    The language's WhiteSpace and LineTerminator classes: U+0009 to
    U+000D, U+0020, U+00A0, U+1680, U+2000 to U+200A, U+2028, U+2029,
    U+202F, U+205F, U+3000 and U+FEFF.  A string is the sequence of bytes
    of its UTF-8 encoding here, so a white-space character is one, two or
    three bytes long. *)

Definition isWhiteSpace (c : ascii) : bool :=
  let n := nat_of_ascii c in
  ((9 <=? n) && (n <=? 13))%nat || (n =? 32)%nat.

Definition isWhiteSpace2 (c1 c2 : ascii) : bool :=
  ((nat_of_ascii c1 =? 194) && (nat_of_ascii c2 =? 160))%nat.

Definition isWhiteSpace3 (c1 c2 c3 : ascii) : bool :=
  let n1 := nat_of_ascii c1 in
  let n2 := nat_of_ascii c2 in
  let n3 := nat_of_ascii c3 in
  ((n1 =? 225) && (n2 =? 154) && (n3 =? 128)
   || (n1 =? 226) && (n2 =? 128)
      && ((128 <=? n3) && (n3 <=? 138) || (n3 =? 168) || (n3 =? 169) || (n3 =? 175))
   || (n1 =? 226) && (n2 =? 129) && (n3 =? 159)
   || (n1 =? 227) && (n2 =? 128) && (n3 =? 128)
   || (n1 =? 239) && (n2 =? 187) && (n3 =? 191))%nat.

(** What is left of [s] after the characters at its head that [w1],
    [w2] and [w3] accept (of one, two and three bytes). *)
Fixpoint skip (w1 : ascii -> bool) (w2 : ascii -> ascii -> bool)
    (w3 : ascii -> ascii -> ascii -> bool) (s : string) : string :=
  match s with
  | String c1 r1 =>
      if w1 c1 then skip w1 w2 w3 r1
      else
        match r1 with
        | String c2 r2 =>
            if w2 c1 c2 then skip w1 w2 w3 r2
            else
              match r2 with
              | String c3 r3 => if w3 c1 c2 c3 then skip w1 w2 w3 r3 else s
              | EmptyString => s
              end
        | EmptyString => s
        end
  | EmptyString => s
  end.

(** [s] without the white space at its head. *)
Definition trimStart (s : string) : string :=
  skip isWhiteSpace isWhiteSpace2 isWhiteSpace3 s.

(** *** parseFloat

    [parseFloat(string)]: leading white space is dropped, the longest
    prefix that is a StrDecimalLiteral is taken, and its mathematical
    value is rounded to the nearest Number (ties to even); NaN when no
    prefix is a literal. *)

Definition digitOf (c : ascii) : option Z :=
  let n := Z.of_nat (nat_of_ascii c) in
  if (48 <=? n) && (n <=? 57) then Some (n - 48) else None.

(** DecimalDigits: the longest run of digits at the head of [s]; returns
    how many there are, the numeral they extend [acc] to, and the rest. *)
Fixpoint decimalDigits (s : string) (count : nat) (acc : Z) : nat * Z * string :=
  match s with
  | String c r =>
      match digitOf c with
      | Some d => decimalDigits r (S count) (10 * acc + d)
      | None => (count, acc, s)
      end
  | EmptyString => (count, acc, s)
  end.

(** ExponentPart: [e] or [E], an optional sign, at least one digit.  The
    value is 0 when the head of [s] is not an ExponentPart. *)
Definition exponentPart (s : string) : Z :=
  match s with
  | String c r =>
      if (Ascii.eqb c "e" || Ascii.eqb c "E")%char then
        let '(neg, r') :=
          match r with
          | String "+"%char t => (false, t)
          | String "-"%char t => (true, t)
          | _ => (false, r)
          end in
        let '(k, v, _) := decimalDigits r' 0 0 in
        match k with
        | O => 0
        | S _ => if neg then - v else v
        end
      else 0
  | EmptyString => 0
  end.

(** What a StrUnsignedDecimalLiteral denotes: Infinity, or
    [digits * 10 ^ exp10]; [width] is the number of digits read. *)
Inductive literal :=
  | LitInfinity
  | LitDecimal (digits : Z) (width : nat) (exp10 : Z).

Definition strUnsignedDecimalLiteral (s : string) : option literal :=
  if String.prefix "Infinity" s then Some LitInfinity
  else
    let '(ki, vi, r1) := decimalDigits s 0 0 in
    match r1 with
    | String "."%char r2 =>
        let '(kf, vf, r3) := decimalDigits r2 0 vi in
        match (ki + kf)%nat with
        | O => None
        | S _ => Some (LitDecimal vf (ki + kf) (exponentPart r3 - Z.of_nat kf))
        end
    | _ =>
        match ki with
        | O => None
        | S _ => Some (LitDecimal vi ki (exponentPart r1))
        end
    end.

(** StrDecimalLiteral: an optional sign before the unsigned literal. *)
Definition strDecimalLiteral (s : string) : option (bool * literal) :=
  match s with
  | String "-"%char r => pair true <$> strUnsignedDecimalLiteral r
  | String "+"%char r => pair false <$> strUnsignedDecimalLiteral r
  | _ => pair false <$> strUnsignedDecimalLiteral s
  end.

(** The Number nearest to [(-1)^neg * digits * 10 ^ exp10], ties to even.
    For a negative [exp10] this is the correctly rounded quotient of two
    integers.  Exponents beyond the range of binary64 are decided without
    computing the power of ten: [digits >= 1] makes the value at least
    [10 ^ exp10], and [digits < 10 ^ width] makes it less than
    [10 ^ (width + exp10)]. *)
Definition roundDecimal (neg : bool) (digits : Z) (width : nat) (exp10 : Z) : number :=
  if digits =? 0 then S754_zero neg
  else if 310 <? exp10 then S754_infinity neg
  else if Z.of_nat width + exp10 <? -330 then S754_zero neg
  else if 0 <=? exp10 then
    binary_normalize prec emax (cond_Zopp neg (digits * 10 ^ exp10)) 0 false
  else
    let '(q, e, l) := SFdiv_core_binary prec emax digits 0 (10 ^ (- exp10)) 0 in
    binary_round_aux prec emax neg q e l.

Definition parseFloat (s : string) : number :=
  match strDecimalLiteral (trimStart s) with
  | None => NaN
  | Some (neg, LitInfinity) => S754_infinity neg
  | Some (neg, LitDecimal digits width exp10) => roundDecimal neg digits width exp10
  end.

(** *** Math.round

    [Math.round(x)]: [x] itself when it is not finite or is integral;
    [+0] for [0 < x < 0.5]; [-0] for [-0.5 <= x < 0]; otherwise the
    integer nearest to [x], the one closer to +Infinity on a tie, that is
    [floor (x + 1/2)] computed exactly. *)
Definition roundHalfUp (s : bool) (m : positive) (e : Z) : Z :=
  let v := cond_Zopp s (Zpos m) in
  if 0 <=? e then v * 2 ^ e
  else (2 * v + 2 ^ (- e)) / (2 * 2 ^ (- e)).

Definition Math_round (x : number) : number :=
  match x with
  | S754_finite s m e =>
      if 0 <=? e then x
      else
        let n := roundHalfUp s m e in
        if n =? 0 then S754_zero s else ofZ n
  | _ => x
  end.

End JSNumber.

(** ** JavaScript strings *)

Module JSString.

(** [s.startsWith(p)] *)
Definition startsWith (s p : string) : bool := String.prefix p s.

(** [s.includes(sub)]: [sub] occurs at some offset of [s]. *)
Fixpoint includes (s sub : string) : bool :=
  startsWith s sub ||
  match s with
  | String _ r => includes r sub
  | EmptyString => false
  end.

(** [s] without the white space at its end: [skip] on the reversed
    bytes, where the bytes of a character come last to first. *)
Definition trimEnd (s : string) : string :=
  String.rev
    (JSNumber.skip JSNumber.isWhiteSpace
       (fun c2 c1 => JSNumber.isWhiteSpace2 c1 c2)
       (fun c3 c2 c1 => JSNumber.isWhiteSpace3 c1 c2 c3)
       (String.rev s)).

(** [s.trim()]: without the white space at either end, the same white
    space as [parseFloat] skips. *)
Definition trim (s : string) : string := trimEnd (JSNumber.trimStart s).

(** [s.split(sep)[0]] for a one-character separator: the part of [s]
    before the first [sep], all of [s] when there is none. *)
Fixpoint splitHead (sep : ascii) (s : string) : string :=
  match s with
  | String c r => if Ascii.eqb c sep then EmptyString else String c (splitHead sep r)
  | EmptyString => EmptyString
  end.

(** [s.padStart(n, "0")] *)
Fixpoint zeros (n : nat) : string :=
  match n with
  | O => EmptyString
  | S k => String "0"%char (zeros k)
  end.

Definition padStart0 (n : nat) (s : string) : string :=
  String.app (zeros (n - String.length s)) s.

(** [String(n)] for an integral Number. *)
Definition ofInteger (n : Z) : string := pretty n.

End JSString.

(** ** Array.prototype.sort *)

Module JSArray.

Section Sort.
Context {A : Type}.

(** The comparison function's result: an integral Number, or [None] for
    NaN.  [sort] only looks at its sign and treats NaN as [+0]. *)
Variable comparefn : A -> A -> option Z.

(** [b] must come before [a]: [comparefn(a, b) > 0]. *)
Definition after (a b : A) : bool :=
  match comparefn a b with
  | Some v => 0 <? v
  | None => false
  end.

(** [sort] is stable.  For a consistent comparison function the sorted
    order is unique, so any stable algorithm is a model of it; this one
    inserts each element, from the right, before the first element it
    need not follow.  For an inconsistent comparison function the
    language leaves the order to the implementation, and this model is
    one such implementation. *)
Fixpoint insert (x : A) (l : list A) : list A :=
  match l with
  | [] => [x]
  | y :: l' => if after x y then y :: insert x l' else x :: l
  end.

Definition sort (l : list A) : list A := foldr insert [] l.

(** [a] may stand before [b] in sorted order. *)
Definition mayPrecede (a b : A) : Prop := after a b = false.

(** [a] and [b] compare as equal. *)
Definition tied (a b : A) : bool := negb (after a b) && negb (after b a).

(** Consistency of the comparison function on the values that satisfy
    [D], as the language requires it for a defined sort order: "comes
    after" is asymmetric and transitive, and so is "compares equal". *)
Definition consistentOn (D : A -> Prop) : Prop :=
  (forall a b, D a -> D b -> after a b = true -> after b a = false) /\
  (forall a b c, D a -> D b -> D c ->
     after a b = true -> after b c = true -> after a c = true) /\
  (forall a b c, D a -> D b -> D c ->
     tied a b = true -> tied b c = true -> tied a c = true).

Definition consistent : Prop := consistentOn (fun _ => True).

End Sort.

End JSArray.

(** ** Records *)

Module Task.
Record t := mk {
    id : string;
    text : string;
    priority : string;
    done : bool;
    createdAt : string
  }.
Definition setDone (b : bool) (x : t) : t :=
  mk (id x) (text x) (priority x) b (createdAt x).
End Task.

Module Expense.
Record t := mk {
    id : string;
    description : string;
    amountCents : JSNumber.number;
    category : string;
    dateISO : string
  }.
End Expense.

(** ** Host services

    Functions of the host that the program calls and whose results it
    only compares or passes on.  Their behaviour depends on the locale,
    the time zone, the clock and the storage quota. *)

Class Serializer (A : Type) := {
    (** [JSON.stringify(array)] *)
    JSON_stringify : list A -> string;
    (** [JSON.parse(text)]; [None] when it throws a SyntaxError.  Stored
        text that parses into something other than an array of records of
        the expected shape is not represented. *)
    JSON_parse : string -> option (list A)
  }.

Class Platform := {
    (** [a.localeCompare(b)] *)
    localeCompare : string -> string -> Z;
    (** [s.toLowerCase()] *)
    toLowerCase : string -> string;
    (** time value of [new Date(s)]; [None] for an Invalid Date *)
    Date_parse : string -> option Z;
    (** [d.toISOString()] of a valid date, from its time value *)
    Date_toISOString : Z -> string;
    (** [d.getFullYear()] and [d.getMonth()], in local time *)
    Date_getFullYear : Z -> Z;
    Date_getMonth : Z -> Z;
    (** time value after [d.setDate(d.getDate() + k)] *)
    Date_addDays : Z -> Z -> Z;
    (** the clock: time value of the n-th [new Date()] *)
    clockAt : nat -> Z;
    (** [Date.now().toString(36) + Math.random().toString(36).substr(2)]
        at the n-th call of [generateId] *)
    idAt : nat -> string;
    (** whether [localStorage.setItem(key, value)] succeeds on the given
        store; it throws (quota exceeded) otherwise *)
    storageAccepts : gmap string string -> string -> string -> bool;
    taskSerializer :: Serializer Task.t;
    expenseSerializer :: Serializer Expense.t
  }.

(** ** The store

    Arrays are objects: [state.tasks] and [state.expenses] hold references
    into a store of arrays, and [push], [sort] and an assignment to a
    property of an element change the array behind the reference, for
    every holder of the reference. *)

Definition loc := nat.

Module Filters.
Record t := mk { category : string; month : string }.
End Filters.

Module State.
Record t := mk {
    tasks : loc;
    expenses : loc;
    currentTab : string;
    taskSearch : string;
    expenseFilters : Filters.t
  }.
Definition setTasks (l : loc) (s : t) : t :=
  mk l (expenses s) (currentTab s) (taskSearch s) (expenseFilters s).
Definition setExpenses (l : loc) (s : t) : t :=
  mk (tasks s) l (currentTab s) (taskSearch s) (expenseFilters s).
Definition setTaskSearch (x : string) (s : t) : t :=
  mk (tasks s) (expenses s) (currentTab s) x (expenseFilters s).
Definition setExpenseFilters (f : Filters.t) (s : t) : t :=
  mk (tasks s) (expenses s) (currentTab s) (taskSearch s) f.
End State.

Record World := mkWorld {
    taskArrays : gmap loc (list Task.t);
    expenseArrays : gmap loc (list Expense.t);
    state : State.t;
    localStorage : gmap string string;
    (** how many ids were generated, how many times the clock was read *)
    idCount : nat;
    tick : nat
  }.

Definition withTaskArrays (h : gmap loc (list Task.t)) (w : World) : World :=
  mkWorld h (expenseArrays w) (state w) (localStorage w) (idCount w) (tick w).
Definition withExpenseArrays (h : gmap loc (list Expense.t)) (w : World) : World :=
  mkWorld (taskArrays w) h (state w) (localStorage w) (idCount w) (tick w).
Definition withState (s : State.t) (w : World) : World :=
  mkWorld (taskArrays w) (expenseArrays w) s (localStorage w) (idCount w) (tick w).
Definition withLocalStorage (m : gmap string string) (w : World) : World :=
  mkWorld (taskArrays w) (expenseArrays w) (state w) m (idCount w) (tick w).

(** The contents of the array at a reference. *)
Definition deref {A : Type} (h : gmap loc (list A)) (l : loc) : list A :=
  default [] (h !! l).

(** The two collections of the store, and its filter state. *)
Definition tasksOf (w : World) : list Task.t :=
  deref (taskArrays w) (State.tasks (state w)).
Definition expensesOf (w : World) : list Expense.t :=
  deref (expenseArrays w) (State.expenses (state w)).
Definition filterStateOf (w : World) : string * Filters.t :=
  (State.taskSearch (state w), State.expenseFilters (state w)).

(** Both references of [state] point at arrays of the store. *)
Definition wellFormed (w : World) : Prop :=
  is_Some (taskArrays w !! State.tasks (state w)) /\
  is_Some (expenseArrays w !! State.expenses (state w)).

(** *** Computations: a state monad with exceptions *)

Inductive outcome (A : Type) :=
  | Return (a : A)
  | Throw (error : string).
Arguments Return {A} a.
Arguments Throw {A} error.

Definition M (A : Type) : Type := World -> outcome A * World.

Definition ret {A} (a : A) : M A := fun w => (Return a, w).
Definition throw {A} (error : string) : M A := fun w => (Throw error, w).
Definition bind {A B} (c : M A) (k : A -> M B) : M B := fun w =>
  match c w with
  | (Return a, w') => k a w'
  | (Throw e, w') => (Throw e, w')
  end.
Definition gets {A} (f : World -> A) : M A := fun w => (Return (f w), w).
Definition modify (f : World -> World) : M unit := fun w => (Return tt, f w).

Notation "x <- c ;; k" := (bind c (fun x => k))
  (at level 100, c at next level, right associativity).
Notation "c ;; k" := (bind c (fun _ => k))
  (at level 100, right associativity).

(** The world a computation ends in. *)
Definition exec {A} (c : M A) (w : World) : World := snd (c w).
(** The value it returns, when it returns. *)
Definition result {A} (c : M A) (w : World) : option A :=
  match fst (c w) with Return a => Some a | Throw _ => None end.

(** *** Array operations on the store *)

(** A new array: [[...]], or the result of [filter]. *)
Definition newTaskArray (v : list Task.t) : M loc := fun w =>
  let l := fresh (dom (taskArrays w)) in
  (Return l, withTaskArrays (<[l := v]> (taskArrays w)) w).
Definition newExpenseArray (v : list Expense.t) : M loc := fun w =>
  let l := fresh (dom (expenseArrays w)) in
  (Return l, withExpenseArrays (<[l := v]> (expenseArrays w)) w).

Definition readTasks (l : loc) : M (list Task.t) :=
  gets (fun w => deref (taskArrays w) l).
Definition readExpenses (l : loc) : M (list Expense.t) :=
  gets (fun w => deref (expenseArrays w) l).

(** A change of the array at [l], in place. *)
Definition updateTasks (l : loc) (f : list Task.t -> list Task.t) : M unit :=
  modify (fun w => withTaskArrays (alter f l (taskArrays w)) w).
Definition updateExpenses (l : loc) (f : list Expense.t -> list Expense.t) : M unit :=
  modify (fun w => withExpenseArrays (alter f l (expenseArrays w)) w).

(** ** The program *)

Module STORAGE_KEYS.
Definition TASKS : string := "organizador_tasks".
Definition EXPENSES : string := "organizador_expenses".
End STORAGE_KEYS.

Module PRIORITIES.
Definition ALTA : string := "alta".
Definition MEDIA : string := "media".
Definition BAJA : string := "baja".
End PRIORITIES.

Module CATEGORIES.
Definition FIJOS : string := "fijos".
Definition OCIO : string := "ocio".
Definition COMIDA : string := "comida".
Definition COCHE : string := "coche".
Definition EXTRAS : string := "extras".
(** [Object.values(CATEGORIES)] *)
Definition values : list string := [FIJOS; OCIO; COMIDA; COCHE; EXTRAS].
End CATEGORIES.

Module TaskStats.
Record t := mk { total : Z; completed : Z; pending : Z }.
End TaskStats.

Module ExpenseStats.
Record t := mk { total : JSNumber.number; monthly : JSNumber.number }.
End ExpenseStats.

(** The argument of [dateToISO]: the text of the date field of the form,
    or a [Date] object, given by its time value. *)
Inductive DateValue :=
  | DateString (s : string)
  | DateObject (time : Z).

(** A string in a condition counts as true when it is not empty. *)
Definition truthy (s : string) : bool := negb (String.eqb s "").

(** Subtraction of two Numbers that are integral or NaN ([undefined]
    converts to NaN).  The operands here are priority ranks and time
    values, whose differences binary64 represents with the right sign. *)
Definition minus (x y : option Z) : option Z :=
  match x, y with
  | Some a, Some b => Some (a - b)
  | _, _ => None
  end.

(** [eurosToCents(euros)]: [Math.round(parseFloat(euros) * 100)] *)
Definition eurosToCents (euros : string) : JSNumber.number :=
  JSNumber.Math_round (JSNumber.mul (JSNumber.parseFloat euros) (JSNumber.ofZ 100)).

(** [priorityOrder[p]]; [None] is [undefined]. *)
Definition priorityOrder (p : string) : option Z :=
  if String.eqb p PRIORITIES.ALTA then Some 3
  else if String.eqb p PRIORITIES.MEDIA then Some 2
  else if String.eqb p PRIORITIES.BAJA then Some 1
  else None.

Section App.
Context {P : Platform}.

(** *** Utilities *)

Definition generateId : M string := fun w =>
  (Return (idAt (idCount w)),
   mkWorld (taskArrays w) (expenseArrays w) (state w) (localStorage w)
           (S (idCount w)) (tick w)).

(** [new Date()], as a time value *)
Definition newDate : M Z := fun w =>
  (Return (clockAt (tick w)),
   mkWorld (taskArrays w) (expenseArrays w) (state w) (localStorage w)
           (idCount w) (S (tick w))).

(** [new Date(date).toISOString().split('T')[0]]; [toISOString] throws
    a RangeError on an Invalid Date. *)
Definition dateToISO (date : DateValue) : M string :=
  let time :=
    match date with
    | DateString s => Date_parse s
    | DateObject t => Some t
    end in
  match time with
  | Some t => ret (JSString.splitHead "T" (Date_toISOString t))
  | None => throw "RangeError: Invalid time value"
  end.

Definition getCurrentMonth : M string :=
  now <- newDate ;;
  ret (String.app (JSString.ofInteger (Date_getFullYear now))
        (String.app "-"
          (JSString.padStart0 2 (JSString.ofInteger (Date_getMonth now + 1))))).

(** *** localStorage *)

(** [saveToStorage(key, data)]: a failing [setItem] is caught and
    logged. *)
Definition saveToStorage {A} `{Serializer A} (key : string) (data : list A) : M unit :=
  fun w =>
    let text := JSON_stringify data in
    if storageAccepts (localStorage w) key text
    then (Return tt, withLocalStorage (<[key := text]> (localStorage w)) w)
    else (Return tt, w).

(** [loadFromStorage(key)], with the default value [[]]: an absent key
    and the empty text give the default, and so does text that
    [JSON.parse] rejects. *)
Definition loadFromStorage {A} `{Serializer A} (key : string) : M (list A) :=
  gets (fun w =>
    match localStorage w !! key with
    | Some data =>
        if truthy data
        then match JSON_parse data with Some v => v | None => [] end
        else []
    | None => []
    end).

Definition saveState : M unit :=
  ts <- gets tasksOf ;;
  saveToStorage STORAGE_KEYS.TASKS ts ;;
  es <- gets expensesOf ;;
  saveToStorage STORAGE_KEYS.EXPENSES es.

Definition setStateTasks (l : loc) : M unit :=
  modify (fun w => withState (State.setTasks l (state w)) w).
Definition setStateExpenses (l : loc) : M unit :=
  modify (fun w => withState (State.setExpenses l (state w)) w).

(** *** Sample data *)

Definition loadSampleTasks : M unit :=
  id1 <- generateId ;; t1 <- newDate ;;
  id2 <- generateId ;; t2 <- newDate ;;
  id3 <- generateId ;; t3 <- newDate ;;
  let sampleTasks :=
    [ Task.mk id1 "Revisar presupuesto mensual" PRIORITIES.ALTA false (Date_toISOString t1);
      Task.mk id2 "Hacer ejercicio" PRIORITIES.MEDIA false (Date_toISOString t2);
      Task.mk id3 "Leer libro de programación" PRIORITIES.BAJA false (Date_toISOString t3) ] in
  l <- newTaskArray sampleTasks ;;
  setStateTasks l ;;
  saveToStorage STORAGE_KEYS.TASKS sampleTasks.

Definition loadSampleExpenses : M unit :=
  today <- newDate ;;
  let yesterday := Date_addDays today (-1) in
  let lastWeek := Date_addDays today (-7) in
  id1 <- generateId ;; d1 <- dateToISO (DateObject today) ;;
  id2 <- generateId ;; d2 <- dateToISO (DateObject yesterday) ;;
  id3 <- generateId ;; d3 <- dateToISO (DateObject lastWeek) ;;
  let sampleExpenses :=
    [ Expense.mk id1 "Supermercado" (JSNumber.ofZ 4567) CATEGORIES.COMIDA d1;
      Expense.mk id2 "Gasolina" (JSNumber.ofZ 6500) CATEGORIES.COCHE d2;
      Expense.mk id3 "Netflix" (JSNumber.ofZ 1599) CATEGORIES.OCIO d3 ] in
  l <- newExpenseArray sampleExpenses ;;
  setStateExpenses l ;;
  saveToStorage STORAGE_KEYS.EXPENSES sampleExpenses.

Definition loadState : M unit :=
  ts <- loadFromStorage STORAGE_KEYS.TASKS ;;
  lt <- newTaskArray ts ;;
  setStateTasks lt ;;
  es <- loadFromStorage STORAGE_KEYS.EXPENSES ;;
  le <- newExpenseArray es ;;
  setStateExpenses le ;;
  ts' <- gets tasksOf ;;
  (if (length ts' =? 0)%nat then loadSampleTasks else ret tt) ;;
  es' <- gets expensesOf ;;
  (if (length es' =? 0)%nat then loadSampleExpenses else ret tt).

(** *** Tasks *)

(** The comparison function of [sortTasks]. *)
Definition compareTasks (a b : Task.t) : option Z :=
  if negb (Bool.eqb (Task.done a) (Task.done b)) then
    Some (if Task.done a then 1 else -1)
  else if negb (String.eqb (Task.priority a) (Task.priority b)) then
    minus (priorityOrder (Task.priority b)) (priorityOrder (Task.priority a))
  else
    Some (localeCompare (Task.text a) (Task.text b)).

(** [sortTasks(tasks)]: [tasks.sort(...)] sorts the array in place and
    returns the reference it was given. *)
Definition sortTasks (tasks : loc) : M loc :=
  updateTasks tasks (JSArray.sort compareTasks) ;;
  ret tasks.

Definition calculateTaskStats : M TaskStats.t :=
  ts <- gets tasksOf ;;
  let total := Z.of_nat (length ts) in
  let completed := Z.of_nat (length (List.filter Task.done ts)) in
  let pending := total - completed in
  ret (TaskStats.mk total completed pending).

(** The counters are written to the page, which is not part of the
    model; what remains is the call. *)
Definition updateTaskStats : M unit :=
  stats <- calculateTaskStats ;;
  ret tt.

(** The filtering step of [renderTasks]: [state.tasks] itself when
    there is no search text, a new array otherwise. *)
Definition getFilteredTasks : M loc :=
  tasks <- gets (fun w => State.tasks (state w)) ;;
  search <- gets (fun w => State.taskSearch (state w)) ;;
  if truthy search then
    ts <- readTasks tasks ;;
    newTaskArray
      (List.filter (fun task => JSString.includes (toLowerCase (Task.text task)) search) ts)
  else ret tasks.

(** [renderTasks()] up to the markup it writes to the page. *)
Definition renderTasks : M unit :=
  filteredTasks <- getFilteredTasks ;;
  sortedTasks <- sortTasks filteredTasks ;;
  ret tt.

Definition addTask (text priority : string) : M unit :=
  id <- generateId ;;
  now <- newDate ;;
  let task := Task.mk id (JSString.trim text) priority false (Date_toISOString now) in
  tasks <- gets (fun w => State.tasks (state w)) ;;
  updateTasks tasks (fun ts => ts ++ [task]) ;;
  saveState ;;
  renderTasks ;;
  updateTaskStats.

Definition toggleTask (id : string) : M unit :=
  tasks <- gets (fun w => State.tasks (state w)) ;;
  ts <- readTasks tasks ;;
  match list_find (fun t => Task.id t = id) ts with
  | Some (i, task) =>
      updateTasks tasks (alter (Task.setDone (negb (Task.done task))) i) ;;
      saveState ;;
      renderTasks ;;
      updateTaskStats
  | None => ret tt
  end.

Definition deleteTask (id : string) : M unit :=
  ts <- gets tasksOf ;;
  l <- newTaskArray (List.filter (fun t => negb (String.eqb (Task.id t) id)) ts) ;;
  setStateTasks l ;;
  saveState ;;
  renderTasks ;;
  updateTaskStats.

Definition filterTasks (searchText : string) : M unit :=
  modify (fun w => withState (State.setTaskSearch (toLowerCase searchText) (state w)) w) ;;
  renderTasks.

(** *** Expenses *)

(** The comparison function of [getFilteredExpenses]:
    [new Date(b.dateISO) - new Date(a.dateISO)]. *)
Definition compareExpenses (a b : Expense.t) : option Z :=
  minus (Date_parse (Expense.dateISO b)) (Date_parse (Expense.dateISO a)).

Definition getFilteredExpenses : M loc :=
  filtered <- gets (fun w => State.expenses (state w)) ;;
  category <- gets (fun w => Filters.category (State.expenseFilters (state w))) ;;
  filtered <-
    (if truthy category then
       es <- readExpenses filtered ;;
       newExpenseArray (List.filter (fun e => String.eqb (Expense.category e) category) es)
     else ret filtered) ;;
  month <- gets (fun w => Filters.month (State.expenseFilters (state w))) ;;
  filtered <-
    (if truthy month then
       es <- readExpenses filtered ;;
       newExpenseArray (List.filter (fun e => JSString.startsWith (Expense.dateISO e) month) es)
     else ret filtered) ;;
  updateExpenses filtered (JSArray.sort compareExpenses) ;;
  ret filtered.

(** [reduce((sum, e) => sum + e.amountCents, 0)] *)
Definition sumAmountCents (es : list Expense.t) : JSNumber.number :=
  foldl (fun sum e => JSNumber.add sum (Expense.amountCents e)) JSNumber.posZero es.

Definition calculateExpenseStats : M ExpenseStats.t :=
  es <- gets expensesOf ;;
  let total := sumAmountCents es in
  currentMonth <- getCurrentMonth ;;
  es' <- gets expensesOf ;;
  let monthly :=
    sumAmountCents
      (List.filter (fun e => JSString.startsWith (Expense.dateISO e) currentMonth) es') in
  ret (ExpenseStats.mk total monthly).

Definition updateExpenseStats : M unit :=
  stats <- calculateExpenseStats ;;
  ret tt.

(** [totals[key] += amount]: a key that is not there reads as
    [undefined], and [undefined + amount] is NaN. *)
Definition addToKey (totals : gmap string JSNumber.number) (key : string)
    (amount : JSNumber.number) : gmap string JSNumber.number :=
  <[key := JSNumber.add (default JSNumber.NaN (totals !! key)) amount]> totals.

Definition calculateCategoryTotals : M (gmap string JSNumber.number) :=
  let totals :=
    foldl (fun totals category => <[category := JSNumber.posZero]> totals)
          ∅ CATEGORIES.values in
  filteredExpenses <- getFilteredExpenses ;;
  es <- readExpenses filteredExpenses ;;
  ret (foldl (fun totals expense =>
                addToKey totals (Expense.category expense) (Expense.amountCents expense))
             totals es).

(** [renderCategoryTotals()] and [renderExpenses()], up to the markup
    they write to the page. *)
Definition renderCategoryTotals : M unit :=
  totals <- calculateCategoryTotals ;;
  ret tt.

Definition renderExpenses : M unit :=
  filteredExpenses <- getFilteredExpenses ;;
  ret tt.

Definition addExpense (description amount category : string) (date : string) : M unit :=
  id <- generateId ;;
  dateISO <- dateToISO (DateString date) ;;
  let expense :=
    Expense.mk id (JSString.trim description) (eurosToCents amount) category dateISO in
  expenses <- gets (fun w => State.expenses (state w)) ;;
  updateExpenses expenses (fun es => es ++ [expense]) ;;
  saveState ;;
  renderExpenses ;;
  updateExpenseStats ;;
  renderCategoryTotals.

Definition deleteExpense (id : string) : M unit :=
  es <- gets expensesOf ;;
  l <- newExpenseArray (List.filter (fun e => negb (String.eqb (Expense.id e) id)) es) ;;
  setStateExpenses l ;;
  saveState ;;
  renderExpenses ;;
  updateExpenseStats ;;
  renderCategoryTotals.

Definition filterExpenses (category month : string) : M unit :=
  modify (fun w =>
    withState (State.setExpenseFilters (Filters.mk category month) (state w)) w) ;;
  renderExpenses ;;
  updateExpenseStats ;;
  renderCategoryTotals.

End App.

(** ** A host for examples

    A concrete [Platform]: collation by code units, dates in UTC by the
    proleptic Gregorian calendar, a clock that advances one millisecond
    per reading, storage without quota. *)

Module TestHost.

Definition compareStrings (a b : string) : Z :=
  match String_as_OT.compare a b with
  | Lt => -1
  | Eq => 0
  | Gt => 1
  end.

Definition lowerAscii (c : ascii) : ascii :=
  let n := nat_of_ascii c in
  if ((65 <=? n) && (n <=? 90))%nat then ascii_of_nat (n + 32) else c.

Fixpoint lower (s : string) : string :=
  match s with
  | String c r => String (lowerAscii c) (lower r)
  | EmptyString => EmptyString
  end.

Definition msPerDay : Z := 86400000.

(** Days from 1970-01-01 to the given civil date. *)
Definition daysFromCivil (y m d : Z) : Z :=
  let y' := if m <=? 2 then y - 1 else y in
  let era := y' / 400 in
  let yoe := y' - era * 400 in
  let doy := (153 * (if 2 <? m then m - 3 else m + 9) + 2) / 5 + d - 1 in
  let doe := yoe * 365 + yoe / 4 - yoe / 100 + doy in
  era * 146097 + doe - 719468.

(** The civil date (year, month, day) of a day number. *)
Definition civilFromDays (z : Z) : Z * Z * Z :=
  let z' := z + 719468 in
  let era := z' / 146097 in
  let doe := z' - era * 146097 in
  let yoe := (doe - doe / 1460 + doe / 36524 - doe / 146096) / 365 in
  let doy := doe - (365 * yoe + yoe / 4 - yoe / 100) in
  let mp := (5 * doy + 2) / 153 in
  let d := doy - (153 * mp + 2) / 5 + 1 in
  let m := if mp <? 10 then mp + 3 else mp - 9 in
  (if m <=? 2 then yoe + era * 400 + 1 else yoe + era * 400, m, d).

Definition daysInMonth (y m : Z) : Z :=
  if m =? 2 then
    if ((y mod 4 =? 0) && negb (y mod 100 =? 0)) || (y mod 400 =? 0) then 29 else 28
  else if (m =? 4) || (m =? 6) || (m =? 9) || (m =? 11) then 30
  else 31.

(** Exactly [n] digits at the head of [s]. *)
Fixpoint digits (n : nat) (s : string) (acc : Z) : option (Z * string) :=
  match n with
  | O => Some (acc, s)
  | S k =>
      match s with
      | String c r =>
          match JSNumber.digitOf c with
          | Some d => digits k r (10 * acc + d)
          | None => None
          end
      | EmptyString => None
      end
  end.

(** The date-only form [YYYY-MM-DD], read as UTC midnight. *)
Definition parseDate (s : string) : option Z :=
  match digits 4 s 0 with
  | Some (y, String "-"%char r1) =>
      match digits 2 r1 0 with
      | Some (m, String "-"%char r2) =>
          match digits 2 r2 0 with
          | Some (d, EmptyString) =>
              if (1 <=? m) && (m <=? 12) && (1 <=? d) && (d <=? daysInMonth y m)
              then Some (daysFromCivil y m d * msPerDay)
              else None
          | _ => None
          end
      | _ => None
      end
  | _ => None
  end.

Definition pad (n : nat) (z : Z) : string := JSString.padStart0 n (pretty z).

(** [YYYY-MM-DDTHH:mm:ss.sssZ], for the years 0 to 9999. *)
Definition toISOString (t : Z) : string :=
  let '(y, m, d) := civilFromDays (t / msPerDay) in
  let ms := t mod msPerDay in
  String.concat ""
    [ pad 4 y; "-"; pad 2 m; "-"; pad 2 d; "T";
      pad 2 (ms / 3600000); ":"; pad 2 (ms / 60000 mod 60); ":";
      pad 2 (ms / 1000 mod 60); "."; pad 3 (ms mod 1000); "Z" ].

Definition getFullYear (t : Z) : Z := fst (fst (civilFromDays (t / msPerDay))).
Definition getMonth (t : Z) : Z := snd (fst (civilFromDays (t / msPerDay))) - 1.

(** A serializer that writes the number of records and reads back the
    empty array only; enough to tell stored texts apart. *)
Definition countSerializer (A : Type) : Serializer A :=
  {| JSON_stringify := fun l => String.app "#" (pretty (Z.of_nat (length l)));
     JSON_parse := fun text => if String.eqb text "#0" then Some [] else None |}.

(** 2024-03-15T12:00:00.000Z *)
Definition startOfClock : Z := 1710504000000.

Definition host : Platform :=
  {| localeCompare := compareStrings;
     toLowerCase := lower;
     Date_parse := parseDate;
     Date_toISOString := toISOString;
     Date_getFullYear := getFullYear;
     Date_getMonth := getMonth;
     Date_addDays := fun t k => t + k * msPerDay;
     clockAt := fun n => startOfClock + Z.of_nat n;
     idAt := fun n => String.app "id" (pretty (Z.of_nat n));
     storageAccepts := fun _ _ _ => true;
     taskSerializer := countSerializer Task.t;
     expenseSerializer := countSerializer Expense.t |}.

(** A store with the given records and filter state. *)
Definition world (ts : list Task.t) (es : list Expense.t)
    (search category month : string) : World :=
  {| taskArrays := {[ 0%nat := ts ]};
     expenseArrays := {[ 0%nat := es ]};
     state := State.mk 0%nat 0%nat "tareas" search (Filters.mk category month);
     localStorage := ∅;
     idCount := 0;
     tick := 0 |}.

End TestHost.

(** ** Vocabulary of the properties *)

(** The mantissa [q] with [n] zero bits appended. *)
Definition shl (n : nat) (q : positive) : positive := Nat.iter n xO q.

(** The sum of the spec, of whole numbers of cents. *)
Definition sumOfCents (cents : Expense.t -> Z) (es : list Expense.t) : Z :=
  foldr Z.add 0 (map cents es).

(** Every amount is a whole number of cents, not negative: the Number
    of [cents e]. *)
Definition wholeCents (cents : Expense.t -> Z) (es : list Expense.t) : Prop :=
  Forall (fun e => 0 <= cents e /\ Expense.amountCents e = JSNumber.ofZ (cents e)) es.

(** Rounding [num / den] ([den > 0]) to the nearest integer, halves away
    from zero. *)
Definition roundHalfAwayFromZero (num den : Z) : Z :=
  Z.sgn num * ((2 * Z.abs num + den) / (2 * den)).

(** The cents of the decimal amount [digits * 10 ^ (- places)] euros,
    rounded half away from zero. *)
Definition nearestCent (digits : Z) (places : nat) : Z :=
  roundHalfAwayFromZero (digits * 100) (10 ^ Z.of_nat places).

(** An amount of [c] cents written in euros with two decimals. *)
Definition centsText (c : Z) : string :=
  String.app (pretty (c / 100)) (String.app "." (JSString.padStart0 2 (pretty (c mod 100)))).

(** Rank of a priority: alta 3, media 2, baja 1. *)
Definition rank (t : Task.t) : Z := default 0 (priorityOrder (Task.priority t)).

(** The task has one of the three priorities. *)
Definition knownPriority (t : Task.t) : Prop := is_Some (priorityOrder (Task.priority t)).

(** The operations on the task collection, and search. *)
Inductive TaskOp :=
  | OpAddTask (text priority : string)
  | OpToggleTask (id : string)
  | OpDeleteTask (id : string)
  | OpFilterTasks (searchText : string).

Section Vocabulary.
Context {P : Platform}.

(** The order of the task list: pending before done; then the higher
    rank first; then by collation of the text. *)
Definition taskOrder (a b : Task.t) : Prop :=
  (Task.done a = false /\ Task.done b = true) \/
  (Task.done a = Task.done b /\ rank b < rank a) \/
  (Task.done a = Task.done b /\ rank a = rank b /\
   localeCompare (Task.text a) (Task.text b) <= 0).

(** Collation as a comparison function. *)
Definition collate (a b : string) : option Z := Some (localeCompare a b).

(** The expense's date is one the host can read. *)
Definition validDate (e : Expense.t) : Prop := is_Some (Date_parse (Expense.dateISO e)).

(** [a] is not earlier than [b]. *)
Definition notEarlier (a b : Expense.t) : Prop :=
  match Date_parse (Expense.dateISO a), Date_parse (Expense.dateISO b) with
  | Some ta, Some tb => tb <= ta
  | _, _ => False
  end.

(** The two expenses have the same date. *)
Definition sameDate (a b : Expense.t) : bool :=
  bool_decide (Date_parse (Expense.dateISO a) = Date_parse (Expense.dateISO b)).

(** The two tasks have the same sort keys. *)
Definition sameKeys (a b : Task.t) : bool :=
  Bool.eqb (Task.done a) (Task.done b) && (rank a =? rank b)
  && (localeCompare (Task.text a) (Task.text b) <=? 0)
  && (localeCompare (Task.text b) (Task.text a) <=? 0).

(** The expense passes the filters: an empty filter passes all. *)
Definition passes (f : Filters.t) (e : Expense.t) : bool :=
  (String.eqb (Filters.category f) "" || String.eqb (Expense.category e) (Filters.category f))
  && (String.eqb (Filters.month f) "" ||
      JSString.startsWith (Expense.dateISO e) (Filters.month f)).

Definition runTaskOp (op : TaskOp) : M unit :=
  match op with
  | OpAddTask text priority => addTask text priority
  | OpToggleTask id => toggleTask id
  | OpDeleteTask id => deleteTask id
  | OpFilterTasks searchText => filterTasks searchText
  end.

Fixpoint runTaskOps (ops : list TaskOp) : M unit :=
  match ops with
  | [] => ret tt
  | op :: rest => runTaskOp op ;; runTaskOps rest
  end.

End Vocabulary.

(** [f] holds of the [n] integers from [c] on. *)
Fixpoint allFrom (n : nat) (c : Z) (f : Z -> bool) : bool :=
  match n with
  | O => true
  | S k => f c && allFrom k (c + 1) f
  end.

(** The conversion of [c] cents, written in euros, gives [c] back. *)
Definition convertsBack (c : Z) : bool :=
  match JSNumber.toZ (eurosToCents (centsText c)) with
  | Some v => v =? c
  | None => false
  end.

(** Records for examples: two expenses and two tasks, each pair stored in
    an order other than the display order. *)
Module Examples.
Definition groceries : Expense.t :=
  Expense.mk "e1" "Supermercado" (JSNumber.ofZ 4567) "comida" "2024-03-15".
Definition fuel : Expense.t :=
  Expense.mk "e2" "Gasolina" (JSNumber.ofZ 6500) "coche" "2024-04-02".
Definition report : Task.t := Task.mk "t1" "informe" "alta" true "2024-03-01T09:00:00.000Z".
Definition gym : Task.t := Task.mk "t2" "gimnasio" "media" false "2024-03-02T09:00:00.000Z".

(** The store with these records, no search text and no filter. *)
Definition store : World := TestHost.world [report; gym] [groceries; fuel] "" "" "".
(** The same store while the month filter is 2024-03. *)
Definition storeInMarch : World :=
  TestHost.world [report; gym] [groceries; fuel] "" "" "2024-03".
(** The same store while the search text is "gim". *)
Definition storeSearching : World :=
  TestHost.world [report; gym] [groceries; fuel] "gim" "" "".
End Examples.

(** The built-in sample data, up to the generated ids and the dates of
    the day of loading. *)
Definition isSampleTasks (l : list Task.t) : Prop :=
  exists id1 id2 id3 c1 c2 c3,
    l = [ Task.mk id1 "Revisar presupuesto mensual" "alta" false c1;
          Task.mk id2 "Hacer ejercicio" "media" false c2;
          Task.mk id3 "Leer libro de programación" "baja" false c3 ].

Definition isSampleExpenses (l : list Expense.t) : Prop :=
  exists id1 id2 id3 d1 d2 d3,
    l = [ Expense.mk id1 "Supermercado" (JSNumber.ofZ 4567) "comida" d1;
          Expense.mk id2 "Gasolina" (JSNumber.ofZ 6500) "coche" d2;
          Expense.mk id3 "Netflix" (JSNumber.ofZ 1599) "ocio" d3 ].

(** A search text is set; an expense filter is set. *)
Definition searching (w : World) : bool := truthy (State.taskSearch (state w)).
Definition filtering (w : World) : bool :=
  truthy (Filters.category (State.expenseFilters (state w)))
  || truthy (Filters.month (State.expenseFilters (state w))).



(** ** The rest of the program: clearing, tabs and the event handlers *)

(** [state.currentTab = tabName] *)
Definition setCurrentTab (tabName : string) (s : State.t) : State.t :=
  State.mk (State.tasks s) (State.expenses s) tabName
           (State.taskSearch s) (State.expenseFilters s).

Section Handlers.
Context {P : Platform}.

(** [getCurrentDate()]: [new Date().toISOString().split('T')[0]] *)
Definition getCurrentDate : M string :=
  now <- newDate ;;
  ret (JSString.splitHead "T" (Date_toISOString now)).

(** [confirmAction(message)] returns what the user answers to
    [confirm(message)]; the answer is an input of the functions that
    ask. *)
Definition clearAllTasks (answer : bool) : M unit :=
  if answer then
    l <- newTaskArray [] ;;
    setStateTasks l ;;
    saveState ;;
    renderTasks ;;
    updateTaskStats
  else ret tt.

Definition clearAllExpenses (answer : bool) : M unit :=
  if answer then
    l <- newExpenseArray [] ;;
    setStateExpenses l ;;
    saveState ;;
    renderExpenses ;;
    updateExpenseStats ;;
    renderCategoryTotals
  else ret tt.

(** [switchTab(tabName)], up to the page and the address bar. *)
Definition switchTab (tabName : string) : M unit :=
  modify (fun w => withState (setCurrentTab tabName (state w)) w).

(** [s.substring(1)] *)
Definition substring1 (s : string) : string :=
  match s with
  | String _ rest => rest
  | EmptyString => ""
  end.

(** [initializeApp()], up to the page: the date and the month it reads
    go to form fields, and [hash] is [window.location.hash]. *)
Definition initializeApp (hash : string) : M unit :=
  loadState ;;
  today <- getCurrentDate ;;
  month <- getCurrentMonth ;;
  renderTasks ;;
  updateTaskStats ;;
  renderExpenses ;;
  updateExpenseStats ;;
  renderCategoryTotals ;;
  if truthy hash then
    let tabName := substring1 hash in
    if String.eqb tabName "tareas" || String.eqb tabName "gastos"
    then switchTab tabName
    else ret tt
  else ret tt.

(** The listeners that [initializeEventListeners] installs, each with
    the values it reads from the page as arguments; what they write back
    to the form fields is not part of the model. *)

(** Submit of the task form. *)
Definition onTaskSubmit (textValue priorityValue : string) : M unit :=
  let text := JSString.trim textValue in
  if truthy text then addTask text priorityValue else ret tt.

(** Input in the search field. *)
Definition onSearchInput (value : string) : M unit := filterTasks value.

(** Submit of the expense form. *)
Definition onExpenseSubmit (descriptionValue amountValue categoryValue dateValue : string)
    : M unit :=
  let description := JSString.trim descriptionValue in
  if truthy description && truthy amountValue && truthy dateValue
  then
    addExpense description amountValue categoryValue dateValue ;;
    today <- getCurrentDate ;;
    ret tt
  else ret tt.

(** Change of the category filter and of the month filter. *)
Definition onCategoryFilterChange (value : string) : M unit :=
  month <- gets (fun w => Filters.month (State.expenseFilters (state w))) ;;
  filterExpenses value month.

Definition onMonthFilterChange (value : string) : M unit :=
  category <- gets (fun w => Filters.category (State.expenseFilters (state w))) ;;
  filterExpenses category value.

(** A key press anywhere on the page. *)
Definition onKeyDown (key : string) : M unit :=
  if String.eqb key "Escape" then
    filterTasks "" ;;
    filterExpenses "" ""
  else ret tt.

(** What the user can do on the page. *)
Inductive Event :=
  | TabClick (tabName : string)
  | TaskSubmit (textValue priorityValue : string)
  | SearchInput (value : string)
  | ExpenseSubmit (descriptionValue amountValue categoryValue dateValue : string)
  | CategoryFilterChange (value : string)
  | MonthFilterChange (value : string)
  | ClearTasksClick (answer : bool)
  | ClearExpensesClick (answer : bool)
  | KeyDown (key : string)
  | ToggleTaskClick (id : string)
  | DeleteTaskClick (id : string)
  | DeleteExpenseClick (id : string).

Definition listener (e : Event) : M unit :=
  match e with
  | TabClick tabName => switchTab tabName
  | TaskSubmit textValue priorityValue => onTaskSubmit textValue priorityValue
  | SearchInput value => onSearchInput value
  | ExpenseSubmit d a c t => onExpenseSubmit d a c t
  | CategoryFilterChange value => onCategoryFilterChange value
  | MonthFilterChange value => onMonthFilterChange value
  | ClearTasksClick answer => clearAllTasks answer
  | ClearExpensesClick answer => clearAllExpenses answer
  | KeyDown key => onKeyDown key
  | ToggleTaskClick id => toggleTask id
  | DeleteTaskClick id => deleteTask id
  | DeleteExpenseClick id => deleteExpense id
  end.

(** The page dispatches one event after the other; an exception that a
    listener does not catch ends that listener and nothing else. *)
Definition dispatch (e : Event) : M unit := fun w =>
  (Return tt, snd (listener e w)).

Fixpoint dispatchAll (events : list Event) : M unit :=
  match events with
  | [] => ret tt
  | e :: rest => dispatch e ;; dispatchAll rest
  end.

End Handlers.

(** ** Vocabulary of the further properties *)

(** The done flag of every task with the given id, flipped. *)
Definition toggleAll (id : string) (l : list Task.t) : list Task.t :=
  map (fun t => if decide (Task.id t = id)
                then Task.setDone (negb (Task.done t)) t else t) l.

(** The task matches the search text. *)
Definition matchesSearch {P : Platform} (search : string) (t : Task.t) : bool :=
  JSString.includes (toLowerCase (Task.text t)) search.

(** The string starts with a character that [w1], [w2] or [w3]
    accepts. *)
Definition startsWith1to3 (w1 : ascii -> bool) (w2 : ascii -> ascii -> bool)
    (w3 : ascii -> ascii -> ascii -> bool) (s : string) : bool :=
  match s with
  | String c1 r1 =>
      w1 c1 ||
      match r1 with
      | String c2 r2 =>
          w2 c1 c2 ||
          match r2 with
          | String c3 _ => w3 c1 c2 c3
          | EmptyString => false
          end
      | EmptyString => false
      end
  | EmptyString => false
  end.

(** The text with the given bytes. *)
Definition ofBytes (l : list nat) : string :=
  foldr (fun n s => String (ascii_of_nat n) s) EmptyString l.

(** The no-break space U+00A0. *)
Definition nbsp : string := ofBytes [194; 160]%nat.

(** The white-space characters of the language, in UTF-8: U+0009 to
    U+000D, U+0020, U+00A0, U+1680, U+2000 to U+200A, U+2028, U+2029,
    U+202F, U+205F, U+3000, U+FEFF. *)
Definition whiteSpaceCharacters : list string :=
  map ofBytes
    [ [9]; [10]; [11]; [12]; [13]; [32]; [194; 160]; [225; 154; 128];
      [226; 128; 128]; [226; 128; 129]; [226; 128; 130]; [226; 128; 131];
      [226; 128; 132]; [226; 128; 133]; [226; 128; 134]; [226; 128; 135];
      [226; 128; 136]; [226; 128; 137]; [226; 128; 138];
      [226; 128; 168]; [226; 128; 169]; [226; 128; 175]; [226; 129; 159];
      [227; 128; 128]; [239; 187; 191] ]%nat.

(** The invariant of the running application: both references point
    into the store, the tasks have known priorities and the expenses
    dates the host can read, and a collection is in display order
    whenever no search text (no expense filter) is set. *)
Section Invariant.
Context {P : Platform}.

(** What the task half and the expense half of the invariant read. *)
Definition taskSide (w : World) :=
  (taskArrays w, State.tasks (state w), State.taskSearch (state w)).

Definition expenseSide (w : World) :=
  (expenseArrays w, State.expenses (state w), State.expenseFilters (state w)).

Definition tasksValid (w : World) : Prop :=
  is_Some (taskArrays w !! State.tasks (state w)) /\ Forall knownPriority (tasksOf w).

Definition expensesValid (w : World) : Prop :=
  is_Some (expenseArrays w !! State.expenses (state w)) /\ Forall validDate (expensesOf w).

Definition tasksInOrder (w : World) : Prop :=
  searching w = false -> StronglySorted (JSArray.mayPrecede compareTasks) (tasksOf w).

Definition expensesInOrder (w : World) : Prop :=
  filtering w = false -> StronglySorted (JSArray.mayPrecede compareExpenses) (expensesOf w).

Definition storeInvariant (w : World) : Prop :=
  tasksValid w /\ tasksInOrder w /\ expensesValid w /\ expensesInOrder w.

End Invariant.

(** The event offers what the page's forms offer: a priority of the
    task form's list, and a date that the host, once it has read it,
    prints as a date it reads. *)
Definition offered {P : Platform} (e : Event) : Prop :=
  match e with
  | TaskSubmit _ priorityValue => is_Some (priorityOrder priorityValue)
  | ExpenseSubmit _ _ _ dateValue =>
      forall t, Date_parse dateValue = Some t ->
                is_Some (Date_parse (JSString.splitHead "T" (Date_toISOString t)))
  | _ => True
  end.

(** A store in display order, for examples. *)
Definition orderedStore : World :=
  TestHost.world [Examples.gym; Examples.report] [Examples.fuel; Examples.groceries] "" "" "".

(** ** A host whose tasks survive storage

    The host for examples, with a serializer of tasks that reads back
    what it writes: every text field is written as its length, a colon
    and the text, the done flag as one digit, a task after the letter T,
    and the array ends with a full stop. *)

Module Codec.

Definition writeText (s : string) : string :=
  String.app (pretty (Z.of_nat (String.length s))) (String.app ":" s).

(** A text field at the head of [s], and what follows it. *)
Definition readText (s : string) : option (string * string) :=
  let '(k, v, rest) := JSNumber.decimalDigits s 0 0 in
  match k, rest with
  | S _, String ":"%char r =>
      let n := Z.to_nat v in
      if (n <=? String.length r)%nat
      then Some (String.substring 0 n r, String.substring n (String.length r - n) r)
      else None
  | _, _ => None
  end.

Definition writeTask (t : Task.t) : string :=
  String.concat ""
    [ writeText (Task.id t); writeText (Task.text t); writeText (Task.priority t);
      (if Task.done t then "1" else "0"); writeText (Task.createdAt t) ].

Definition readTask (s : string) : option (Task.t * string) :=
  '(id, s1) ← readText s;
  '(text, s2) ← readText s1;
  '(priority, s3) ← readText s2;
  match s3 with
  | String c s4 =>
      '(createdAt, s5) ← readText s4;
      if Ascii.eqb c "1" then Some (Task.mk id text priority true createdAt, s5)
      else if Ascii.eqb c "0" then Some (Task.mk id text priority false createdAt, s5)
      else None
  | EmptyString => None
  end.

Definition writeTasks (l : list Task.t) : string :=
  String.app (String.concat "" (map (fun t => String.app "T" (writeTask t)) l)) ".".

Fixpoint readTasks (fuel : nat) (s : string) : option (list Task.t) :=
  match fuel with
  | O => None
  | S fuel' =>
      match s with
      | String "."%char EmptyString => Some []
      | String "T"%char r =>
          '(t, r') ← readTask r;
          l ← readTasks fuel' r';
          Some (t :: l)
      | _ => None
      end
  end.

Definition taskCodec : Serializer Task.t :=
  {| JSON_stringify := writeTasks;
     JSON_parse := fun text => readTasks (S (String.length text)) text |}.

Definition host : Platform :=
  {| localeCompare := TestHost.compareStrings;
     toLowerCase := TestHost.lower;
     Date_parse := TestHost.parseDate;
     Date_toISOString := TestHost.toISOString;
     Date_getFullYear := TestHost.getFullYear;
     Date_getMonth := TestHost.getMonth;
     Date_addDays := fun t k => t + k * TestHost.msPerDay;
     clockAt := fun n => TestHost.startOfClock + Z.of_nat n;
     idAt := fun n => String.app "id" (pretty (Z.of_nat n));
     storageAccepts := fun _ _ _ => true;
     taskSerializer := taskCodec;
     expenseSerializer := TestHost.countSerializer Expense.t |}.

(** A store with the two example tasks and no expenses. *)
Definition store : World := TestHost.world [Examples.report; Examples.gym] [] "" "" "".

End Codec.

(** * Properties *)

(** ** Sorting *)

Section SortFacts.
Context {A : Type} (comparefn : A -> A -> option Z).
Abbreviation after := (JSArray.after comparefn).
Abbreviation tied := (JSArray.tied comparefn).
Abbreviation insert := (JSArray.insert comparefn).
Abbreviation sort := (JSArray.sort comparefn).
Abbreviation mayPrecede := (JSArray.mayPrecede comparefn).

Lemma insert_Permutation x l : Permutation (insert x l) (x :: l).
Proof.
  induction l as [|y l IH]; simpl; [reflexivity|].
  destruct (after x y); [|reflexivity].
  rewrite IH. apply perm_swap.
Qed.

Lemma sort_Permutation l : Permutation (sort l) l.
Proof.
  induction l as [|x l IH]; simpl; [constructor|].
  unfold JSArray.sort in IH. rewrite insert_Permutation. by constructor.
Qed.

Lemma sort_cons x l : sort (x :: l) = insert x (sort l).
Proof. reflexivity. Qed.

(** An element that may precede all of a list is inserted at its head. *)
Lemma insert_head x l : Forall (mayPrecede x) l -> insert x l = x :: l.
Proof.
  destruct l as [|y l]; [done|]. intros H. apply Forall_cons_1 in H as [H _].
  simpl. unfold JSArray.mayPrecede in H. by rewrite H.
Qed.

(** Sorting leaves a sorted array as it is. *)
Lemma sort_sorted_id l : StronglySorted mayPrecede l -> sort l = l.
Proof.
  induction 1 as [|x l Hs IH Hx]; [done|].
  rewrite sort_cons, IH. by apply insert_head.
Qed.

Section Consistent.
Variable D : A -> Prop.
Hypothesis Hcons : JSArray.consistentOn comparefn D.

Lemma tied_sym a b : tied a b = tied b a.
Proof. unfold JSArray.tied. apply andb_comm. Qed.

Lemma mayPrecede_trans a b c :
  D a -> D b -> D c -> mayPrecede a b -> mayPrecede b c -> mayPrecede a c.
Proof.
  destruct Hcons as (Hasym & Htrans & Hties).
  unfold JSArray.mayPrecede. intros Da Db Dc Hab Hbc.
  destruct (after a c) eqn:Hac; [|done].
  assert (tied a b = true) as Tab.
  { unfold JSArray.tied. rewrite Hab. simpl.
    destruct (after b a) eqn:Hba; [|done].
    by rewrite (Htrans b a c Db Da Dc Hba Hac) in Hbc. }
  assert (tied b c = true) as Tbc.
  { unfold JSArray.tied. rewrite Hbc. simpl.
    destruct (after c b) eqn:Hcb; [|done].
    by rewrite (Htrans a c b Da Dc Db Hac Hcb) in Hab. }
  pose proof (Hties a b c Da Db Dc Tab Tbc) as Tac.
  unfold JSArray.tied in Tac. rewrite Hac in Tac. done.
Qed.

Lemma insert_Forall (Q : A -> Prop) x l : Q x -> Forall Q l -> Forall Q (insert x l).
Proof.
  intros Hx Hl. eapply Permutation_Forall; [symmetry; apply insert_Permutation|].
  by constructor.
Qed.

Lemma insert_StronglySorted x l :
  D x -> Forall D l -> StronglySorted mayPrecede l ->
  StronglySorted mayPrecede (insert x l).
Proof.
  intros Dx Dl Hs. induction Hs as [|y l Hs IH Hy]; simpl.
  - repeat constructor.
  - apply Forall_cons_1 in Dl as [Dy Dl].
    destruct (after x y) eqn:Hxy.
    + constructor; [by apply IH|].
      apply insert_Forall; [|done].
      destruct Hcons as (Hasym & _). by apply Hasym.
    + constructor; [by constructor|].
      constructor; [done|].
      rewrite Forall_forall in Hy, Dl. apply Forall_forall. intros z Hz.
      apply (mayPrecede_trans x y z); auto.
Qed.

(** The sorted array is in order. *)
Lemma sort_StronglySorted l : Forall D l -> StronglySorted mayPrecede (sort l).
Proof.
  induction 1 as [|x l Dx Dl IH]; [constructor|].
  rewrite sort_cons. apply insert_StronglySorted; [done| |done].
  eapply Permutation_Forall; [symmetry; apply sort_Permutation|done].
Qed.

Lemma insert_stable a x l :
  D a -> D x -> Forall D l ->
  List.filter (tied a) (insert x l) = List.filter (tied a) (x :: l).
Proof.
  intros Da Dx Dl. induction Dl as [|y l Dy Dl IH]; [done|].
  simpl. destruct (after x y) eqn:Hxy; [|done].
  simpl. rewrite IH. simpl.
  destruct (tied a x) eqn:Tax, (tied a y) eqn:Tay; try done.
  destruct Hcons as (_ & _ & Hties).
  rewrite tied_sym in Tax.
  pose proof (Hties x a y Dx Da Dy Tax Tay) as Txy.
  unfold JSArray.tied in Txy. rewrite Hxy in Txy. done.
Qed.

(** The sort is stable: the elements that compare equal to a given
    one keep their order. *)
Lemma sort_stable a l :
  D a -> Forall D l -> List.filter (tied a) (sort l) = List.filter (tied a) l.
Proof.
  intros Da Dl. induction Dl as [|x l Dx Dl IH]; [done|].
  rewrite sort_cons, insert_stable; try done.
  - simpl. by rewrite IH.
  - eapply Permutation_Forall; [symmetry; apply sort_Permutation|done].
Qed.
End Consistent.
End SortFacts.

(** ** Computations that return *)

Definition returns {A} (c : M A) : Prop := forall w, exists a, fst (c w) = Return a.

Lemma returns_ret {A} (a : A) : returns (ret a).
Proof. intros w. by exists a. Qed.

Lemma returns_gets {A} (f : World -> A) : returns (gets f).
Proof. intros w. by eexists. Qed.

Lemma returns_modify f : returns (modify f).
Proof. intros w. by eexists. Qed.

Lemma returns_bind {A B} (c : M A) (k : A -> M B) :
  returns c -> (forall a, returns (k a)) -> returns (bind c k).
Proof.
  intros Hc Hk w. unfold bind. destruct (Hc w) as [a Ha].
  destruct (c w) as [[a'|e] w']; simpl in Ha; [|done].
  apply Hk.
Qed.

Lemma returns_if {A} (b : bool) (c1 c2 : M A) :
  returns c1 -> returns c2 -> returns (if b then c1 else c2).
Proof. by destruct b. Qed.

Create HintDb returns.
#[local] Hint Resolve returns_ret returns_gets returns_modify returns_if : returns.
#[local] Hint Extern 2 (returns (bind _ _)) => apply returns_bind; [|intros] : returns.

Section Returns.
Context {P : Platform}.

Lemma returns_generateId : returns generateId.
Proof. intros w. by eexists. Qed.

Lemma returns_newDate : returns newDate.
Proof. intros w. by eexists. Qed.

Lemma returns_saveToStorage {A} `{Serializer A} key (data : list A) :
  returns (saveToStorage key data).
Proof. intros w. unfold saveToStorage. destruct storageAccepts; by eexists. Qed.

Lemma returns_newTaskArray v : returns (newTaskArray v).
Proof. intros w. by eexists. Qed.

Lemma returns_newExpenseArray v : returns (newExpenseArray v).
Proof. intros w. by eexists. Qed.

Hint Resolve returns_generateId returns_newDate returns_saveToStorage
  returns_newTaskArray returns_newExpenseArray : returns.

Lemma returns_saveState : returns saveState.
Proof. unfold saveState. auto 10 with returns. Qed.

Lemma returns_renderTasks : returns renderTasks.
Proof.
  unfold renderTasks, getFilteredTasks, sortTasks, updateTasks, readTasks.
  auto 20 with returns.
Qed.

Lemma returns_updateTaskStats : returns updateTaskStats.
Proof. unfold updateTaskStats, calculateTaskStats. auto 10 with returns. Qed.

Hint Resolve returns_saveState returns_renderTasks returns_updateTaskStats : returns.

Lemma returns_addTask text priority : returns (addTask text priority).
Proof. unfold addTask, updateTasks. auto 20 with returns. Qed.

Lemma returns_toggleTask id : returns (toggleTask id).
Proof.
  unfold toggleTask, updateTasks, readTasks.
  apply returns_bind; [auto with returns|intros l].
  apply returns_bind; [auto with returns|intros ts].
  destruct (list_find _ ts) as [[i task]|]; auto 20 with returns.
Qed.

Lemma returns_deleteTask id : returns (deleteTask id).
Proof. unfold deleteTask, setStateTasks. auto 20 with returns. Qed.

Lemma returns_filterTasks searchText : returns (filterTasks searchText).
Proof. unfold filterTasks. auto 20 with returns. Qed.

Lemma returns_runTaskOps ops : returns (runTaskOps ops).
Proof.
  induction ops as [|op ops IH]; simpl; [auto with returns|].
  apply returns_bind; [|done].
  destruct op; simpl;
    auto using returns_addTask, returns_toggleTask, returns_deleteTask, returns_filterTasks.
Qed.
End Returns.

(** ** Task statistics *)

Section TaskStatsFacts.
Context {P : Platform}.

Lemma calculateTaskStats_eq w :
  calculateTaskStats w =
  (Return (TaskStats.mk (Z.of_nat (length (tasksOf w)))
                        (Z.of_nat (length (List.filter Task.done (tasksOf w))))
                        (Z.of_nat (length (tasksOf w))
                         - Z.of_nat (length (List.filter Task.done (tasksOf w))))),
   w).
Proof. reflexivity. Qed.

Lemma filter_done_true (ts : list Task.t) :
  List.filter (fun t => Bool.eqb (Task.done t) true) ts = List.filter Task.done ts.
Proof.
  apply List.filter_ext. intros t. by destruct (Task.done t).
Qed.

Lemma filter_length_le {A} (f : A -> bool) (l : list A) :
  (length (List.filter f l) <= length l)%nat.
Proof. induction l as [|x l IH]; simpl; [lia|]. destruct (f x); simpl; lia. Qed.

(** C1. After any sequence of addTask, toggleTask and deleteTask (and
    of changes of the search text), the sequence runs to its end and
    calculateTaskStats returns, without changing anything, the record
    whose total is the number of tasks of the collection, whose
    completed is the number of those with done = true, and whose
    pending is total - completed; total = completed + pending; and the
    record is the same whatever the search text is. *)
Theorem calculateTaskStats_counts (w : World) (ops : list TaskOp) :
  let w' := exec (runTaskOps ops) w in
  fst (runTaskOps ops w) = Return tt /\
  exists stats,
    calculateTaskStats w' = (Return stats, w') /\
    TaskStats.total stats = Z.of_nat (length (tasksOf w')) /\
    TaskStats.completed stats =
      Z.of_nat (length (List.filter (fun t => Bool.eqb (Task.done t) true) (tasksOf w'))) /\
    TaskStats.pending stats = TaskStats.total stats - TaskStats.completed stats /\
    0 <= TaskStats.pending stats /\
    TaskStats.total stats = TaskStats.completed stats + TaskStats.pending stats /\
    forall search,
      result calculateTaskStats (withState (State.setTaskSearch search (state w')) w')
      = Some stats.
Proof.
  intros w'. split.
  { destruct (returns_runTaskOps ops w) as [[] H]. exact H. }
  eexists. split; [apply calculateTaskStats_eq|]. simpl.
  rewrite filter_done_true.
  pose proof (filter_length_le Task.done (tasksOf w')).
  repeat split; try lia.
Qed.
End TaskStatsFacts.

(** ** Euros to cents *)

Lemma allFrom_spec n c f x :
  allFrom n c f = true -> c <= x < c + Z.of_nat n -> f x = true.
Proof.
  revert c. induction n as [|n IH]; intros c H Hx; [lia|].
  simpl in H. apply andb_prop in H as [Hc H].
  destruct (Z.eq_dec x c) as [->|Hne]; [done|].
  apply (IH (c + 1)); [done|lia].
Qed.

Lemma convertsBack_below_100_euros : allFrom (Z.to_nat 10000) 0 convertsBack = true.
Proof. vm_compute. reflexivity. Qed.

(** [roundHalfUp] is the nearest integer, the upper one on a tie: the
    value [v / 2^(-e)] lies in [[n - 1/2, n + 1/2)]. *)
Lemma roundHalfUp_nearest s m e :
  e < 0 ->
  let n := JSNumber.roundHalfUp s m e in
  let v := cond_Zopp s (Zpos m) in
  (2 * n - 1) * 2 ^ (- e) <= 2 * v < (2 * n + 1) * 2 ^ (- e).
Proof.
  intros He n v. unfold n, JSNumber.roundHalfUp. fold v.
  destruct (0 <=? e) eqn:E; [apply Z.leb_le in E; lia|].
  assert (0 < 2 ^ (- e)) as HD by (apply Z.pow_pos_nonneg; lia).
  set (D := 2 ^ (- e)) in *.
  pose proof (Z.mul_div_le (2 * v + D) (2 * D) ltac:(lia)).
  pose proof (Z.mul_succ_div_gt (2 * v + D) (2 * D) ltac:(lia)).
  nia.
Qed.

(** C4, the claim as stated fails: the amount 1.005 is the decimal
    literal 1005 * 10^-3, whose cents rounded half away from zero are
    101, and eurosToCents gives 100. *)
Lemma eurosToCents_not_half_away_from_zero :
  JSNumber.strDecimalLiteral "1.005" = Some (false, JSNumber.LitDecimal 1005 4 (-3)) /\
  nearestCent 1005 3 = 101 /\
  JSNumber.toZ (eurosToCents "1.005") = Some 100 /\
  JSNumber.toZ (eurosToCents "1.005") <> Some (nearestCent 1005 3).
Proof. vm_compute. done. Qed.

(** The same for a negative amount that binary64 represents exactly:
    -0.125 euros are -12.5 cents, which Math.round takes to -12. *)
Lemma eurosToCents_negative_half :
  JSNumber.toZ (eurosToCents "-0.125") = Some (-12) /\
  - nearestCent 125 3 = -13.
Proof. vm_compute. done. Qed.

(** C4, amended.  eurosToCents rounds the binary64 product
    parseFloat(euros) * 100 to the nearest integer, the upper one on a
    tie, and leaves an integral or non-finite product as it is; 45.67
    gives 4567, 65 gives 6500 and 15.999 gives 1600; and every amount
    from 0.00 to 99.99 euros written with two decimals gives exactly its
    number of cents. *)
Theorem eurosToCents_rounds_product :
  (JSNumber.toZ (eurosToCents "45.67") = Some 4567 /\
   JSNumber.toZ (eurosToCents "65") = Some 6500 /\
   JSNumber.toZ (eurosToCents "15.999") = Some 1600) /\
  (forall euros s m e,
     JSNumber.mul (JSNumber.parseFloat euros) (JSNumber.ofZ 100) = S754_finite s m e ->
     e < 0 ->
     exists n,
       (2 * n - 1) * 2 ^ (- e) <= 2 * cond_Zopp s (Zpos m) < (2 * n + 1) * 2 ^ (- e) /\
       eurosToCents euros = if n =? 0 then S754_zero s else JSNumber.ofZ n) /\
  (forall euros,
     match JSNumber.mul (JSNumber.parseFloat euros) (JSNumber.ofZ 100) with
     | S754_finite s m e => 0 <= e
     | _ => True
     end ->
     eurosToCents euros = JSNumber.mul (JSNumber.parseFloat euros) (JSNumber.ofZ 100)) /\
  (forall c, 0 <= c < 10000 -> JSNumber.toZ (eurosToCents (centsText c)) = Some c).
Proof.
  split; [by vm_compute|]. split; [|split].
  - intros euros s m e Hx He. exists (JSNumber.roundHalfUp s m e).
    split; [by apply roundHalfUp_nearest|].
    unfold eurosToCents. rewrite Hx. simpl.
    destruct (0 <=? e) eqn:E; [apply Z.leb_le in E; lia|done].
  - intros euros Hx. unfold eurosToCents.
    destruct (JSNumber.mul _ _) as [| | |s m e]; try done.
    simpl. apply Z.leb_le in Hx. by rewrite Hx.
  - intros c Hc.
    pose proof (allFrom_spec _ 0 convertsBack c convertsBack_below_100_euros ltac:(lia)) as H.
    unfold convertsBack in H.
    destruct (JSNumber.toZ _) as [v|]; [|done].
    apply Z.eqb_eq in H. by subst.
Qed.

Lemma eurosToCents_rounds_product_witness :
  (exists n,
     (2 * n - 1) * 2 ^ 46 <= 2 * 7072058789855231 < (2 * n + 1) * 2 ^ 46 /\
     eurosToCents "1.005" = if n =? 0 then S754_zero false else JSNumber.ofZ n) /\
  eurosToCents "1e20" = JSNumber.mul (JSNumber.parseFloat "1e20") (JSNumber.ofZ 100) /\
  JSNumber.toZ (eurosToCents (centsText 1999)) = Some 1999.
Proof.
  destruct eurosToCents_rounds_product as (_ & Hb & Hc & Hd).
  split; [|split].
  - apply (Hb "1.005" false 7072058789855231%positive (-46)); [by vm_compute|lia].
  - apply (Hc "1e20"). by vm_compute.
  - apply (Hd 1999). lia.
Defined.

(** ** The store *)

Section StoreFacts.
Context {A : Type}.
Implicit Types (h : gmap loc (list A)) (l : loc) (f : list A -> list A).

Lemma fresh_ne h l : is_Some (h !! l) -> l <> fresh (dom h).
Proof.
  intros Hl ->. apply elem_of_dom in Hl. by apply is_fresh in Hl.
Qed.

Lemma deref_alter f h l : f [] = [] -> deref (alter f l h) l = f (deref h l).
Proof. intros Hf. unfold deref. rewrite lookup_alter_eq. by destruct (h !! l). Qed.

Lemma deref_alter_ne f h l l' : l <> l' -> deref (alter f l h) l' = deref h l'.
Proof. intros Hne. unfold deref. by rewrite lookup_alter_ne. Qed.

Lemma deref_alter_Some f h l : is_Some (h !! l) -> deref (alter f l h) l = f (deref h l).
Proof. intros [v Hv]. unfold deref. by rewrite lookup_alter_eq, Hv. Qed.

Lemma deref_insert h l v : deref (<[l := v]> h) l = v.
Proof. unfold deref. by rewrite lookup_insert_eq. Qed.

Lemma deref_insert_ne h l l' v : l <> l' -> deref (<[l := v]> h) l' = deref h l'.
Proof. intros Hne. unfold deref. by rewrite lookup_insert_ne. Qed.

Lemma deref_fresh h l v : is_Some (h !! l) -> deref (<[fresh (dom h) := v]> h) l = deref h l.
Proof. intros Hl. apply deref_insert_ne. apply not_eq_sym. by apply fresh_ne. Qed.

Lemma is_Some_alter f h l l' : is_Some (h !! l') -> is_Some (alter f l h !! l').
Proof.
  intros [v Hv]. destruct (decide (l = l')) as [->|Hne].
  - rewrite lookup_alter_eq, Hv. by eexists.
  - rewrite lookup_alter_ne, Hv by done. by eexists.
Qed.

Lemma is_Some_insert h l l' v : is_Some (h !! l') -> is_Some (<[l := v]> h !! l').
Proof.
  intros [v' Hv]. destruct (decide (l = l')) as [->|Hne].
  - rewrite lookup_insert_eq. by eexists.
  - rewrite lookup_insert_ne, Hv by done. by eexists.
Qed.
End StoreFacts.

Lemma sort_nil {A} (cmp : A -> A -> option Z) : JSArray.sort cmp [] = [].
Proof. reflexivity. Qed.

Section RenderFacts.
Context {P : Platform}.

Lemma sortTasks_eq tasks w :
  sortTasks tasks w =
  (Return tasks, withTaskArrays (alter (JSArray.sort compareTasks) tasks (taskArrays w)) w).
Proof. reflexivity. Qed.

Lemma renderTasks_effect w :
  exists h',
    renderTasks w = (Return tt, withTaskArrays h' w) /\
    (forall l, is_Some (taskArrays w !! l) -> is_Some (h' !! l)) /\
    (truthy (State.taskSearch (state w)) = false ->
     h' = alter (JSArray.sort compareTasks) (State.tasks (state w)) (taskArrays w)) /\
    (truthy (State.taskSearch (state w)) = true ->
     forall l, is_Some (taskArrays w !! l) -> h' !! l = taskArrays w !! l).
Proof.
  unfold renderTasks, getFilteredTasks, sortTasks, updateTasks, readTasks, newTaskArray,
    bind, gets, modify, ret.
  simpl.
  destruct (truthy (State.taskSearch (state w))) eqn:E; simpl.
  - eexists. split; [reflexivity|]. split; [|split; [done|]].
    + intros l Hl. by apply is_Some_alter, is_Some_insert.
    + intros _ l Hl. pose proof (fresh_ne _ _ Hl).
      rewrite lookup_alter_ne, lookup_insert_ne by done. done.
  - eexists. split; [reflexivity|]. split; [|split; [done|done]].
    intros l Hl. by apply is_Some_alter.
Qed.

Lemma withExpenseArrays_id w : withExpenseArrays (expenseArrays w) w = w.
Proof. by destruct w. Qed.

(** One filtering step: the array itself when the filter is empty, a
    new array otherwise; the arrays that exist stay as they are. *)
Lemma filterStep_effect (b : bool) (p : Expense.t -> bool) l w :
  exists l' h',
    (if b then (es <- readExpenses l ;; newExpenseArray (List.filter p es)) else ret l) w
    = (Return l', withExpenseArrays h' w) /\
    deref h' l' = (if b then List.filter p (deref (expenseArrays w) l)
                   else deref (expenseArrays w) l) /\
    (forall l0, is_Some (expenseArrays w !! l0) -> h' !! l0 = expenseArrays w !! l0) /\
    (if b then expenseArrays w !! l' = None /\ is_Some (h' !! l')
     else l' = l /\ h' = expenseArrays w).
Proof.
  destruct b.
  - do 2 eexists. split; [reflexivity|]. split; [apply deref_insert|]. split.
    + intros l0 Hl0. rewrite lookup_insert_ne; [done|].
      apply not_eq_sym. by apply fresh_ne.
    + split; [|rewrite lookup_insert_eq; by eexists].
      apply not_elem_of_dom. apply is_fresh.
  - exists l, (expenseArrays w). by rewrite withExpenseArrays_id.
Qed.

Lemma filter_filter {A} (p q : A -> bool) (l : list A) :
  List.filter q (List.filter p l) = List.filter (fun x => p x && q x) l.
Proof.
  induction l as [|x l IH]; [done|]. simpl.
  destruct (p x); simpl; [destruct (q x)|]; by rewrite ?IH.
Qed.

Lemma truthy_false s : truthy s = false -> s = "".
Proof. unfold truthy. intros H. apply negb_false_iff in H. by apply String.eqb_eq. Qed.

Lemma filter_passes f es :
  (if truthy (Filters.month f)
   then List.filter (fun e => JSString.startsWith (Expense.dateISO e) (Filters.month f))
   else id)
    ((if truthy (Filters.category f)
      then List.filter (fun e => String.eqb (Expense.category e) (Filters.category f))
      else id) es)
  = List.filter (passes f) es.
Proof.
  unfold passes, truthy.
  destruct (String.eqb (Filters.category f) "") eqn:Ec,
           (String.eqb (Filters.month f) "") eqn:Em; simpl.
  - symmetry. clear. induction es; simpl; congruence.
  - apply List.filter_ext. done.
  - apply List.filter_ext. intros e. by rewrite andb_true_r.
  - rewrite filter_filter. apply List.filter_ext. done.
Qed.

Lemma getFilteredExpenses_effect w :
  let f := State.expenseFilters (state w) in
  let filtering := truthy (Filters.category f) || truthy (Filters.month f) in
  exists l' h',
    getFilteredExpenses w = (Return l', withExpenseArrays h' w) /\
    deref h' l' = JSArray.sort compareExpenses (List.filter (passes f) (expensesOf w)) /\
    (forall l, is_Some (expenseArrays w !! l) -> is_Some (h' !! l)) /\
    (if filtering
     then forall l, is_Some (expenseArrays w !! l) -> h' !! l = expenseArrays w !! l
     else l' = State.expenses (state w) /\
          h' = alter (JSArray.sort compareExpenses) (State.expenses (state w))
                     (expenseArrays w)).
Proof.
  intros f filtering. subst filtering.
  unfold getFilteredExpenses, bind at 1 2. unfold gets at 1 2. simpl.
  unfold bind at 1.
  destruct (filterStep_effect (truthy (Filters.category f))
              (fun e => String.eqb (Expense.category e) (Filters.category f))
              (State.expenses (state w)) w) as (l1 & h1 & E1 & D1 & K1 & F1).
  fold f. rewrite E1. unfold bind at 1. unfold gets at 1. simpl.
  unfold bind at 1.
  destruct (filterStep_effect (truthy (Filters.month f))
              (fun e => JSString.startsWith (Expense.dateISO e) (Filters.month f))
              l1 (withExpenseArrays h1 w)) as (l2 & h2 & E2 & D2 & K2 & F2).
  fold f. rewrite E2. simpl in *.
  exists l2, (alter (JSArray.sort compareExpenses) l2 h2).
  split; [reflexivity|].
  split.
  { rewrite deref_alter by done. f_equal. rewrite D2, D1.
    rewrite <- filter_passes. unfold expensesOf. fold f.
    by destruct (truthy (Filters.category f)), (truthy (Filters.month f)). }
  split.
  { intros l Hl. apply is_Some_alter. 
    assert (is_Some (h1 !! l)) as H1 by (rewrite K1; done).
    rewrite K2; done. }
  destruct (truthy (Filters.category f)) eqn:Ec; simpl.
  - intros l Hl.
    assert (is_Some (h1 !! l)) as H1 by (rewrite K1; done).
    destruct F1 as [N1 S1].
    destruct (truthy (Filters.month f)) eqn:Em.
    + destruct F2 as [N2 S2]. rewrite lookup_alter_ne.
      * rewrite K2, K1; done.
      * intros ->. rewrite N2 in H1. by destruct H1.
    + destruct F2 as [-> ->]. rewrite lookup_alter_ne.
      * by apply K1.
      * intros ->. rewrite N1 in Hl. by destruct Hl.
  - destruct F1 as [-> ->].
    destruct (truthy (Filters.month f)) eqn:Em.
    + intros l Hl. destruct F2 as [N2 S2]. rewrite lookup_alter_ne.
      * by apply K2.
      * intros ->. rewrite N2 in Hl. by destruct Hl.
    + destruct F2 as [-> ->]. done.
Qed.
End RenderFacts.

(** ** Filtered expenses *)

Section ExpenseViewFacts.
Context {P : Platform}.

Lemma after_compareExpenses a b ta tb :
  Date_parse (Expense.dateISO a) = Some ta ->
  Date_parse (Expense.dateISO b) = Some tb ->
  JSArray.after compareExpenses a b = (ta <? tb).
Proof.
  intros Ha Hb. unfold JSArray.after, compareExpenses. rewrite Ha, Hb. simpl.
  destruct (ta <? tb) eqn:E.
  - apply Z.ltb_lt in E. apply Z.ltb_lt. lia.
  - apply Z.ltb_ge in E. apply Z.ltb_ge. lia.
Qed.

Lemma compareExpenses_consistent : JSArray.consistentOn compareExpenses validDate.
Proof.
  repeat split.
  - intros a b [ta Ha] [tb Hb].
    rewrite (after_compareExpenses a b ta tb), (after_compareExpenses b a tb ta) by done.
    rewrite Z.ltb_lt, Z.ltb_ge. lia.
  - intros a b c [ta Ha] [tb Hb] [tc Hc].
    rewrite (after_compareExpenses a b ta tb), (after_compareExpenses b c tb tc),
      (after_compareExpenses a c ta tc) by done.
    rewrite !Z.ltb_lt. lia.
  - intros a b c [ta Ha] [tb Hb] [tc Hc]. unfold JSArray.tied.
    rewrite (after_compareExpenses a b ta tb), (after_compareExpenses b c tb tc),
      (after_compareExpenses a c ta tc), (after_compareExpenses b a tb ta),
      (after_compareExpenses c b tc tb), (after_compareExpenses c a tc ta) by done.
    rewrite !andb_true_iff, !negb_true_iff, !Z.ltb_ge. lia.
Qed.

Lemma mayPrecede_notEarlier a b :
  validDate a -> validDate b ->
  JSArray.mayPrecede compareExpenses a b -> notEarlier a b.
Proof.
  intros [ta Ha] [tb Hb]. unfold JSArray.mayPrecede, notEarlier.
  rewrite (after_compareExpenses a b ta tb), Ha, Hb by done.
  rewrite Z.ltb_ge. lia.
Qed.

Lemma tied_sameDate a b :
  validDate a -> validDate b -> JSArray.tied compareExpenses a b = sameDate a b.
Proof.
  intros [ta Ha] [tb Hb]. unfold JSArray.tied, sameDate.
  rewrite (after_compareExpenses a b ta tb), (after_compareExpenses b a tb ta) by done.
  rewrite Ha, Hb. case_bool_decide as E.
  - injection E as ->. by rewrite Z.ltb_irrefl.
  - destruct (ta <? tb) eqn:E1, (tb <? ta) eqn:E2; try done.
    apply Z.ltb_ge in E1, E2. destruct E. f_equal. lia.
Qed.

Lemma StronglySorted_impl {A} (R S : A -> A -> Prop) (D : A -> Prop) l :
  (forall a b, D a -> D b -> R a b -> S a b) ->
  Forall D l -> StronglySorted R l -> StronglySorted S l.
Proof.
  intros HRS Dl Hs. induction Hs as [|x l Hs IH Hx]; [constructor|].
  apply Forall_cons_1 in Dl as [Dx Dl]. constructor; [by apply IH|].
  rewrite Forall_forall in *. eauto.
Qed.

Lemma Forall_filter_bool {A} (Q : A -> Prop) (p : A -> bool) l :
  Forall Q l -> Forall Q (List.filter p l).
Proof.
  induction 1 as [|x l Hx Hl IH]; simpl; [constructor|].
  destruct (p x); [by constructor|done].
Qed.

Lemma passes_spec f e :
  passes f e = true <->
  (Filters.category f = "" \/ Expense.category e = Filters.category f) /\
  (Filters.month f = "" \/ JSString.startsWith (Expense.dateISO e) (Filters.month f) = true).
Proof.
  unfold passes. rewrite andb_true_iff, !orb_true_iff, !String.eqb_eq. done.
Qed.

(** C7. getFilteredExpenses returns an array that holds exactly the
    expenses of the collection that pass the category filter (equal
    category; any when the filter is empty) and the month filter
    (dateISO starts with it; any when empty), most recent first,
    expenses of one date in the order they had; 2024-03-15 passes the
    month 2024-03 and not 2024-04.  The dates of the collection are
    dates the host can read. *)
Theorem getFilteredExpenses_filters_and_sorts (w : World) :
  Forall validDate (expensesOf w) ->
  let f := State.expenseFilters (state w) in
  exists l' w',
    getFilteredExpenses w = (Return l', w') /\
    let shown := deref (expenseArrays w') l' in
    (forall e, In e shown <->
       In e (expensesOf w) /\
       (Filters.category f = "" \/ Expense.category e = Filters.category f) /\
       (Filters.month f = "" \/
        JSString.startsWith (Expense.dateISO e) (Filters.month f) = true)) /\
    Permutation shown (List.filter (passes f) (expensesOf w)) /\
    StronglySorted notEarlier shown /\
    (forall a, validDate a ->
       List.filter (sameDate a) shown
       = List.filter (sameDate a) (List.filter (passes f) (expensesOf w))) /\
    JSString.startsWith "2024-03-15" "2024-03" = true /\
    JSString.startsWith "2024-03-15" "2024-04" = false.
Proof.
  intros Hvalid f.
  destruct (getFilteredExpenses_effect w) as (l' & h' & E & D & _).
  exists l', (withExpenseArrays h' w). split; [done|]. simpl. fold f in D. rewrite D.
  set (visible := List.filter (passes f) (expensesOf w)).
  assert (Forall validDate visible) as Hv by by apply Forall_filter_bool.
  pose proof (JSArray_sort_perm := sort_Permutation compareExpenses visible).
  assert (Forall validDate (JSArray.sort compareExpenses visible)) as Hs.
  { eapply Permutation_Forall; [symmetry; exact JSArray_sort_perm|done]. }
  split; [|split; [done|split; [|split; [|done]]]].
  - intros e. rewrite <- passes_spec. rewrite <- List.filter_In.
    split; intros H.
    + eapply Permutation_in; [exact JSArray_sort_perm|done].
    + eapply Permutation_in; [symmetry; exact JSArray_sort_perm|done].
  - eapply (StronglySorted_impl _ _ validDate); [|done|].
    + intros a b. apply mayPrecede_notEarlier.
    + by apply (sort_StronglySorted compareExpenses validDate compareExpenses_consistent).
  - intros a Ha.
    rewrite <- (List.filter_ext_in (JSArray.tied compareExpenses a)).
    2:{ intros e He. apply tied_sameDate; [done|].
        rewrite Forall_forall in Hs. apply Hs. by apply list_elem_of_In. }
    rewrite <- (List.filter_ext_in (JSArray.tied compareExpenses a) (sameDate a) visible).
    2:{ intros e He. apply tied_sameDate; [done|].
        rewrite Forall_forall in Hv. apply Hv. by apply list_elem_of_In. }
    by apply (sort_stable compareExpenses validDate compareExpenses_consistent).
Qed.
End ExpenseViewFacts.

Lemma getFilteredExpenses_filters_and_sorts_witness :
  exists l' w',
    @getFilteredExpenses TestHost.host Examples.store = (Return l', w') /\
    StronglySorted (@notEarlier TestHost.host) (deref (expenseArrays w') l').
Proof.
  destruct (@getFilteredExpenses_filters_and_sorts TestHost.host Examples.store)
    as (l' & w' & E & _ & _ & S & _).
  - repeat constructor; by eexists.
  - by exists l', w'.
Defined.

(** ** Sums of whole numbers *)

(** Shifting a mantissa left. *)
Lemma iter_pos_nat {A} (f : A -> A) p x : iter_pos f p x = Nat.iter (Pos.to_nat p) f x.
Proof.
  revert x. induction p as [p IH|p IH|]; intros x; cbn [iter_pos].
  - rewrite !IH, Pos2Nat.inj_xI.
    replace (S (2 * Pos.to_nat p)) with (Pos.to_nat p + (Pos.to_nat p + 1))%nat by lia.
    by rewrite !Nat.iter_add.
  - rewrite !IH, Pos2Nat.inj_xO.
    replace (2 * Pos.to_nat p)%nat with (Pos.to_nat p + Pos.to_nat p)%nat by lia.
    by rewrite Nat.iter_add.
  - done.
Qed.

Lemma Pos_iter_nat {A} (f : A -> A) p x : Pos.iter f x p = Nat.iter (Pos.to_nat p) f x.
Proof. apply Pos2Nat.inj_iter. Qed.

Lemma shl_value n q : Zpos (shl n q) = Zpos q * 2 ^ Z.of_nat n.
Proof.
  induction n as [|n IH]; [simpl; lia|].
  unfold shl in *. simpl Nat.iter. rewrite Pos2Z.inj_xO, IH.
  rewrite Nat2Z.inj_succ, Z.pow_succ_r by lia. lia.
Qed.

Lemma shl_digits n q : Zpos (digits2_pos (shl n q)) = Zpos (digits2_pos q) + Z.of_nat n.
Proof.
  induction n as [|n IH]; [simpl; lia|].
  unfold shl in *. simpl Nat.iter. cbn [digits2_pos]. rewrite Pos2Z.inj_succ, IH. lia.
Qed.

Lemma shl_add n m q : shl n (shl m q) = shl (n + m) q.
Proof. unfold shl. by rewrite Nat.iter_add. Qed.

Lemma shr_exact n j q :
  Nat.iter n shr_1 (Build_shr_record (Zpos (shl (n + j) q)) false false)
  = Build_shr_record (Zpos (shl j q)) false false.
Proof.
  induction n as [|n IH]; [done|].
  rewrite Nat.iter_succ_r. cbn [Nat.add]. unfold shl at 1. simpl Nat.iter. cbn [shr_1].
  simpl orb. exact IH.
Qed.

Lemma digits_lower q : 2 ^ (Zpos (digits2_pos q) - 1) <= Zpos q.
Proof.
  induction q as [q IH|q IH|]; cbn [digits2_pos]; [| |simpl; lia].
  - rewrite Pos2Z.inj_succ. replace (Z.succ (Zpos (digits2_pos q)) - 1)
      with (Z.succ (Zpos (digits2_pos q) - 1)) by lia.
    rewrite Z.pow_succ_r by lia. lia.
  - rewrite Pos2Z.inj_succ. replace (Z.succ (Zpos (digits2_pos q)) - 1)
      with (Z.succ (Zpos (digits2_pos q) - 1)) by lia.
    rewrite Z.pow_succ_r by lia. lia.
Qed.

Lemma digits_le_53 q : Zpos q < 2 ^ 53 -> Zpos (digits2_pos q) <= 53.
Proof.
  intros H. destruct (Z.le_gt_cases (Zpos (digits2_pos q)) 53) as [|Hgt]; [done|].
  pose proof (digits_lower q) as Hl.
  assert (2 ^ 53 <= 2 ^ (Zpos (digits2_pos q) - 1)) by (apply Z.pow_le_mono_r; lia).
  lia.
Qed.

Lemma fexp_small d : 1 <= d -> fexp 53 1024 d = d - 53.
Proof. intros H. unfold fexp, emin. lia. Qed.

Lemma shr_nat mrs e (n : nat) :
  shr mrs e (Z.of_nat n) = (Nat.iter n shr_1 mrs, e + Z.of_nat n).
Proof.
  destruct n as [|n]; [simpl; f_equal; lia|].
  unfold shr. change (Z.of_nat (S n)) with (Zpos (Pos.of_succ_nat n)). cbv beta iota.
  by rewrite iter_pos_nat, SuccNat2Pos.id_succ.
Qed.

(** Rounding a mantissa that has only zeros beyond its 53 bits. *)
Lemma binary_round_aux_exact (q : positive) (n : nat) :
  let d := Zpos (digits2_pos q) in
  let J := Z.to_nat (53 - d) in
  d <= 53 ->
  binary_round_aux 53 1024 false (Zpos (shl (n + J) q)) (d - 53 - Z.of_nat n) loc_Exact
  = S754_finite false (shl J q) (d - 53).
Proof.
  intros d J Hd.
  assert (1 <= d) as Hd1 by (unfold d; lia).
  assert (Z.of_nat J = 53 - d) as HJ by (unfold J; lia).
  unfold binary_round_aux, shr_fexp. cbn [Zdigits2 shr_record_of_loc].
  rewrite shl_digits. fold d.
  replace (d + Z.of_nat (n + J) + (d - 53 - Z.of_nat n)) with d by lia.
  rewrite (fexp_small d Hd1).
  replace (d - 53 - (d - 53 - Z.of_nat n)) with (Z.of_nat n) by lia.
  rewrite shr_nat, shr_exact. cbn [shr_m loc_of_shr_record round_nearest_even Zdigits2].
  rewrite shl_digits. fold d.
  replace (d + Z.of_nat J + (d - 53 - Z.of_nat n + Z.of_nat n)) with d by lia.
  rewrite (fexp_small d Hd1).
  replace (d - 53 - (d - 53 - Z.of_nat n + Z.of_nat n)) with (Z.of_nat 0) by lia.
  rewrite shr_nat. cbn [Nat.iter shr_m].
  replace (d - 53 - Z.of_nat n + Z.of_nat n + Z.of_nat 0) with (d - 53) by lia.
  assert ((d - 53 <=? 1024 - 53) = true) as -> by lia.
  done.
Qed.

Lemma binary_round_exact (q : positive) (K : nat) :
  let d := Zpos (digits2_pos q) in
  d <= 53 ->
  binary_round 53 1024 false (shl K q) (- Z.of_nat K)
  = S754_finite false (shl (Z.to_nat (53 - d)) q) (d - 53).
Proof.
  intros d Hd.
  assert (1 <= d) as Hd1 by (unfold d; lia).
  set (J := Z.to_nat (53 - d)).
  assert (Z.of_nat J = 53 - d) as HJ by (unfold J; lia).
  unfold binary_round. rewrite shl_digits. fold d.
  replace (d + Z.of_nat K + - Z.of_nat K) with d by lia.
  rewrite (fexp_small d Hd1). unfold shl_align.
  destruct (d - 53 - - Z.of_nat K) as [|p|p] eqn:E.
  - assert (K = (0 + J)%nat) as -> by lia.
    replace (- Z.of_nat (0 + J)) with (d - 53 - Z.of_nat 0) by lia.
    apply (binary_round_aux_exact q 0 Hd).
  - assert (K = (Pos.to_nat p + J)%nat) as -> by lia.
    replace (- Z.of_nat (Pos.to_nat p + J)) with (d - 53 - Z.of_nat (Pos.to_nat p)) by lia.
    apply (binary_round_aux_exact q _ Hd).
  - rewrite Pos_iter_nat. fold (shl (Pos.to_nat p) (shl K q)). rewrite shl_add.
    assert ((Pos.to_nat p + K)%nat = (0 + J)%nat) as -> by lia.
    replace (d - 53) with (d - 53 - Z.of_nat 0) at 1 by lia.
    apply (binary_round_aux_exact q 0 Hd).
Qed.

Lemma ofZ_pos q :
  Zpos q < 2 ^ 53 ->
  JSNumber.ofZ (Zpos q)
  = S754_finite false (shl (Z.to_nat (53 - Zpos (digits2_pos q))) q)
                (Zpos (digits2_pos q) - 53).
Proof. intros H. apply (binary_round_exact q 0). by apply digits_le_53. Qed.

Lemma shl_align_fst q (j : nat) e ez :
  ez <= e -> fst (shl_align (shl j q) e ez) = shl (Z.to_nat (e - ez) + j) q.
Proof.
  intros H. unfold shl_align. destruct (ez - e) as [|p|p] eqn:E; cbn [fst].
  - by replace (e - ez) with 0 by lia.
  - lia.
  - rewrite Pos_iter_nat. fold (shl (Pos.to_nat p) (shl j q)). rewrite shl_add.
    replace (e - ez) with (Zpos p) by lia. by rewrite Z2Nat.inj_pos.
Qed.

Lemma shl_plus k a b : (shl k a + shl k b)%positive = shl k (a + b).
Proof. induction k as [|k IH]; [done|]. unfold shl in *. simpl Nat.iter. by rewrite <- IH. Qed.

(** Numbers that are whole and not negative add without rounding as
    long as the sum is below 2^53. *)
Lemma add_ofZ a b :
  0 <= a -> 0 <= b -> a + b < 2 ^ 53 ->
  JSNumber.add (JSNumber.ofZ a) (JSNumber.ofZ b) = JSNumber.ofZ (a + b).
Proof.
  intros Ha Hb Hab.
  destruct a as [|a|a]; [|clear Ha|lia].
  { destruct b as [|b|b]; [done| |lia]. rewrite Z.add_0_l. by rewrite ofZ_pos by lia. }
  destruct b as [|b|b]; [|clear Hb|lia].
  { rewrite Z.add_0_r. by rewrite ofZ_pos by lia. }
  rewrite <- Pos2Z.inj_add. rewrite !ofZ_pos by lia.
  pose proof (digits_le_53 a ltac:(lia)) as Da.
  pose proof (digits_le_53 b ltac:(lia)) as Db.
  pose proof (digits_le_53 (a + b) ltac:(lia)) as Dab.
  set (da := Zpos (digits2_pos a)) in *. set (db := Zpos (digits2_pos b)) in *.
  assert (1 <= da) by (unfold da; lia). assert (1 <= db) by (unfold db; lia).
  unfold JSNumber.add, SFadd. cbn [cond_Zopp].
  set (ez := Z.min (da - 53) (db - 53)).
  rewrite !shl_align_fst by lia.
  set (K := Z.to_nat (- ez)).
  replace (Z.to_nat (da - 53 - ez) + Z.to_nat (53 - da))%nat with K by lia.
  replace (Z.to_nat (db - 53 - ez) + Z.to_nat (53 - db))%nat with K by lia.
  rewrite <- Pos2Z.inj_add, shl_plus. unfold binary_normalize.
  replace ez with (- Z.of_nat K) by lia.
  exact (binary_round_exact (a + b) K Dab).
Qed.

(** The sum of whole cents. *)
Lemma foldl_add_ofZ {A} (amount : A -> JSNumber.number) (cents : A -> Z) (l : list A) :
  forall acc,
    Forall (fun e => 0 <= cents e /\ amount e = JSNumber.ofZ (cents e)) l ->
    0 <= acc ->
    acc + foldr Z.add 0 (map cents l) < 2 ^ 53 ->
    foldl (fun sum e => JSNumber.add sum (amount e)) (JSNumber.ofZ acc) l
    = JSNumber.ofZ (acc + foldr Z.add 0 (map cents l)).
Proof.
  induction l as [|e l IH]; intros acc Hl Hacc Hsum; simpl in *.
  { by rewrite Z.add_0_r. }
  apply Forall_cons in Hl as [[He Ha] Hl].
  assert (0 <= foldr Z.add 0 (map cents l)) as Hrest.
  { clear -Hl. induction Hl as [|x l [Hx _] _ IH]; simpl; lia. }
  rewrite Ha, add_ofZ by lia.
  rewrite IH by (done || lia). f_equal. lia.
Qed.

(** ** Category totals and expense statistics *)

Section ExpenseTotalsFacts.
Context {P : Platform}.

(** The sum that [calculateCategoryTotals] keeps under one key. *)
Lemma foldl_addToKey_lookup (c : string) es :
  forall (totals : gmap string JSNumber.number) z,
    totals !! c = Some z ->
    foldl (fun totals e => addToKey totals (Expense.category e) (Expense.amountCents e))
          totals es !! c
    = Some (foldl (fun sum e => JSNumber.add sum (Expense.amountCents e)) z
                  (List.filter (fun e => String.eqb (Expense.category e) c) es)).
Proof.
  induction es as [|e es IH]; intros totals z Hz; [done|].
  simpl. destruct (String.eqb (Expense.category e) c) eqn:E.
  - apply String.eqb_eq in E. simpl. apply IH.
    unfold addToKey. rewrite E, lookup_insert_eq, Hz. done.
  - apply String.eqb_neq in E. apply IH.
    unfold addToKey. by rewrite lookup_insert_ne.
Qed.

Lemma initial_totals :
  Forall (fun c =>
            foldl (fun totals category => <[category := JSNumber.posZero]> totals)
                  (∅ : gmap string JSNumber.number) CATEGORIES.values !! c
            = Some JSNumber.posZero)
         CATEGORIES.values.
Proof. repeat constructor. Qed.

Lemma filter_none {A} (p : A -> bool) l :
  (forall x, In x l -> p x = false) -> List.filter p l = [].
Proof.
  induction l as [|x l IH]; intros H; [done|]. simpl.
  rewrite (H x) by by left. apply IH. intros y Hy. apply H. by right.
Qed.

(** C8. calculateCategoryTotals returns a mapping in which each of the
    five categories (fijos, ocio, comida, coche, extras) has a value:
    the sum, from 0, of amountCents over the expenses of that category
    among those that getFilteredExpenses shows (the ones that pass the
    category filter and the month filter), and 0 when there is none. *)
Theorem calculateCategoryTotals_sums (w : World) :
  let f := State.expenseFilters (state w) in
  let shown := JSArray.sort compareExpenses (List.filter (passes f) (expensesOf w)) in
  exists totals w',
    calculateCategoryTotals w = (Return totals, w') /\
    CATEGORIES.values = ["fijos"; "ocio"; "comida"; "coche"; "extras"] /\
    Forall (fun c =>
              totals !! c
              = Some (sumAmountCents
                        (List.filter (fun e => String.eqb (Expense.category e) c) shown)) /\
              ((forall e, In e shown -> Expense.category e <> c) ->
               totals !! c = Some JSNumber.posZero))
           CATEGORIES.values.
Proof.
  intros f shown.
  destruct (getFilteredExpenses_effect w) as (l' & h' & E & D & _).
  unfold calculateCategoryTotals, bind at 1. rewrite E.
  do 2 eexists. split; [reflexivity|]. split; [done|].
  simpl. fold f in D. rewrite D. fold shown.
  eapply Forall_impl; [apply initial_totals|].
  intros c Hc. simpl in Hc.
  pose proof (foldl_addToKey_lookup c shown _ _ Hc) as H.
  split; [exact H|].
  intros Hnone. rewrite H. rewrite filter_none; [done|].
  intros e He. apply String.eqb_neq. by apply Hnone.
Qed.

Lemma calculateExpenseStats_eq w :
  exists w' currentMonth,
    getCurrentMonth w = (Return currentMonth, w') /\
    currentMonth =
      String.app (JSString.ofInteger (Date_getFullYear (clockAt (tick w))))
        (String.app "-"
           (JSString.padStart0 2 (JSString.ofInteger (Date_getMonth (clockAt (tick w)) + 1)))) /\
    taskArrays w' = taskArrays w /\ expenseArrays w' = expenseArrays w /\
    state w' = state w /\ localStorage w' = localStorage w /\
    calculateExpenseStats w =
    (Return (ExpenseStats.mk
               (sumAmountCents (expensesOf w))
               (sumAmountCents
                  (List.filter (fun e => JSString.startsWith (Expense.dateISO e) currentMonth)
                               (expensesOf w)))),
     w').
Proof. do 2 eexists. repeat split. Qed.

Lemma sumOfCents_nonneg cents es : wholeCents cents es -> 0 <= sumOfCents cents es.
Proof.
  unfold sumOfCents. induction 1 as [|e es [He _] _ IH]; simpl; lia.
Qed.

Lemma sumOfCents_filter cents (p : Expense.t -> bool) es :
  wholeCents cents es -> sumOfCents cents (List.filter p es) <= sumOfCents cents es.
Proof.
  unfold sumOfCents. induction 1 as [|e es [He _] _ IH]; simpl; [lia|].
  destruct (p e); simpl; lia.
Qed.

(** The code's additions give the sum of the cents. *)
Lemma sumAmountCents_whole cents es :
  wholeCents cents es -> sumOfCents cents es < 2 ^ 53 ->
  sumAmountCents es = JSNumber.ofZ (sumOfCents cents es).
Proof.
  intros Hw Hs. unfold sumAmountCents.
  change JSNumber.posZero with (JSNumber.ofZ 0).
  by rewrite (foldl_add_ofZ Expense.amountCents cents es 0 Hw).
Qed.

(** C3. calculateExpenseStats returns the same record under any two
    settings of the expense filters.  Its total is the result of adding
    amountCents over the whole collection, from 0 and in the order of the
    collection, and its monthly that of adding over the expenses whose
    dateISO starts with the current month (YYYY-MM, from the clock),
    whatever the month filter is.  When the amounts are whole numbers of
    cents, none negative, that add up to less than 2^53, the additions do
    not round: total is the sum of all the cents and monthly the sum of
    the cents of the current month. *)
Theorem calculateExpenseStats_ignores_filters (w : World) (f1 f2 : Filters.t) :
  let w1 := withState (State.setExpenseFilters f1 (state w)) w in
  let w2 := withState (State.setExpenseFilters f2 (state w)) w in
  let now := clockAt (tick w) in
  let currentMonth :=
    String.app (JSString.ofInteger (Date_getFullYear now))
      (String.app "-" (JSString.padStart0 2 (JSString.ofInteger (Date_getMonth now + 1)))) in
  let ofMonth := fun e => JSString.startsWith (Expense.dateISO e) currentMonth in
  result calculateExpenseStats w1 = result calculateExpenseStats w2 /\
  result getCurrentMonth w1 = Some currentMonth /\
  result getCurrentMonth w2 = Some currentMonth /\
  result calculateExpenseStats w1 =
  Some (ExpenseStats.mk
          (sumAmountCents (expensesOf w))
          (sumAmountCents (List.filter ofMonth (expensesOf w)))) /\
  (forall cents : Expense.t -> Z,
     wholeCents cents (expensesOf w) ->
     sumOfCents cents (expensesOf w) < 2 ^ 53 ->
     result calculateExpenseStats w1 =
     Some (ExpenseStats.mk
             (JSNumber.ofZ (sumOfCents cents (expensesOf w)))
             (JSNumber.ofZ (sumOfCents cents (List.filter ofMonth (expensesOf w)))))).
Proof.
  intros w1 w2 now currentMonth ofMonth.
  assert (result calculateExpenseStats w1 =
          Some (ExpenseStats.mk
                  (sumAmountCents (expensesOf w))
                  (sumAmountCents (List.filter ofMonth (expensesOf w))))) as E by done.
  split; [done|]. split; [done|]. split; [done|]. split; [exact E|].
  intros cents Hw Hs. rewrite E.
  rewrite (sumAmountCents_whole cents _ Hw Hs).
  rewrite (sumAmountCents_whole cents (List.filter ofMonth (expensesOf w))).
  - done.
  - by apply Forall_filter_bool.
  - pose proof (sumOfCents_filter cents ofMonth _ Hw). lia.
Qed.
End ExpenseTotalsFacts.

Lemma calculateCategoryTotals_sums_witness :
  exists totals w',
    @calculateCategoryTotals TestHost.host Examples.storeInMarch = (Return totals, w') /\
    totals !! "comida" = Some (JSNumber.ofZ 4567) /\
    totals !! "extras" = Some JSNumber.posZero.
Proof.
  destruct (@calculateCategoryTotals_sums TestHost.host Examples.storeInMarch)
    as (totals & w' & E & _ & F).
  exists totals, w'. split; [exact E|].
  pose proof (proj1 (List.Forall_forall _ _) F) as H. split.
  - destruct (H "comida") as [Hsum _]; [simpl; tauto|].
    rewrite Hsum. by vm_compute.
  - destruct (H "extras") as [_ Hzero]; [simpl; tauto|].
    apply Hzero. vm_compute. intros e [<-|[]]. discriminate.
Defined.

Lemma calculateExpenseStats_ignores_filters_witness :
  result (@calculateExpenseStats TestHost.host) Examples.storeInMarch
  = Some (ExpenseStats.mk (JSNumber.ofZ 11067) (JSNumber.ofZ 4567)).
Proof.
  destruct (@calculateExpenseStats_ignores_filters TestHost.host Examples.store
              (Filters.mk "" "2024-03") (Filters.mk "coche" ""))
    as (_ & _ & _ & _ & H).
  etransitivity.
  - apply (H (fun e => if String.eqb (Expense.id e) "e1" then 4567 else 6500)).
    + repeat constructor; by vm_compute.
    + by vm_compute.
  - by vm_compute.
Defined.

(** ** Loading *)

Lemma bind_eq {A B} (c : M A) (k : A -> M B) w a w' :
  c w = (Return a, w') -> bind c k w = k a w'.
Proof. intros H. unfold bind. by rewrite H. Qed.

(** Projections of a world that was built from another one. *)
Ltac world_simpl :=
  cbn [taskArrays expenseArrays state localStorage idCount tick
       withTaskArrays withExpenseArrays withState withLocalStorage
       State.tasks State.expenses State.currentTab State.taskSearch State.expenseFilters
       State.setTasks State.setExpenses State.setTaskSearch State.setExpenseFilters
       fst snd] in *.

(** One step of a computation whose first action computes. *)
Ltac step := erewrite bind_eq by reflexivity; world_simpl.

Section LoadFacts.
Context {P : Platform}.
Hypothesis storage_accepts : forall m k v, storageAccepts m k v = true.

Lemma saveToStorage_accepted {A} `{Serializer A} key (data : list A) w :
  saveToStorage key data w
  = (Return tt, withLocalStorage (<[key := JSON_stringify data]> (localStorage w)) w).
Proof. unfold saveToStorage. by rewrite storage_accepts. Qed.

Lemma loadSampleTasks_effect w :
  exists w',
    loadSampleTasks w = (Return tt, w') /\
    isSampleTasks (tasksOf w') /\
    localStorage w' !! STORAGE_KEYS.TASKS = Some (JSON_stringify (tasksOf w')) /\
    localStorage w' !! STORAGE_KEYS.EXPENSES = localStorage w !! STORAGE_KEYS.EXPENSES /\
    expenseArrays w' = expenseArrays w /\
    State.expenses (state w') = State.expenses (state w).
Proof.
  unfold loadSampleTasks. do 8 step.
  rewrite saveToStorage_accepted. world_simpl.
  eexists. split; [reflexivity|].
  unfold tasksOf. world_simpl. rewrite deref_insert.
  split; [by repeat eexists|]. split; [apply lookup_insert_eq|].
  split; [by rewrite lookup_insert_ne|done].
Qed.

Lemma loadSampleExpenses_effect w :
  exists w',
    loadSampleExpenses w = (Return tt, w') /\
    isSampleExpenses (expensesOf w') /\
    localStorage w' !! STORAGE_KEYS.EXPENSES = Some (JSON_stringify (expensesOf w')) /\
    localStorage w' !! STORAGE_KEYS.TASKS = localStorage w !! STORAGE_KEYS.TASKS /\
    taskArrays w' = taskArrays w /\
    State.tasks (state w') = State.tasks (state w).
Proof.
  unfold loadSampleExpenses. do 9 step.
  rewrite saveToStorage_accepted. world_simpl.
  eexists. split; [reflexivity|].
  unfold expensesOf. world_simpl. rewrite deref_insert.
  split; [by repeat eexists|]. split; [apply lookup_insert_eq|].
  split; [by rewrite lookup_insert_ne|done].
Qed.

Lemma loadState_effect w ts es :
  fst (loadFromStorage (A := Task.t) STORAGE_KEYS.TASKS w) = Return ts ->
  fst (loadFromStorage (A := Expense.t) STORAGE_KEYS.EXPENSES w) = Return es ->
  exists w',
    loadState w = (Return tt, w') /\
    (if decide (ts = [])
     then isSampleTasks (tasksOf w') /\
          localStorage w' !! STORAGE_KEYS.TASKS = Some (JSON_stringify (tasksOf w'))
     else tasksOf w' = ts /\
          localStorage w' !! STORAGE_KEYS.TASKS = localStorage w !! STORAGE_KEYS.TASKS) /\
    (if decide (es = [])
     then isSampleExpenses (expensesOf w') /\
          localStorage w' !! STORAGE_KEYS.EXPENSES = Some (JSON_stringify (expensesOf w'))
     else expensesOf w' = es /\
          localStorage w' !! STORAGE_KEYS.EXPENSES
          = localStorage w !! STORAGE_KEYS.EXPENSES).
Proof.
  intros Hts Hes.
  unfold loadState.
  erewrite bind_eq.
  2:{ unfold loadFromStorage, gets in *. simpl in *. rewrite Hts. reflexivity. }
  do 2 step.
  erewrite bind_eq.
  2:{ unfold loadFromStorage, gets in *. simpl in *. rewrite Hes. reflexivity. }
  do 3 step.
  unfold tasksOf at 1. world_simpl. rewrite deref_insert.
  set (w3 := withState _ _).
  assert (tasksOf w3 = ts) as T3 by (unfold tasksOf, w3; world_simpl; apply deref_insert).
  assert (expensesOf w3 = es) as X3 by (unfold expensesOf, w3; world_simpl; apply deref_insert).
  assert (localStorage w3 = localStorage w) as L3 by done.
  clearbody w3.
  destruct ts as [|t ts]; simpl.
  - destruct (loadSampleTasks_effect w3) as (w4 & E4 & S4 & LT4 & LE4 & XA4 & XS4).
    rewrite (bind_eq _ _ _ _ _ E4). step.
    assert (expensesOf w4 = es) as X4 by (unfold expensesOf in *; by rewrite XA4, XS4).
    rewrite X4.
    destruct es as [|e es]; simpl.
    + destruct (loadSampleExpenses_effect w4) as (w5 & E5 & S5 & LE5 & LT5 & TA5 & TS5).
      exists w5. split; [done|].
      assert (tasksOf w5 = tasksOf w4) as T5 by (unfold tasksOf; by rewrite TA5, TS5).
      rewrite T5, LT5. done.
    + exists w4. split; [done|]. split; [done|]. split; [done|]. by rewrite LE4, L3.
  - do 2 step. rewrite X3.
    destruct es as [|e es]; simpl.
    + destruct (loadSampleExpenses_effect w3) as (w5 & E5 & S5 & LE5 & LT5 & TA5 & TS5).
      exists w5. split; [done|].
      assert (tasksOf w5 = tasksOf w3) as T5 by (unfold tasksOf; by rewrite TA5, TS5).
      rewrite T5, LT5, L3. done.
    + exists w3. split; [done|]. rewrite L3. done.
Qed.

Lemma loadFromStorage_empty {A} `{Serializer A} (key : string) w :
  localStorage w !! key = None \/
  (exists data, localStorage w !! key = Some data /\
     (data = "" \/ JSON_parse (A := A) data = None \/ JSON_parse (A := A) data = Some [])) ->
  loadFromStorage (A := A) key w = (Return [], w).
Proof.
  unfold loadFromStorage, gets. intros [->|(data & -> & Hd)]; [done|].
  destruct Hd as [->|[->| ->]]; [done| |]; by destruct (truthy data).
Qed.

(** C9. Loading reads both collections from storage; a collection that
    reads as empty (its key is absent, or holds the empty text, text
    that JSON.parse rejects, or an empty array) is replaced by the
    three sample records and written to storage at once, and a
    collection that reads as non-empty is kept and its stored text is
    left alone; when both read as empty the store ends with exactly
    three sample tasks and three sample expenses, both stored.  Storage
    accepts the writes. *)
Theorem loadState_seeds_empty_collections (w : World) ts es :
  fst (loadFromStorage (A := Task.t) STORAGE_KEYS.TASKS w) = Return ts ->
  fst (loadFromStorage (A := Expense.t) STORAGE_KEYS.EXPENSES w) = Return es ->
  (forall (key : string),
     localStorage w !! key = None \/
     (exists data, localStorage w !! key = Some data /\
        (data = "" \/ JSON_parse (A := Task.t) data = None \/
         JSON_parse (A := Task.t) data = Some [])) ->
     fst (loadFromStorage (A := Task.t) key w) = Return []) /\
  (forall (key : string),
     localStorage w !! key = None \/
     (exists data, localStorage w !! key = Some data /\
        (data = "" \/ JSON_parse (A := Expense.t) data = None \/
         JSON_parse (A := Expense.t) data = Some [])) ->
     fst (loadFromStorage (A := Expense.t) key w) = Return []) /\
  exists w',
    loadState w = (Return tt, w') /\
    (ts = [] ->
     isSampleTasks (tasksOf w') /\ length (tasksOf w') = 3%nat /\
     localStorage w' !! STORAGE_KEYS.TASKS = Some (JSON_stringify (tasksOf w'))) /\
    (ts <> [] ->
     tasksOf w' = ts /\
     localStorage w' !! STORAGE_KEYS.TASKS = localStorage w !! STORAGE_KEYS.TASKS) /\
    (es = [] ->
     isSampleExpenses (expensesOf w') /\ length (expensesOf w') = 3%nat /\
     localStorage w' !! STORAGE_KEYS.EXPENSES = Some (JSON_stringify (expensesOf w'))) /\
    (es <> [] ->
     expensesOf w' = es /\
     localStorage w' !! STORAGE_KEYS.EXPENSES = localStorage w !! STORAGE_KEYS.EXPENSES).
Proof.
  intros Hts Hes.
  split; [intros key Hk; by rewrite loadFromStorage_empty|].
  split; [intros key Hk; by rewrite loadFromStorage_empty|].
  destruct (loadState_effect w ts es Hts Hes) as (w' & E & HT & HE).
  exists w'. split; [done|].
  destruct (decide (ts = [])) as [Et|Et], (decide (es = [])) as [Ee|Ee].
  all: repeat split; try done; try tauto.
  all: try (destruct HT as [(? & ? & ? & ? & ? & ? & ->) _]; done).
  all: try (destruct HE as [(? & ? & ? & ? & ? & ? & ->) _]; done).
Qed.
End LoadFacts.

Lemma loadState_seeds_empty_collections_witness :
  exists w',
    @loadState TestHost.host Examples.store = (Return tt, w') /\
    length (tasksOf w') = 3%nat /\ length (expensesOf w') = 3%nat.
Proof.
  destruct (@loadState_seeds_empty_collections TestHost.host (fun _ _ _ => eq_refl)
              Examples.store [] [] eq_refl eq_refl)
    as (_ & _ & w' & E & HT & _ & HE & _).
  exists w'. split; [exact E|]. split.
  - by destruct (HT eq_refl) as (_ & ? & _).
  - by destruct (HE eq_refl) as (_ & ? & _).
Defined.


(** ** Effects of the rendering functions on the store *)

Section ViewEffects.
Context {P : Platform}.

Lemma saveToStorage_effect {A} `{Serializer A} key (data : list A) w :
  exists m,
    saveToStorage key data w = (Return tt, withLocalStorage m w) /\
    (forall k, k <> key -> m !! k = localStorage w !! k) /\
    (storageAccepts (localStorage w) key (JSON_stringify data) = true ->
     m !! key = Some (JSON_stringify data)).
Proof.
  unfold saveToStorage. destruct (storageAccepts _ _ _).
  - eexists. split; [reflexivity|]. split.
    + intros k Hk. by rewrite lookup_insert_ne.
    + intros _. apply lookup_insert_eq.
  - exists (localStorage w). split; [by destruct w|done].
Qed.

Lemma saveState_effect w :
  exists m,
    saveState w = (Return tt, withLocalStorage m w) /\
    ((forall m k v, storageAccepts m k v = true) ->
     m !! STORAGE_KEYS.TASKS = Some (JSON_stringify (tasksOf w)) /\
     m !! STORAGE_KEYS.EXPENSES = Some (JSON_stringify (expensesOf w))).
Proof.
  unfold saveState. step.
  destruct (saveToStorage_effect STORAGE_KEYS.TASKS (tasksOf w) w) as (m1 & E1 & K1 & S1).
  rewrite (bind_eq _ _ _ _ _ E1). step.
  destruct (saveToStorage_effect STORAGE_KEYS.EXPENSES
              (expensesOf (withLocalStorage m1 w)) (withLocalStorage m1 w))
    as (m2 & E2 & K2 & S2).
  rewrite E2. exists m2. split; [done|]. intros Hacc. world_simpl. split.
  - rewrite K2 by done. apply S1, Hacc.
  - apply S2, Hacc.
Qed.

Lemma renderTasks_tasks w :
  is_Some (taskArrays w !! State.tasks (state w)) ->
  exists h',
    renderTasks w = (Return tt, withTaskArrays h' w) /\
    is_Some (h' !! State.tasks (state w)) /\
    deref h' (State.tasks (state w)) =
    if searching w then tasksOf w else JSArray.sort compareTasks (tasksOf w).
Proof.
  intros Hwf. destruct (renderTasks_effect w) as (h' & E & K & Hsort & Hkeep).
  exists h'. split; [done|]. split; [by apply K|].
  unfold searching. destruct (truthy _).
  - unfold tasksOf, deref. by rewrite Hkeep.
  - rewrite Hsort by done. by apply deref_alter.
Qed.

Lemma getFilteredExpenses_expenses w :
  is_Some (expenseArrays w !! State.expenses (state w)) ->
  exists l' h',
    getFilteredExpenses w = (Return l', withExpenseArrays h' w) /\
    deref h' l' = JSArray.sort compareExpenses
                    (List.filter (passes (State.expenseFilters (state w))) (expensesOf w)) /\
    is_Some (h' !! State.expenses (state w)) /\
    deref h' (State.expenses (state w)) =
    if filtering w then expensesOf w else JSArray.sort compareExpenses (expensesOf w).
Proof.
  intros Hwf. destruct (getFilteredExpenses_effect w) as (l' & h' & E & D & K & F).
  exists l', h'. split; [done|]. split; [done|]. split; [by apply K|].
  unfold filtering. destruct (_ || _).
  - unfold expensesOf, deref. by rewrite F.
  - destruct F as [_ ->]. by apply deref_alter.
Qed.

Lemma renderExpenses_expenses w :
  is_Some (expenseArrays w !! State.expenses (state w)) ->
  exists h',
    renderExpenses w = (Return tt, withExpenseArrays h' w) /\
    is_Some (h' !! State.expenses (state w)) /\
    deref h' (State.expenses (state w)) =
    if filtering w then expensesOf w else JSArray.sort compareExpenses (expensesOf w).
Proof.
  intros Hwf. destruct (getFilteredExpenses_expenses w Hwf) as (l' & h' & E & _ & S & D).
  exists h'. unfold renderExpenses. by rewrite (bind_eq _ _ _ _ _ E).
Qed.

Lemma renderCategoryTotals_expenses w :
  is_Some (expenseArrays w !! State.expenses (state w)) ->
  exists h',
    renderCategoryTotals w = (Return tt, withExpenseArrays h' w) /\
    is_Some (h' !! State.expenses (state w)) /\
    deref h' (State.expenses (state w)) =
    if filtering w then expensesOf w else JSArray.sort compareExpenses (expensesOf w).
Proof.
  intros Hwf. destruct (getFilteredExpenses_expenses w Hwf) as (l' & h' & E & _ & S & D).
  exists h'. unfold renderCategoryTotals, calculateCategoryTotals.
  rewrite (bind_eq _ _ _ _ _ (bind_eq _ _ _ _ _ E)). done.
Qed.

(** What the three calls at the end of [addExpense], [deleteExpense]
    and [filterExpenses] do to the expense collection. *)
Lemma refreshExpenses_effect w :
  is_Some (expenseArrays w !! State.expenses (state w)) ->
  exists h' n,
    (renderExpenses ;; updateExpenseStats ;; renderCategoryTotals) w =
    (Return tt, mkWorld (taskArrays w) h' (state w) (localStorage w) (idCount w) n) /\
    is_Some (h' !! State.expenses (state w)) /\
    deref h' (State.expenses (state w)) =
    if filtering w then expensesOf w
    else JSArray.sort compareExpenses (JSArray.sort compareExpenses (expensesOf w)).
Proof.
  intros Hwf.
  destruct (renderExpenses_expenses w Hwf) as (h1 & E1 & S1 & D1).
  rewrite (bind_eq _ _ _ _ _ E1). step.
  set (w2 := mkWorld _ _ _ _ _ _).
  destruct (renderCategoryTotals_expenses w2 S1) as (h2 & E2 & S2 & D2).
  rewrite E2. exists h2, (S (tick w)). split; [done|]. split; [done|].
  unfold filtering, expensesOf, w2 in *. world_simpl.
  rewrite D2, D1. by destruct (_ || _).
Qed.
End ViewEffects.

(** ** Adding an expense *)

Section AddExpenseFacts.
Context {P : Platform}.

Lemma sort_sort_Permutation {A} (cmp : A -> A -> option Z) l :
  Permutation (JSArray.sort cmp (JSArray.sort cmp l)) l.
Proof. by rewrite !sort_Permutation. Qed.

(** C10. An amount that parseFloat does not read as a number is not
    rejected: with a date the host can read, addExpense returns
    without an exception, and the collection then holds a new record
    whose amountCents is NaN, next to the records it had; the record is
    the last one while an expense filter is set, and the text written
    to storage is that of the collection with the record at its end.
    "abc" is such an amount. *)
Theorem addExpense_stores_NaN (w : World) (description amount category date : string)
    (time : Z) :
  is_Some (expenseArrays w !! State.expenses (state w)) ->
  JSNumber.parseFloat amount = JSNumber.NaN ->
  Date_parse date = Some time ->
  let expense :=
    Expense.mk (idAt (idCount w)) (JSString.trim description) JSNumber.NaN category
               (JSString.splitHead "T" (Date_toISOString time)) in
  JSNumber.parseFloat "abc" = JSNumber.NaN /\
  exists w',
    addExpense description amount category date w = (Return tt, w') /\
    In expense (expensesOf w') /\
    Permutation (expensesOf w') (expensesOf w ++ [expense]) /\
    (filtering w = true -> expensesOf w' = expensesOf w ++ [expense]) /\
    ((forall m k v, storageAccepts m k v = true) ->
     localStorage w' !! STORAGE_KEYS.EXPENSES
     = Some (JSON_stringify (expensesOf w ++ [expense]))).
Proof.
  intros Hwf Hnan Hdate expense. split; [by vm_compute|].
  unfold addExpense. step.
  erewrite bind_eq; [|unfold dateToISO; rewrite Hdate; reflexivity].
  world_simpl. do 2 step.
  assert (eurosToCents amount = JSNumber.NaN) as -> by (unfold eurosToCents; by rewrite Hnan).
  fold expense.
  set (w1 := withExpenseArrays _ _).
  assert (expensesOf w1 = expensesOf w ++ [expense]) as X1.
  { unfold expensesOf, w1. world_simpl.
    by apply (deref_alter_Some (fun es => es ++ [expense])). }
  assert (is_Some (expenseArrays w1 !! State.expenses (state w1))) as S1.
  { unfold w1. world_simpl. by apply is_Some_alter. }
  destruct (saveState_effect w1) as (m & E2 & Hm).
  rewrite (bind_eq _ _ _ _ _ E2).
  destruct (refreshExpenses_effect (withLocalStorage m w1) S1) as (h' & n & E3 & S3 & D3).
  rewrite E3. set (w' := mkWorld _ _ _ _ _ _).
  exists w'. split; [reflexivity|].
  assert (filtering (withLocalStorage m w1) = filtering w) as F by done.
  assert (expensesOf (withLocalStorage m w1) = expensesOf w ++ [expense]) as X2 by done.
  rewrite F, X2 in D3.
  assert (expensesOf w' = deref h' (State.expenses (state (withLocalStorage m w1)))) as X3
    by reflexivity.
  assert (localStorage w' = m) as L3 by reflexivity.
  rewrite X3, L3, D3. clearbody w'.
  assert (Permutation
            (if filtering w then expensesOf w ++ [expense]
             else JSArray.sort compareExpenses
                    (JSArray.sort compareExpenses (expensesOf w ++ [expense])))
            (expensesOf w ++ [expense])) as Hperm.
  { destruct (filtering w); [done|apply sort_sort_Permutation]. }
  split.
  { eapply Permutation_in; [symmetry; exact Hperm|]. apply in_or_app. right. by left. }
  split; [exact Hperm|]. split.
  - by intros ->.
  - intros Hacc. destruct (Hm Hacc) as [_ Hx]. by rewrite Hx, X1.
Qed.
End AddExpenseFacts.

Lemma addExpense_stores_NaN_witness :
  exists w',
    @addExpense TestHost.host "Cena" "abc" "ocio" "2024-03-15" Examples.store = (Return tt, w') /\
    In (Expense.mk "id0" "Cena" JSNumber.NaN "ocio" "2024-03-15") (expensesOf w').
Proof.
  destruct (@addExpense_stores_NaN TestHost.host Examples.store "Cena" "abc" "ocio"
              "2024-03-15" 1710460800000)
    as (_ & w' & E & HIn & _).
  - by eexists.
  - by vm_compute.
  - by vm_compute.
  - by exists w'.
Defined.

(** ** The order of the task list *)

(** Boolean comparisons of integers, as propositions. *)
Ltac bool_to_Z :=
  repeat match goal with
  | H : (_ =? _) = true |- _ => apply Z.eqb_eq in H
  | H : (_ =? _) = false |- _ => apply Z.eqb_neq in H
  | H : (_ <? _) = true |- _ => apply Z.ltb_lt in H
  | H : (_ <? _) = false |- _ => apply Z.ltb_ge in H
  | H : (_ <=? _) = true |- _ => apply Z.leb_le in H
  | H : (_ <=? _) = false |- _ => apply Z.leb_gt in H
  end.

Lemma priorityOrder_inj p q r :
  priorityOrder p = Some r -> priorityOrder q = Some r -> p = q.
Proof.
  unfold priorityOrder. intros Hp Hq.
  destruct (String.eqb p PRIORITIES.ALTA) eqn:P1;
    [|destruct (String.eqb p PRIORITIES.MEDIA) eqn:P2;
      [|destruct (String.eqb p PRIORITIES.BAJA) eqn:P3; [|done]]];
  (destruct (String.eqb q PRIORITIES.ALTA) eqn:Q1;
    [|destruct (String.eqb q PRIORITIES.MEDIA) eqn:Q2;
      [|destruct (String.eqb q PRIORITIES.BAJA) eqn:Q3; [|done]]]);
  try congruence;
  repeat match goal with H : String.eqb _ _ = true |- _ => apply String.eqb_eq in H end;
  congruence.
Qed.

Section TaskOrderFacts.
Context {P : Platform}.

(** The comparison function on tasks with known priorities, by keys. *)
Lemma after_compareTasks a b :
  knownPriority a -> knownPriority b ->
  JSArray.after compareTasks a b =
  if Bool.eqb (Task.done a) (Task.done b) then
    if rank a =? rank b then 0 <? localeCompare (Task.text a) (Task.text b)
    else rank a <? rank b
  else Task.done a.
Proof.
  intros [ra Ha] [rb Hb]. unfold JSArray.after, compareTasks, rank. rewrite Ha, Hb. simpl.
  destruct (Bool.eqb (Task.done a) (Task.done b)); simpl; [|by destruct (Task.done a)].
  destruct (String.eqb (Task.priority a) (Task.priority b)) eqn:Ep; simpl.
  - apply String.eqb_eq in Ep. rewrite Ep in Ha. rewrite Ha in Hb. injection Hb as ->.
    by rewrite Z.eqb_refl.
  - apply String.eqb_neq in Ep.
    destruct (ra =? rb) eqn:Er.
    + apply Z.eqb_eq in Er. subst rb. destruct Ep. by apply (priorityOrder_inj _ _ ra).
    + destruct (ra <? rb) eqn:E; bool_to_Z; [apply Z.ltb_lt|apply Z.ltb_ge]; lia.
Qed.

Hypothesis collation : JSArray.consistent collate.

Lemma collate_asym s t : 0 < localeCompare s t -> localeCompare t s <= 0.
Proof.
  destruct collation as (Hasym & _). intros H.
  specialize (Hasym s t I I). unfold JSArray.after, collate in Hasym.
  apply Z.ltb_ge, Hasym. by apply Z.ltb_lt.
Qed.

Lemma collate_trans s t u :
  0 < localeCompare s t -> 0 < localeCompare t u -> 0 < localeCompare s u.
Proof.
  destruct collation as (_ & Htrans & _). intros H1 H2.
  specialize (Htrans s t u I I I). unfold JSArray.after, collate in Htrans.
  apply Z.ltb_lt, Htrans; by apply Z.ltb_lt.
Qed.

Lemma collate_ties s t u :
  localeCompare s t <= 0 -> localeCompare t s <= 0 ->
  localeCompare t u <= 0 -> localeCompare u t <= 0 ->
  localeCompare s u <= 0 /\ localeCompare u s <= 0.
Proof.
  destruct collation as (_ & _ & Hties). intros H1 H2 H3 H4.
  specialize (Hties s t u I I I). unfold JSArray.tied, JSArray.after, collate in Hties.
  rewrite !andb_true_iff, !negb_true_iff, !Z.ltb_ge in Hties. tauto.
Qed.

Lemma compareTasks_consistent : JSArray.consistentOn compareTasks knownPriority.
Proof.
  split; [|split].
  - intros a b Ka Kb.
    rewrite (after_compareTasks a b), (after_compareTasks b a) by done.
    destruct (Task.done a), (Task.done b); simpl; try done.
    all: destruct (rank a =? rank b) eqn:E1, (rank b =? rank a) eqn:E2; bool_to_Z; try lia.
    all: rewrite ?Z.ltb_lt, ?Z.ltb_ge; try lia.
    all: apply collate_asym.
  - intros a b c Ka Kb Kc.
    rewrite (after_compareTasks a b), (after_compareTasks b c), (after_compareTasks a c)
      by done.
    destruct (Task.done a), (Task.done b), (Task.done c); simpl; try done.
    all: destruct (rank a =? rank b) eqn:E1, (rank b =? rank c) eqn:E2,
           (rank a =? rank c) eqn:E3; bool_to_Z; try lia.
    all: rewrite ?Z.ltb_lt, ?Z.ltb_ge; try lia.
    all: apply collate_trans.
  - intros a b c Ka Kb Kc. unfold JSArray.tied.
    rewrite (after_compareTasks a b), (after_compareTasks b c), (after_compareTasks a c),
      (after_compareTasks b a), (after_compareTasks c b), (after_compareTasks c a) by done.
    destruct (Task.done a), (Task.done b), (Task.done c); simpl; try done.
    all: rewrite (Z.eqb_sym (rank b) (rank a)), (Z.eqb_sym (rank c) (rank b)),
           (Z.eqb_sym (rank c) (rank a)).
    all: destruct (rank a =? rank b) eqn:E1, (rank b =? rank c) eqn:E2,
           (rank a =? rank c) eqn:E3; bool_to_Z; try lia.
    all: rewrite ?andb_true_iff, ?negb_true_iff, ?Z.ltb_ge; try lia.
    all: intros [H1 H2] [H3 H4]; by apply (collate_ties _ (Task.text b)).
Qed.

Lemma mayPrecede_taskOrder a b :
  knownPriority a -> knownPriority b ->
  JSArray.mayPrecede compareTasks a b <-> taskOrder a b.
Proof.
  intros Ka Kb. unfold JSArray.mayPrecede, taskOrder.
  rewrite (after_compareTasks a b) by done.
  destruct (Task.done a), (Task.done b); simpl.
  all: destruct (rank a =? rank b) eqn:E1; bool_to_Z.
  all: rewrite ?Z.ltb_ge; intuition (try congruence; try lia).
Qed.

Lemma tied_sameKeys a b :
  knownPriority a -> knownPriority b -> JSArray.tied compareTasks a b = sameKeys a b.
Proof.
  intros Ka Kb. unfold JSArray.tied, sameKeys.
  rewrite (after_compareTasks a b), (after_compareTasks b a) by done.
  rewrite (Z.eqb_sym (rank b) (rank a)).
  destruct (Task.done a), (Task.done b); simpl; try done.
  all: destruct (rank a =? rank b) eqn:E1; simpl.
  all: try (destruct (rank a <? rank b) eqn:E2, (rank b <? rank a) eqn:E3;
            bool_to_Z; simpl; try done; lia).
  all: f_equal; destruct (_ <? _) eqn:E2, (_ <=? _) eqn:E3; bool_to_Z; simpl; try done; lia.
Qed.

Lemma sortTasks_deref tasks w :
  sortTasks tasks w
  = (Return tasks, withTaskArrays (alter (JSArray.sort compareTasks) tasks (taskArrays w)) w) /\
  deref (alter (JSArray.sort compareTasks) tasks (taskArrays w)) tasks
  = JSArray.sort compareTasks (deref (taskArrays w) tasks).
Proof. split; [done|]. by apply deref_alter. Qed.

(** C5. sortTasks leaves in the array the same tasks in the order
    "pending before done; then the higher priority rank (alta 3, media 2,
    baja 1) first; then by collation of the text", tasks of equal keys in
    the order they had; that order is total and transitive.  For
    A (pending, alta), B (pending, media) and C (done, alta), in whatever
    order they come, the result is [A, B, C].  The tasks have one of the
    three priorities, and the collation is a consistent comparison. *)
Theorem sortTasks_total_order (w : World) (tasks : loc) :
  Forall knownPriority (deref (taskArrays w) tasks) ->
  exists w',
    sortTasks tasks w = (Return tasks, w') /\
    let before := deref (taskArrays w) tasks in
    let sorted := deref (taskArrays w') tasks in
    Permutation sorted before /\
    StronglySorted taskOrder sorted /\
    (forall a, knownPriority a ->
       List.filter (sameKeys a) sorted = List.filter (sameKeys a) before) /\
    (forall a b, knownPriority a -> knownPriority b -> taskOrder a b \/ taskOrder b a) /\
    (forall a b c, knownPriority a -> knownPriority b -> knownPriority c ->
       taskOrder a b -> taskOrder b c -> taskOrder a c) /\
    (forall A B C,
       Task.done A = false -> Task.priority A = "alta" ->
       Task.done B = false -> Task.priority B = "media" ->
       Task.done C = true -> Task.priority C = "alta" ->
       In before [[A; B; C]; [A; C; B]; [B; A; C]; [B; C; A]; [C; A; B]; [C; B; A]] ->
       sorted = [A; B; C]).
Proof.
  intros Hknown. destruct (sortTasks_deref tasks w) as [E D].
  eexists. split; [exact E|]. simpl. rewrite D.
  set (before := deref (taskArrays w) tasks) in *.
  pose proof (sort_Permutation compareTasks before) as Hperm.
  assert (Forall knownPriority (JSArray.sort compareTasks before)) as Hs.
  { eapply Permutation_Forall; [symmetry; exact Hperm|done]. }
  split; [done|]. split; [|split; [|split; [|split]]].
  - apply (StronglySorted_impl (JSArray.mayPrecede compareTasks) taskOrder knownPriority);
      [|done|].
    + intros a b Ka Kb. by apply mayPrecede_taskOrder.
    + by apply (sort_StronglySorted compareTasks knownPriority compareTasks_consistent).
  - intros a Ka.
    rewrite <- (List.filter_ext_in (JSArray.tied compareTasks a)).
    2:{ intros e He. apply tied_sameKeys; [done|].
        rewrite Forall_forall in Hs. apply Hs. by apply list_elem_of_In. }
    rewrite <- (List.filter_ext_in (JSArray.tied compareTasks a) (sameKeys a) before).
    2:{ intros e He. apply tied_sameKeys; [done|].
        rewrite Forall_forall in Hknown. apply Hknown. by apply list_elem_of_In. }
    by apply (sort_stable compareTasks knownPriority compareTasks_consistent).
  - intros a b Ka Kb. rewrite <- !mayPrecede_taskOrder by done.
    unfold JSArray.mayPrecede. destruct (JSArray.after compareTasks a b) eqn:Hab; [|by left].
    right. destruct compareTasks_consistent as (Hasym & _). by apply Hasym.
  - intros a b c Ka Kb Kc. rewrite <- !mayPrecede_taskOrder by done.
    by apply (mayPrecede_trans compareTasks knownPriority compareTasks_consistent).
  - intros A B C dA pA dB pB dC pC Hin.
    assert (knownPriority A) as KA by (unfold knownPriority; rewrite pA; by eexists).
    assert (knownPriority B) as KB by (unfold knownPriority; rewrite pB; by eexists).
    assert (knownPriority C) as KC by (unfold knownPriority; rewrite pC; by eexists).
    assert (rank A = 3 /\ rank B = 2 /\ rank C = 3) as (rA & rB & rC).
    { unfold rank. by rewrite pA, pB, pC. }
    assert (JSArray.after compareTasks A B = false) as AB
      by (rewrite after_compareTasks by done; by rewrite dA, dB, rA, rB).
    assert (JSArray.after compareTasks B A = true) as BA
      by (rewrite after_compareTasks by done; by rewrite dA, dB, rA, rB).
    assert (JSArray.after compareTasks A C = false) as AC
      by (rewrite after_compareTasks by done; by rewrite dA, dC).
    assert (JSArray.after compareTasks C A = true) as CA
      by (rewrite after_compareTasks by done; by rewrite dA, dC).
    assert (JSArray.after compareTasks B C = false) as BC
      by (rewrite after_compareTasks by done; by rewrite dB, dC).
    assert (JSArray.after compareTasks C B = true) as CB
      by (rewrite after_compareTasks by done; by rewrite dB, dC).
    clearbody before. simpl in Hin.
    destruct Hin as [<-|[<-|[<-|[<-|[<-|[<-|[]]]]]]]; unfold JSArray.sort;
      repeat (progress (simpl; rewrite ?AB, ?BA, ?AC, ?CA, ?BC, ?CB)); done.
Qed.
End TaskOrderFacts.

Lemma string_lt_irrefl a : ~ String_as_OT.lt a a.
Proof. apply (@StrictOrder_Irreflexive _ _ String_as_OT.lt_strorder). Qed.

Lemma string_lt_trans a b c :
  String_as_OT.lt a b -> String_as_OT.lt b c -> String_as_OT.lt a c.
Proof. apply (@StrictOrder_Transitive _ _ String_as_OT.lt_strorder). Qed.

Lemma host_collation : JSArray.consistent (@collate TestHost.host).
Proof.
  assert (forall a b, JSArray.after (@collate TestHost.host) a b = true
                      <-> String_as_OT.lt b a) as Hafter.
  { intros a b. unfold JSArray.after, collate. simpl. unfold TestHost.compareStrings.
    destruct (String_as_OT.compare_spec a b) as [->|Hlt|Hlt]; simpl.
    - split; [done|]. intros H. by apply string_lt_irrefl in H.
    - split; [done|]. intros H. exfalso.
      apply (string_lt_irrefl a). by apply (string_lt_trans a b a).
    - done. }
  assert (forall a b, JSArray.tied (@collate TestHost.host) a b = true -> a = b) as Htied.
  { intros a b. unfold JSArray.tied, JSArray.after, collate. simpl.
    unfold TestHost.compareStrings.
    destruct (String_as_OT.compare_spec a b) as [->|Hlt|Hlt]; simpl; try done.
    destruct (String_as_OT.compare_spec b a) as [->|Hlt'|Hlt']; simpl; try done.
    exfalso. apply (string_lt_irrefl a). by apply (string_lt_trans a b a). }
  split; [|split].
  - intros a b _ _ H. destruct (JSArray.after collate b a) eqn:E; [|done].
    apply Hafter in H, E. exfalso.
    apply (string_lt_irrefl a). by apply (string_lt_trans a b a).
  - intros a b c _ _ _ H1 H2. apply Hafter in H1, H2. apply Hafter.
    by apply (string_lt_trans c b a).
  - intros a b c _ _ _ H1 H2. by rewrite (Htied a b H1).
Qed.

Lemma sortTasks_total_order_witness :
  exists w',
    @sortTasks TestHost.host 0%nat Examples.store = (Return 0%nat, w') /\
    deref (taskArrays w') 0%nat = [Examples.gym; Examples.report].
Proof.
  destruct (@sortTasks_total_order TestHost.host host_collation Examples.store 0%nat)
    as (w' & E & _).
  - repeat constructor; by eexists.
  - exists w'. split; [exact E|]. injection E as <-. by vm_compute.
Defined.


(** ** Operations on an id that does not occur *)

Section AbsentIdFacts.
Context {P : Platform}.

Lemma filter_absent_task id (ts : list Task.t) :
  Forall (fun t => Task.id t <> id) ts ->
  List.filter (fun t => negb (String.eqb (Task.id t) id)) ts = ts.
Proof.
  induction 1 as [|t ts Ht _ IH]; [done|]. simpl.
  apply String.eqb_neq in Ht. rewrite Ht. simpl. by rewrite IH.
Qed.

Lemma filter_absent_expense id (es : list Expense.t) :
  Forall (fun e => Expense.id e <> id) es ->
  List.filter (fun e => negb (String.eqb (Expense.id e) id)) es = es.
Proof.
  induction 1 as [|e es He _ IH]; [done|]. simpl.
  apply String.eqb_neq in He. rewrite He. simpl. by rewrite IH.
Qed.

Lemma toggleTask_absent id w :
  Forall (fun t => Task.id t <> id) (tasksOf w) -> toggleTask id w = (Return tt, w).
Proof.
  intros Habsent. unfold toggleTask. do 2 step.
  assert (list_find (fun t => Task.id t = id) (deref (taskArrays w) (State.tasks (state w)))
          = None) as ->; [|done].
  apply list_find_None. exact Habsent.
Qed.

Lemma deleteTask_effect id w :
  exists w',
    deleteTask id w = (Return tt, w') /\
    tasksOf w' =
      (let kept := List.filter (fun t => negb (String.eqb (Task.id t) id)) (tasksOf w) in
       if searching w then kept else JSArray.sort compareTasks kept) /\
    expensesOf w' = expensesOf w /\
    filterStateOf w' = filterStateOf w.
Proof.
  unfold deleteTask. do 3 step.
  set (kept := List.filter _ (tasksOf w)).
  set (w1 := withState _ _).
  destruct (saveState_effect w1) as (m & E2 & _).
  rewrite (bind_eq _ _ _ _ _ E2).
  assert (is_Some (taskArrays (withLocalStorage m w1)
                     !! State.tasks (state (withLocalStorage m w1)))) as S2.
  { unfold w1. world_simpl. rewrite lookup_insert_eq. by eexists. }
  destruct (renderTasks_tasks _ S2) as (h' & E3 & S3 & D3).
  rewrite (bind_eq _ _ _ _ _ E3).
  eexists. split; [reflexivity|].
  split; [|done].
  assert (tasksOf (withLocalStorage m w1) = kept) as T2.
  { unfold tasksOf, w1. world_simpl. apply deref_insert. }
  rewrite T2 in D3. simpl. exact D3.
Qed.

Lemma deleteExpense_effect id w :
  exists w',
    deleteExpense id w = (Return tt, w') /\
    expensesOf w' =
      (let kept := List.filter (fun e => negb (String.eqb (Expense.id e) id)) (expensesOf w) in
       if filtering w then kept
       else JSArray.sort compareExpenses (JSArray.sort compareExpenses kept)) /\
    tasksOf w' = tasksOf w /\
    filterStateOf w' = filterStateOf w.
Proof.
  unfold deleteExpense. do 3 step.
  set (kept := List.filter _ (expensesOf w)).
  set (w1 := withState _ _).
  destruct (saveState_effect w1) as (m & E2 & _).
  rewrite (bind_eq _ _ _ _ _ E2).
  assert (is_Some (expenseArrays (withLocalStorage m w1)
                     !! State.expenses (state (withLocalStorage m w1)))) as S2.
  { unfold w1. world_simpl. rewrite lookup_insert_eq. by eexists. }
  destruct (refreshExpenses_effect _ S2) as (h' & n & E3 & S3 & D3).
  rewrite E3.
  eexists. split; [reflexivity|].
  split; [|done].
  assert (expensesOf (withLocalStorage m w1) = kept) as T2.
  { unfold expensesOf, w1. world_simpl. apply deref_insert. }
  rewrite T2 in D3. simpl. exact D3.
Qed.

(** Rendering leaves the collection in display order when no search text
    (no expense filter) is set, so that is the order every operation of
    the store leaves behind. *)
Lemma renderTasks_display_order w :
  JSArray.consistent collate ->
  is_Some (taskArrays w !! State.tasks (state w)) ->
  Forall knownPriority (tasksOf w) ->
  searching w = false ->
  StronglySorted (JSArray.mayPrecede compareTasks) (tasksOf (exec renderTasks w)).
Proof.
  intros Hcol Hwf Hknown Hsearch.
  destruct (renderTasks_tasks w Hwf) as (h' & E & _ & D).
  unfold exec. rewrite E. simpl.
  change (tasksOf (withTaskArrays h' w)) with (deref h' (State.tasks (state w))).
  rewrite D, Hsearch.
  by apply (sort_StronglySorted compareTasks knownPriority (compareTasks_consistent Hcol)).
Qed.

Lemma renderExpenses_display_order w :
  is_Some (expenseArrays w !! State.expenses (state w)) ->
  Forall validDate (expensesOf w) ->
  filtering w = false ->
  StronglySorted (JSArray.mayPrecede compareExpenses) (expensesOf (exec renderExpenses w)).
Proof.
  intros Hwf Hvalid Hfilter.
  destruct (renderExpenses_expenses w Hwf) as (h' & E & _ & D).
  unfold exec. rewrite E. simpl.
  change (expensesOf (withExpenseArrays h' w)) with (deref h' (State.expenses (state w))).
  rewrite D, Hfilter.
  by apply (sort_StronglySorted compareExpenses validDate compareExpenses_consistent).
Qed.

(** C2.  With an id that does not occur, toggleTask changes nothing at
    all, and deleteTask and deleteExpense raise no error and leave the
    collection exactly as it is, in every state in which the collection
    is in display order unless a search text (for tasks) or an expense
    filter (for expenses) is set: the states of the application, since
    initializeApp puts the collections in that order and every listener
    keeps them so (X17, X18).  The other collection and the filter state
    stay as they were.  What the two functions do to the collection in
    any state is stated as well: nothing while a search text or a filter
    is set, and the in-place sort of the rendering otherwise, of which a
    collection in display order is a fixed point. *)
Theorem absent_id_removes_nothing (w : World) (id : string) :
  (Forall (fun t => Task.id t <> id) (tasksOf w) ->
   toggleTask id w = (Return tt, w) /\
   exists w',
     deleteTask id w = (Return tt, w') /\
     (tasksInOrder w -> tasksOf w' = tasksOf w) /\
     Permutation (tasksOf w') (tasksOf w) /\
     tasksOf w' =
       (if searching w then tasksOf w else JSArray.sort compareTasks (tasksOf w)) /\
     expensesOf w' = expensesOf w /\
     filterStateOf w' = filterStateOf w) /\
  (Forall (fun e => Expense.id e <> id) (expensesOf w) ->
   exists w',
     deleteExpense id w = (Return tt, w') /\
     (expensesInOrder w -> expensesOf w' = expensesOf w) /\
     Permutation (expensesOf w') (expensesOf w) /\
     expensesOf w' =
       (if filtering w then expensesOf w
        else JSArray.sort compareExpenses
               (JSArray.sort compareExpenses (expensesOf w))) /\
     tasksOf w' = tasksOf w /\
     filterStateOf w' = filterStateOf w).
Proof.
  split.
  - intros Habsent. split; [by apply toggleTask_absent|].
    destruct (deleteTask_effect id w) as (w' & E & T & X & F).
    exists w'. split; [done|]. simpl in T.
    rewrite filter_absent_task in T by done. rewrite T.
    split; [|split; [destruct (searching w); [done|apply sort_Permutation]|done]].
    intros Hsorted. unfold tasksInOrder in Hsorted.
    destruct (searching w); [done|]. by apply sort_sorted_id, Hsorted.
  - intros Habsent.
    destruct (deleteExpense_effect id w) as (w' & E & X & T & F).
    exists w'. split; [done|]. simpl in X.
    rewrite filter_absent_expense in X by done. rewrite X.
    split; [|split; [destruct (filtering w); [done|apply sort_sort_Permutation]|done]].
    intros Hsorted. unfold expensesInOrder in Hsorted.
    destruct (filtering w); [done|]. by rewrite !(sort_sorted_id _ _ (Hsorted eq_refl)).
Qed.
End AbsentIdFacts.

(** The display order is needed: in a store set up by hand with its
    tasks out of display order and no search text, a state the
    application does not reach, deleteTask with an id that does not
    occur leaves the two tasks in the other order. *)
Lemma deleteTask_absent_id_reorders :
  Forall (fun t => Task.id t <> "nope") (tasksOf Examples.store) /\
  tasksOf Examples.store = [Examples.report; Examples.gym] /\
  tasksOf (exec (@deleteTask TestHost.host "nope") Examples.store)
  = [Examples.gym; Examples.report] /\
  tasksOf (exec (@deleteTask TestHost.host "nope") Examples.store)
  <> tasksOf Examples.store.
Proof.
  split; [by repeat constructor|]. split; [done|].
  assert (tasksOf (exec (@deleteTask TestHost.host "nope") Examples.store)
          = [Examples.gym; Examples.report]) as E by by vm_compute.
  split; [exact E|]. rewrite E. discriminate.
Qed.

Lemma absent_id_removes_nothing_witness :
  @toggleTask TestHost.host "nope" orderedStore = (Return tt, orderedStore) /\
  (exists w',
     @deleteTask TestHost.host "nope" orderedStore = (Return tt, w') /\
     tasksOf w' = tasksOf orderedStore) /\
  (exists w',
     @deleteExpense TestHost.host "nope" orderedStore = (Return tt, w') /\
     expensesOf w' = expensesOf orderedStore).
Proof.
  destruct (@absent_id_removes_nothing TestHost.host orderedStore "nope") as [Ht He].
  destruct Ht as (Htoggle & w1 & E1 & Hsame1 & _); [by repeat constructor|].
  destruct He as (w2 & E2 & Hsame2 & _); [by repeat constructor|].
  split; [exact Htoggle|]. split.
  - exists w1. split; [exact E1|]. apply Hsame1. intros _. repeat constructor.
  - exists w2. split; [exact E2|]. apply Hsame2. intros _. repeat constructor.
Defined.


(** ** What the view functions do to the store *)

Section ViewPurityFacts.
Context {P : Platform}.

Lemma calculateCategoryTotals_expenses w :
  is_Some (expenseArrays w !! State.expenses (state w)) ->
  exists totals h',
    calculateCategoryTotals w = (Return totals, withExpenseArrays h' w) /\
    deref h' (State.expenses (state w)) =
    if filtering w then expensesOf w else JSArray.sort compareExpenses (expensesOf w).
Proof.
  intros Hwf. destruct (getFilteredExpenses_expenses w Hwf) as (l' & h' & E & _ & S & D).
  unfold calculateCategoryTotals. rewrite (bind_eq _ _ _ _ _ E).
  do 2 eexists. split; [reflexivity|done].
Qed.

Lemma if_sort_Permutation {A} (cmp : A -> A -> option Z) (b : bool) l :
  Permutation (if b then l else JSArray.sort cmp l) l.
Proof. destruct b; [done|apply sort_Permutation]. Qed.

(** C6, amended.  calculateTaskStats changes nothing, and
    calculateExpenseStats nothing but the clock it reads.  sortTasks
    sorts the array it is given in place and returns it, and leaves every
    other array and the state as they are.  renderTasks, getFilteredExpenses
    and calculateCategoryTotals never change the filter state or the other
    collection; while a search text (for tasks) or an expense filter (for
    expenses) is set they work on a new array and leave the collection as
    it is, and otherwise they sort the collection's own array in place,
    which keeps its records and may change their order. *)
Theorem view_functions_effect_on_store (w : World) :
  wellFormed w ->
  (exists stats, calculateTaskStats w = (Return stats, w)) /\
  (exists stats w',
     calculateExpenseStats w = (Return stats, w') /\
     taskArrays w' = taskArrays w /\ expenseArrays w' = expenseArrays w /\
     state w' = state w /\ localStorage w' = localStorage w) /\
  (forall tasks,
     exists w',
       sortTasks tasks w = (Return tasks, w') /\
       deref (taskArrays w') tasks = JSArray.sort compareTasks (deref (taskArrays w) tasks) /\
       (forall l, l <> tasks -> taskArrays w' !! l = taskArrays w !! l) /\
       expenseArrays w' = expenseArrays w /\ state w' = state w) /\
  (exists w',
     renderTasks w = (Return tt, w') /\
     tasksOf w' = (if searching w then tasksOf w else JSArray.sort compareTasks (tasksOf w)) /\
     Permutation (tasksOf w') (tasksOf w) /\
     expensesOf w' = expensesOf w /\ filterStateOf w' = filterStateOf w) /\
  (exists l' w',
     getFilteredExpenses w = (Return l', w') /\
     expensesOf w' =
       (if filtering w then expensesOf w else JSArray.sort compareExpenses (expensesOf w)) /\
     Permutation (expensesOf w') (expensesOf w) /\
     tasksOf w' = tasksOf w /\ filterStateOf w' = filterStateOf w) /\
  (exists totals w',
     calculateCategoryTotals w = (Return totals, w') /\
     expensesOf w' =
       (if filtering w then expensesOf w else JSArray.sort compareExpenses (expensesOf w)) /\
     Permutation (expensesOf w') (expensesOf w) /\
     tasksOf w' = tasksOf w /\ filterStateOf w' = filterStateOf w).
Proof.
  intros [Ht He].
  split; [by eexists|].
  split.
  { destruct (calculateExpenseStats_eq w) as (w' & cm & _ & _ & TA & EA & ST & LS & E).
    by do 2 eexists. }
  split.
  { intros tasks. destruct (sortTasks_deref tasks w) as [E D].
    eexists. split; [exact E|]. split; [exact D|]. split; [|done].
    intros l Hl. simpl. by rewrite lookup_alter_ne. }
  split.
  { destruct (renderTasks_tasks w Ht) as (h' & E & S & D).
    eexists. split; [exact E|].
    assert (tasksOf (withTaskArrays h' w) = deref h' (State.tasks (state w))) as -> by done.
    rewrite D. split; [done|]. split; [apply if_sort_Permutation|done]. }
  split.
  { destruct (getFilteredExpenses_expenses w He) as (l' & h' & E & _ & S & D).
    do 2 eexists. split; [exact E|].
    assert (expensesOf (withExpenseArrays h' w) = deref h' (State.expenses (state w))) as ->
      by done.
    rewrite D. split; [done|]. split; [apply if_sort_Permutation|done]. }
  destruct (calculateCategoryTotals_expenses w He) as (totals & h' & E & D).
  do 2 eexists. split; [exact E|].
  assert (expensesOf (withExpenseArrays h' w) = deref h' (State.expenses (state w))) as ->
    by done.
  rewrite D. split; [done|]. split; [apply if_sort_Permutation|done].
Qed.
End ViewPurityFacts.

(** C6, the claim as stated fails: sortTasks, given the task array of
    the example store, leaves the store's task collection in another
    order, and so does getFilteredExpenses with the expense collection
    when no filter is set. *)
Lemma sortTasks_mutates_its_argument :
  tasksOf Examples.store = [Examples.report; Examples.gym] /\
  tasksOf (exec (@sortTasks TestHost.host (State.tasks (state Examples.store)))
                Examples.store)
  = [Examples.gym; Examples.report] /\
  expensesOf Examples.store = [Examples.groceries; Examples.fuel] /\
  expensesOf (exec (@getFilteredExpenses TestHost.host) Examples.store)
  = [Examples.fuel; Examples.groceries] /\
  tasksOf (exec (@sortTasks TestHost.host (State.tasks (state Examples.store)))
                Examples.store)
  <> tasksOf Examples.store.
Proof.
  assert (tasksOf (exec (@sortTasks TestHost.host (State.tasks (state Examples.store)))
                        Examples.store)
          = [Examples.gym; Examples.report]) as E by by vm_compute.
  split; [done|]. split; [exact E|]. split; [done|]. split; [by vm_compute|].
  rewrite E. discriminate.
Qed.

Lemma view_functions_effect_on_store_witness :
  exists w',
    @renderTasks TestHost.host Examples.storeSearching = (Return tt, w') /\
    tasksOf w' = tasksOf Examples.storeSearching.
Proof.
  destruct (@view_functions_effect_on_store TestHost.host Examples.storeSearching)
    as (_ & _ & _ & (w' & E & T & _) & _).
  - split; by eexists.
  - exists w'. split; [exact E|exact T].
Defined.

(** * Further properties of the program *)

(** ** The end of every task operation *)

Lemma filter_length_Permutation {A} (f : A -> bool) (l l' : list A) :
  Permutation l l' -> length (List.filter f l) = length (List.filter f l').
Proof.
  induction 1 as [|x l l' _ IH|x y l|l l' l'' _ IH1 _ IH2]; simpl; try done.
  - destruct (f x); simpl; by rewrite IH.
  - by destruct (f x), (f y).
  - by rewrite IH1.
Qed.

Section TaskOperationFacts.
Context {P : Platform}.

(** [saveState(); renderTasks(); updateTaskStats()]: the collection is
    written to storage as it is, and then sorted in place unless a
    search text is set. *)
Lemma finishTaskOperation_effect w :
  is_Some (taskArrays w !! State.tasks (state w)) ->
  exists m h',
    (saveState ;; renderTasks ;; updateTaskStats) w
    = (Return tt, withTaskArrays h' (withLocalStorage m w)) /\
    is_Some (h' !! State.tasks (state w)) /\
    deref h' (State.tasks (state w)) =
      (if searching w then tasksOf w else JSArray.sort compareTasks (tasksOf w)) /\
    ((forall m k v, storageAccepts m k v = true) ->
     m !! STORAGE_KEYS.TASKS = Some (JSON_stringify (tasksOf w)) /\
     m !! STORAGE_KEYS.EXPENSES = Some (JSON_stringify (expensesOf w))).
Proof.
  intros Hwf.
  destruct (saveState_effect w) as (m & E1 & Hm).
  rewrite (bind_eq _ _ _ _ _ E1).
  destruct (renderTasks_tasks (withLocalStorage m w) Hwf) as (h' & E2 & S2 & D2).
  rewrite (bind_eq _ _ _ _ _ E2).
  exists m, h'. split; [reflexivity|]. split; [exact S2|]. split; [exact D2|exact Hm].
Qed.

Lemma calculateTaskStats_result w :
  result calculateTaskStats w
  = Some (TaskStats.mk (Z.of_nat (length (tasksOf w)))
            (Z.of_nat (length (List.filter Task.done (tasksOf w))))
            (Z.of_nat (length (tasksOf w))
             - Z.of_nat (length (List.filter Task.done (tasksOf w))))).
Proof. reflexivity. Qed.

Lemma addTask_effect w text priority :
  is_Some (taskArrays w !! State.tasks (state w)) ->
  let task :=
    Task.mk (idAt (idCount w)) (JSString.trim text) priority false
            (Date_toISOString (clockAt (tick w))) in
  exists w',
    addTask text priority w = (Return tt, w') /\
    tasksOf w' = (if searching w then tasksOf w ++ [task]
                  else JSArray.sort compareTasks (tasksOf w ++ [task])) /\
    expensesOf w' = expensesOf w /\
    filterStateOf w' = filterStateOf w /\
    ((forall m k v, storageAccepts m k v = true) ->
     localStorage w' !! STORAGE_KEYS.TASKS = Some (JSON_stringify (tasksOf w ++ [task]))).
Proof.
  intros Hwf task. unfold addTask. do 4 step. fold task.
  set (w1 := withTaskArrays _ _).
  assert (tasksOf w1 = tasksOf w ++ [task]) as T1.
  { unfold tasksOf, w1. world_simpl.
    by apply (deref_alter_Some (fun ts => ts ++ [task])). }
  assert (is_Some (taskArrays w1 !! State.tasks (state w1))) as S1.
  { unfold w1. world_simpl. by apply is_Some_alter. }
  destruct (finishTaskOperation_effect w1 S1) as (m & h' & E & S & D & Hm).
  rewrite E. set (w' := withTaskArrays h' _). exists w'. split; [reflexivity|].
  assert (tasksOf w' = deref h' (State.tasks (state w1))) as T' by reflexivity.
  assert (searching w1 = searching w) as Hs by reflexivity.
  rewrite T1, Hs in D. rewrite T', D.
  split; [done|]. split; [done|]. split; [done|].
  intros Hacc. destruct (Hm Hacc) as [Ht _]. by rewrite T1 in Ht.
Qed.

(** X1.  [addTask] puts one pending task with the trimmed text into the
    collection and changes nothing else of the store. *)
Theorem addTask_adds_one_pending_task (w : World) (text priority : string) :
  is_Some (taskArrays w !! State.tasks (state w)) ->
  let task :=
    Task.mk (idAt (idCount w)) (JSString.trim text) priority false
            (Date_toISOString (clockAt (tick w))) in
  exists w',
    addTask text priority w = (Return tt, w') /\
    tasksOf w' = (if searching w then tasksOf w ++ [task]
                  else JSArray.sort compareTasks (tasksOf w ++ [task])) /\
    Permutation (tasksOf w') (tasksOf w ++ [task]) /\
    expensesOf w' = expensesOf w /\
    filterStateOf w' = filterStateOf w /\
    (forall stats,
       result calculateTaskStats w = Some stats ->
       result calculateTaskStats w'
       = Some (TaskStats.mk (TaskStats.total stats + 1) (TaskStats.completed stats)
                            (TaskStats.pending stats + 1))) /\
    ((forall m k v, storageAccepts m k v = true) ->
     localStorage w' !! STORAGE_KEYS.TASKS = Some (JSON_stringify (tasksOf w ++ [task]))).
Proof.
  intros Hwf task.
  destruct (addTask_effect w text priority Hwf) as (w' & E & T & X & F & Hm).
  fold task in T, Hm.
  exists w'. split; [exact E|]. split; [exact T|].
  assert (Permutation (tasksOf w') (tasksOf w ++ [task])) as Hperm
    by (rewrite T; apply if_sort_Permutation).
  split; [exact Hperm|]. split; [exact X|]. split; [exact F|]. split; [|exact Hm].
  intros stats Hstats. rewrite calculateTaskStats_result in *. injection Hstats as <-.
  simpl. f_equal.
  rewrite (Permutation_length Hperm), (filter_length_Permutation Task.done _ _ Hperm).
  rewrite length_app, List.filter_app, length_app. simpl. f_equal; lia.
Qed.

Lemma completed_alter (l : list Task.t) i t :
  l !! i = Some t ->
  Z.of_nat (length (List.filter Task.done (alter (Task.setDone (negb (Task.done t))) i l)))
  = Z.of_nat (length (List.filter Task.done l)) + (if Task.done t then -1 else 1).
Proof.
  revert i. induction l as [|x l IH]; intros [|i] Hi; simpl in *; try done.
  - injection Hi as ->. destruct (Task.done t); simpl; lia.
  - specialize (IH i Hi). change (list_alter ?f i l) with (alter f i l).
    destruct (Task.done x); simpl; lia.
Qed.

Lemma Permutation_alter_In (l : list Task.t) i t (f : Task.t -> Task.t) :
  l !! i = Some t -> In (f t) (alter f i l).
Proof.
  revert i. induction l as [|x l IH]; intros [|i] Hi; simpl in *; try done.
  - injection Hi as ->. by left.
  - right. by apply IH.
Qed.

Lemma toggleTask_found w id i task :
  list_find (fun t => Task.id t = id) (tasksOf w) = Some (i, task) ->
  let toggled := alter (Task.setDone (negb (Task.done task))) i (tasksOf w) in
  exists w',
    toggleTask id w = (Return tt, w') /\
    tasksOf w' = (if searching w then toggled else JSArray.sort compareTasks toggled) /\
    expensesOf w' = expensesOf w /\
    filterStateOf w' = filterStateOf w /\
    ((forall m k v, storageAccepts m k v = true) ->
     localStorage w' !! STORAGE_KEYS.TASKS = Some (JSON_stringify toggled)).
Proof.
  intros Hfind toggled.
  assert (is_Some (taskArrays w !! State.tasks (state w))) as Hwf.
  { unfold tasksOf, deref in Hfind.
    destruct (taskArrays w !! State.tasks (state w)); [by eexists|done]. }
  unfold toggleTask. do 2 step.
  change (deref (taskArrays w) (State.tasks (state w))) with (tasksOf w).
  rewrite Hfind. step.
  set (w1 := withTaskArrays _ _).
  assert (tasksOf w1 = toggled) as T1.
  { unfold tasksOf, w1. world_simpl.
    by apply (deref_alter_Some (alter (Task.setDone (negb (Task.done task))) i)). }
  assert (is_Some (taskArrays w1 !! State.tasks (state w1))) as S1.
  { unfold w1. world_simpl. by apply is_Some_alter. }
  destruct (finishTaskOperation_effect w1 S1) as (m & h' & E & S & D & Hm).
  rewrite E. set (w' := withTaskArrays h' _). exists w'. split; [reflexivity|].
  assert (tasksOf w' = deref h' (State.tasks (state w1))) as T' by reflexivity.
  assert (searching w1 = searching w) as Hs by reflexivity.
  rewrite T1, Hs in D. rewrite T', D.
  split; [done|]. split; [done|]. split; [done|].
  intros Hacc. destruct (Hm Hacc) as [Ht _]. by rewrite T1 in Ht.
Qed.

(** X2.  [toggleTask] on an id that occurs flips the done flag of the first
    task with that id; the number of tasks stays, and the number of
    completed ones moves by one. *)
Theorem toggleTask_flips_first_match (w : World) (id : string) (i : nat) (task : Task.t) :
  list_find (fun t => Task.id t = id) (tasksOf w) = Some (i, task) ->
  let toggled := alter (Task.setDone (negb (Task.done task))) i (tasksOf w) in
  exists w',
    toggleTask id w = (Return tt, w') /\
    tasksOf w' = (if searching w then toggled else JSArray.sort compareTasks toggled) /\
    In (Task.setDone (negb (Task.done task)) task) (tasksOf w') /\
    length (tasksOf w') = length (tasksOf w) /\
    expensesOf w' = expensesOf w /\
    filterStateOf w' = filterStateOf w /\
    (forall stats,
       result calculateTaskStats w = Some stats ->
       result calculateTaskStats w'
       = Some (if Task.done task
               then TaskStats.mk (TaskStats.total stats) (TaskStats.completed stats - 1)
                                 (TaskStats.pending stats + 1)
               else TaskStats.mk (TaskStats.total stats) (TaskStats.completed stats + 1)
                                 (TaskStats.pending stats - 1))) /\
    ((forall m k v, storageAccepts m k v = true) ->
     localStorage w' !! STORAGE_KEYS.TASKS = Some (JSON_stringify toggled)).
Proof.
  intros Hfind toggled.
  pose proof (proj1 (list_find_Some _ _ _ _) Hfind) as (Hi & _ & _).
  destruct (toggleTask_found w id i task Hfind) as (w' & E & T & X & F & Hm).
  fold toggled in T, Hm.
  exists w'. split; [exact E|]. split; [exact T|].
  assert (Permutation (tasksOf w') toggled) as Hperm
    by (rewrite T; apply if_sort_Permutation).
  split.
  { eapply Permutation_in; [symmetry; exact Hperm|]. by apply Permutation_alter_In. }
  split.
  { rewrite (Permutation_length Hperm). unfold toggled. apply length_alter. }
  split; [exact X|]. split; [exact F|]. split; [|exact Hm].
  intros stats Hstats. rewrite calculateTaskStats_result in *. injection Hstats as <-.
  simpl.
  rewrite (Permutation_length Hperm), (filter_length_Permutation Task.done _ _ Hperm).
  unfold toggled. rewrite length_alter, (completed_alter _ _ _ Hi).
  destruct (Task.done task); (f_equal; f_equal; lia).
Qed.
End TaskOperationFacts.

(** ** Toggling twice *)

Lemma toggleAll_absent id (l : list Task.t) :
  Forall (fun t => Task.id t <> id) l -> toggleAll id l = l.
Proof.
  induction 1 as [|t l Ht _ IH]; [done|]. simpl. fold (toggleAll id l).
  rewrite IH. by destruct (decide (Task.id t = id)).
Qed.

Lemma alter_toggleAll (l : list Task.t) i t :
  NoDup (map Task.id l) -> l !! i = Some t ->
  alter (Task.setDone (negb (Task.done t))) i l = toggleAll (Task.id t) l.
Proof.
  revert i. induction l as [|x l IH]; intros [|i] Hnd Hi; simpl in *; try done.
  - injection Hi as ->. apply NoDup_cons in Hnd as [Hx _].
    fold (toggleAll (Task.id t) l). rewrite toggleAll_absent.
    + by destruct (decide (Task.id t = Task.id t)).
    + apply Forall_forall. intros y Hy Heq. apply Hx. rewrite <- Heq.
      by apply list_elem_of_fmap_2.
  - apply NoDup_cons in Hnd as [Hx Hnd].
    change (list_alter ?f i l) with (alter f i l). rewrite (IH i Hnd Hi).
    fold (toggleAll (Task.id t) l).
    destruct (decide (Task.id x = Task.id t)) as [Heq|]; [|done].
    destruct Hx. rewrite Heq. apply list_elem_of_fmap_2.
    by apply list_elem_of_lookup_2 in Hi.
Qed.

Lemma toggleAll_ids id l : map Task.id (toggleAll id l) = map Task.id l.
Proof.
  unfold toggleAll. rewrite List.map_map. apply List.map_ext.
  intros t. by destruct (decide (Task.id t = id)).
Qed.

Lemma toggleAll_involutive id l : toggleAll id (toggleAll id l) = l.
Proof.
  unfold toggleAll. rewrite List.map_map. rewrite <- (List.map_id l) at 2.
  apply List.map_ext. intros [tid text priority done created]. simpl.
  destruct (decide (tid = id)) as [->|Hne]; simpl.
  - destruct (decide (id = id)); [|done]. unfold Task.setDone. simpl.
    by rewrite negb_involutive.
  - by destruct (decide (tid = id)).
Qed.

Section ToggleTwice.
Context {P : Platform}.

Lemma toggleTask_toggleAll w id :
  NoDup (map Task.id (tasksOf w)) ->
  exists w',
    toggleTask id w = (Return tt, w') /\
    Permutation (tasksOf w') (toggleAll id (tasksOf w)).
Proof.
  intros Hnd.
  destruct (list_find (fun t => Task.id t = id) (tasksOf w)) as [[i task]|] eqn:Hfind.
  - destruct (toggleTask_found w id i task Hfind) as (w' & E & T & _).
    exists w'. split; [exact E|]. rewrite T.
    pose proof (proj1 (list_find_Some _ _ _ _) Hfind) as (Hi & Hid & _).
    rewrite (alter_toggleAll _ _ _ Hnd Hi), Hid. apply if_sort_Permutation.
  - exists w. split.
    + apply toggleTask_absent. by apply (proj1 (list_find_None _ _)).
    + rewrite toggleAll_absent; [done|]. by apply (proj1 (list_find_None _ _)).
Qed.

(** X3.  With ids that are unique, toggling the same id twice gives back the
    tasks as they were, up to their order. *)
Theorem toggleTask_twice_restores (w : World) (id : string) :
  NoDup (map Task.id (tasksOf w)) ->
  exists w'',
    (toggleTask id ;; toggleTask id) w = (Return tt, w'') /\
    Permutation (tasksOf w'') (tasksOf w).
Proof.
  intros Hnd.
  destruct (toggleTask_toggleAll w id Hnd) as (w' & E1 & P1).
  assert (NoDup (map Task.id (tasksOf w'))) as Hnd'.
  { assert (map Task.id (tasksOf w') ≡ₚ map Task.id (toggleAll id (tasksOf w))) as Hp
      by by apply Permutation_map.
    by rewrite Hp, toggleAll_ids. }
  destruct (toggleTask_toggleAll w' id Hnd') as (w'' & E2 & P2).
  exists w''. split; [by rewrite (bind_eq _ _ _ _ _ E1)|].
  assert (toggleAll id (tasksOf w') ≡ₚ toggleAll id (toggleAll id (tasksOf w))) as H
    by (by apply Permutation_map).
  by rewrite P2, H, toggleAll_involutive.
Qed.
End ToggleTwice.

(** ** Deleting, searching and clearing tasks *)

Section TaskRemovalFacts.
Context {P : Platform}.

Lemma deleteTask_full_effect id w :
  let kept := List.filter (fun t => negb (String.eqb (Task.id t) id)) (tasksOf w) in
  exists w',
    deleteTask id w = (Return tt, w') /\
    tasksOf w' = (if searching w then kept else JSArray.sort compareTasks kept) /\
    is_Some (taskArrays w' !! State.tasks (state w')) /\
    expensesOf w' = expensesOf w /\
    filterStateOf w' = filterStateOf w /\
    ((forall m k v, storageAccepts m k v = true) ->
     localStorage w' !! STORAGE_KEYS.TASKS = Some (JSON_stringify kept)).
Proof.
  intros kept. unfold deleteTask. do 3 step. fold kept.
  set (w1 := withState _ _).
  assert (tasksOf w1 = kept) as T1.
  { unfold tasksOf, w1. world_simpl. apply deref_insert. }
  assert (is_Some (taskArrays w1 !! State.tasks (state w1))) as S1.
  { unfold w1. world_simpl. rewrite lookup_insert_eq. by eexists. }
  destruct (finishTaskOperation_effect w1 S1) as (m & h' & E & S & D & Hm).
  rewrite E. set (w' := withTaskArrays h' _). exists w'. split; [reflexivity|].
  assert (tasksOf w' = deref h' (State.tasks (state w1))) as T' by reflexivity.
  assert (searching w1 = searching w) as Hs by reflexivity.
  rewrite T1, Hs in D. rewrite T', D.
  split; [done|]. split; [exact S|]. split; [done|]. split; [done|].
  intros Hacc. destruct (Hm Hacc) as [Ht _]. by rewrite T1 in Ht.
Qed.

Lemma filter_keeps_others id (l : list Task.t) :
  Forall (fun t => Task.id t <> id)
         (List.filter (fun t => negb (String.eqb (Task.id t) id)) l).
Proof.
  apply Forall_forall. intros t Ht. apply list_elem_of_In, List.filter_In in Ht as [_ Ht].
  apply negb_true_iff in Ht. by apply String.eqb_neq.
Qed.

(** X4.  [deleteTask] removes every task with the given id and no other
    task; deleting the same id again changes no record. *)
Theorem deleteTask_removes_every_match (w : World) (id : string) :
  let kept := List.filter (fun t => negb (String.eqb (Task.id t) id)) (tasksOf w) in
  exists w',
    deleteTask id w = (Return tt, w') /\
    Permutation (tasksOf w') kept /\
    Forall (fun t => Task.id t <> id) (tasksOf w') /\
    (forall t, In t (tasksOf w') <-> In t (tasksOf w) /\ Task.id t <> id) /\
    expensesOf w' = expensesOf w /\
    filterStateOf w' = filterStateOf w /\
    ((forall m k v, storageAccepts m k v = true) ->
     localStorage w' !! STORAGE_KEYS.TASKS = Some (JSON_stringify kept)) /\
    exists w'',
      deleteTask id w' = (Return tt, w'') /\
      Permutation (tasksOf w'') (tasksOf w').
Proof.
  intros kept.
  destruct (deleteTask_full_effect id w) as (w' & E & T & S & X & F & Hm).
  fold kept in T, Hm.
  assert (Permutation (tasksOf w') kept) as Hperm by (rewrite T; apply if_sort_Permutation).
  assert (Forall (fun t => Task.id t <> id) (tasksOf w')) as Hgone.
  { eapply Permutation_Forall; [symmetry; exact Hperm|]. apply filter_keeps_others. }
  exists w'. split; [exact E|]. split; [exact Hperm|]. split; [exact Hgone|]. split.
  { intros t. split.
    - intros Ht. apply (Permutation_in _ Hperm), List.filter_In in Ht as [Hin Hid].
      split; [done|]. apply negb_true_iff in Hid. by apply String.eqb_neq.
    - intros [Hin Hid]. apply (Permutation_in _ (Permutation_sym Hperm)).
      apply List.filter_In. split; [done|]. apply negb_true_iff. by apply String.eqb_neq. }
  split; [done|]. split; [done|]. split; [exact Hm|].
  destruct (deleteTask_full_effect id w') as (w'' & E2 & T2 & _).
  exists w''. split; [exact E2|]. rewrite T2.
  rewrite (filter_absent_task id (tasksOf w') Hgone). apply if_sort_Permutation.
Qed.

(** X5.  [filterTasks] stores the lower-cased search text and nothing else:
    the records stay, storage is not written, and the collection is put
    into display order only when the new search text is empty. *)
Theorem filterTasks_sets_search_only (w : World) (searchText : string) :
  is_Some (taskArrays w !! State.tasks (state w)) ->
  exists w',
    filterTasks searchText w = (Return tt, w') /\
    State.taskSearch (state w') = toLowerCase searchText /\
    tasksOf w' = (if truthy (toLowerCase searchText) then tasksOf w
                  else JSArray.sort compareTasks (tasksOf w)) /\
    Permutation (tasksOf w') (tasksOf w) /\
    expensesOf w' = expensesOf w /\
    State.expenseFilters (state w') = State.expenseFilters (state w) /\
    localStorage w' = localStorage w.
Proof.
  intros Hwf. unfold filterTasks. step.
  set (w1 := withState _ _).
  destruct (renderTasks_tasks w1 Hwf) as (h' & E & S & D).
  rewrite E. eexists. split; [reflexivity|]. split; [done|].
  assert (tasksOf (withTaskArrays h' w1) = deref h' (State.tasks (state w1))) as -> by done.
  rewrite D. split; [done|]. split; [|done].
  apply (if_sort_Permutation compareTasks (searching w1) (tasksOf w)).
Qed.

Lemma clearAllTasks_effect w :
  exists w',
    clearAllTasks true w = (Return tt, w') /\
    tasksOf w' = [] /\ expensesOf w' = expensesOf w /\
    filterStateOf w' = filterStateOf w /\
    ((forall m k v, storageAccepts m k v = true) ->
     localStorage w' !! STORAGE_KEYS.TASKS = Some (JSON_stringify (A := Task.t) [])).
Proof.
  unfold clearAllTasks. do 2 step.
  set (w1 := withState _ _).
  assert (tasksOf w1 = []) as T1.
  { unfold tasksOf, w1. world_simpl. apply deref_insert. }
  assert (is_Some (taskArrays w1 !! State.tasks (state w1))) as S1.
  { unfold w1. world_simpl. rewrite lookup_insert_eq. by eexists. }
  destruct (finishTaskOperation_effect w1 S1) as (m & h' & E & S & D & Hm).
  rewrite E. set (w' := withTaskArrays h' _). exists w'. split; [reflexivity|].
  assert (tasksOf w' = deref h' (State.tasks (state w1))) as T' by reflexivity.
  rewrite T1 in D.
  split; [rewrite T', D; by destruct (searching w1)|]. split; [done|]. split; [done|].
  intros Hacc. destruct (Hm Hacc) as [Ht _]. by rewrite T1 in Ht.
Qed.

Lemma clearAllExpenses_effect w :
  exists w',
    clearAllExpenses true w = (Return tt, w') /\
    expensesOf w' = [] /\ tasksOf w' = tasksOf w /\
    filterStateOf w' = filterStateOf w /\
    ((forall m k v, storageAccepts m k v = true) ->
     localStorage w' !! STORAGE_KEYS.EXPENSES = Some (JSON_stringify (A := Expense.t) [])).
Proof.
  unfold clearAllExpenses. do 2 step.
  set (w1 := withState _ _).
  assert (expensesOf w1 = []) as T1.
  { unfold expensesOf, w1. world_simpl. apply deref_insert. }
  assert (is_Some (expenseArrays w1 !! State.expenses (state w1))) as S1.
  { unfold w1. world_simpl. rewrite lookup_insert_eq. by eexists. }
  destruct (saveState_effect w1) as (m & E2 & Hm).
  rewrite (bind_eq _ _ _ _ _ E2).
  destruct (refreshExpenses_effect (withLocalStorage m w1) S1) as (h' & n & E3 & S3 & D3).
  rewrite E3. set (w' := mkWorld _ _ _ _ _ _). exists w'. split; [reflexivity|].
  assert (expensesOf w' = deref h' (State.expenses (state (withLocalStorage m w1))))
    as T' by reflexivity.
  assert (expensesOf (withLocalStorage m w1) = []) as T2 by exact T1.
  rewrite T2 in D3.
  split; [rewrite T', D3; by destruct (filtering _)|]. split; [done|]. split; [done|].
  intros Hacc. destruct (Hm Hacc) as [_ Hx]. by rewrite T1 in Hx.
Qed.

(** X6.  [clearAllTasks] and [clearAllExpenses] do nothing when the user
    declines, and otherwise empty their collection, and only it, and
    write the empty collection to storage. *)
Theorem clearAll_empties_one_collection (w : World) (answer : bool) :
  (exists w',
     clearAllTasks answer w = (Return tt, w') /\
     (answer = false -> w' = w) /\
     (answer = true ->
      tasksOf w' = [] /\ expensesOf w' = expensesOf w /\
      filterStateOf w' = filterStateOf w /\
      result calculateTaskStats w' = Some (TaskStats.mk 0 0 0) /\
      ((forall m k v, storageAccepts m k v = true) ->
       localStorage w' !! STORAGE_KEYS.TASKS
       = Some (JSON_stringify (A := Task.t) [])))) /\
  (exists w',
     clearAllExpenses answer w = (Return tt, w') /\
     (answer = false -> w' = w) /\
     (answer = true ->
      expensesOf w' = [] /\ tasksOf w' = tasksOf w /\
      filterStateOf w' = filterStateOf w /\
      ((forall m k v, storageAccepts m k v = true) ->
       localStorage w' !! STORAGE_KEYS.EXPENSES
       = Some (JSON_stringify (A := Expense.t) [])))).
Proof.
  destruct answer.
  2:{ split; exists w; by repeat split. }
  split.
  - destruct (clearAllTasks_effect w) as (w' & E & T & X & F & Hm).
    exists w'. split; [exact E|]. split; [done|]. intros _.
    split; [exact T|]. split; [exact X|]. split; [exact F|]. split; [|exact Hm].
    by rewrite calculateTaskStats_result, T.
  - destruct (clearAllExpenses_effect w) as (w' & E & H).
    exists w'. split; [exact E|]. by split.
Qed.
End TaskRemovalFacts.

(** ** The task list that is shown *)

Section ShownTasksFacts.
Context {P : Platform}.
Hypothesis collation : JSArray.consistent collate.

Lemma getFilteredTasks_eq w :
  let search := State.taskSearch (state w) in
  getFilteredTasks w =
  if truthy search then
    (Return (fresh (dom (taskArrays w))),
     withTaskArrays
       (<[fresh (dom (taskArrays w)) :=
            List.filter (fun t => matchesSearch search t) (tasksOf w)]> (taskArrays w)) w)
  else (Return (State.tasks (state w)), w).
Proof.
  intros search. unfold getFilteredTasks. do 2 step. fold search.
  destruct (truthy search); [|done]. by step.
Qed.

Lemma shownTasks_effect w :
  let search := State.taskSearch (state w) in
  exists l' w',
    (filteredTasks <- getFilteredTasks ;; sortTasks filteredTasks) w = (Return l', w') /\
    deref (taskArrays w') l'
    = JSArray.sort compareTasks
        (List.filter (fun t => negb (truthy search) || matchesSearch search t) (tasksOf w)).
Proof.
  intros search.
  unfold bind at 1.
  pose proof (getFilteredTasks_eq w) as E. simpl in E. fold search in E. rewrite E.
  destruct (truthy search) eqn:Hs; simpl.
  - do 2 eexists. split; [reflexivity|].
    world_simpl. rewrite deref_alter by done. by rewrite deref_insert.
  - do 2 eexists. split; [reflexivity|].
    world_simpl. rewrite deref_alter by done. f_equal.
    symmetry. unfold tasksOf. induction (deref _ _); simpl; congruence.
Qed.

(** X7.  What [renderTasks] puts on the page: the tasks whose lower-cased
    text contains the search text (all tasks when there is none), in
    display order, tasks of equal keys in the order they had. *)
Theorem renderTasks_shows_matches_in_order (w : World) :
  Forall knownPriority (tasksOf w) ->
  let search := State.taskSearch (state w) in
  exists l' w',
    (filteredTasks <- getFilteredTasks ;; sortTasks filteredTasks) w = (Return l', w') /\
    let shown := deref (taskArrays w') l' in
    (forall t, In t shown <->
       In t (tasksOf w) /\ (search = "" \/ matchesSearch search t = true)) /\
    StronglySorted taskOrder shown /\
    (forall a, knownPriority a ->
       List.filter (sameKeys a) shown
       = List.filter (sameKeys a)
           (List.filter (fun t => negb (truthy search) || matchesSearch search t)
                        (tasksOf w))).
Proof.
  intros Hknown search.
  destruct (shownTasks_effect w) as (l' & w' & E & D).
  exists l', w'. split; [exact E|]. simpl. rewrite D. fold search.
  set (visible := List.filter _ (tasksOf w)).
  assert (Forall knownPriority visible) as Hv by by apply Forall_filter_bool.
  pose proof (sort_Permutation compareTasks visible) as Hperm.
  assert (Forall knownPriority (JSArray.sort compareTasks visible)) as Hs.
  { eapply Permutation_Forall; [symmetry; exact Hperm|done]. }
  split; [|split].
  - intros t.
    assert (In t (JSArray.sort compareTasks visible) <-> In t visible) as ->.
    { split; apply Permutation_in; [done|by symmetry]. }
    unfold visible. rewrite List.filter_In, orb_true_iff, negb_true_iff.
    unfold truthy. rewrite negb_false_iff, String.eqb_eq. done.
  - apply (StronglySorted_impl (JSArray.mayPrecede compareTasks) taskOrder knownPriority);
      [|done|].
    + intros a b Ka Kb. by apply mayPrecede_taskOrder.
    + by apply (sort_StronglySorted compareTasks knownPriority
                  (compareTasks_consistent collation)).
  - intros a Ka.
    rewrite <- (List.filter_ext_in (JSArray.tied compareTasks a)).
    2:{ intros e He. apply tied_sameKeys; [done|].
        rewrite Forall_forall in Hs. apply Hs. by apply list_elem_of_In. }
    rewrite <- (List.filter_ext_in (JSArray.tied compareTasks a) (sameKeys a) visible).
    2:{ intros e He. apply tied_sameKeys; [done|].
        rewrite Forall_forall in Hv. apply Hv. by apply list_elem_of_In. }
    by apply (sort_stable compareTasks knownPriority (compareTasks_consistent collation)).
Qed.
End ShownTasksFacts.

(** ** Operations on expenses *)

Section ExpenseOperationFacts.
Context {P : Platform}.

(** [saveState(); renderExpenses(); updateExpenseStats();
    renderCategoryTotals()]: the end of every expense operation. *)
Lemma finishExpenseOperation_effect w :
  is_Some (expenseArrays w !! State.expenses (state w)) ->
  exists m h' n,
    (saveState ;; renderExpenses ;; updateExpenseStats ;; renderCategoryTotals) w
    = (Return tt, mkWorld (taskArrays w) h' (state w) m (idCount w) n) /\
    is_Some (h' !! State.expenses (state w)) /\
    deref h' (State.expenses (state w)) =
      (if filtering w then expensesOf w
       else JSArray.sort compareExpenses (JSArray.sort compareExpenses (expensesOf w))) /\
    ((forall m k v, storageAccepts m k v = true) ->
     m !! STORAGE_KEYS.TASKS = Some (JSON_stringify (tasksOf w)) /\
     m !! STORAGE_KEYS.EXPENSES = Some (JSON_stringify (expensesOf w))).
Proof.
  intros Hwf.
  destruct (saveState_effect w) as (m & E1 & Hm).
  rewrite (bind_eq _ _ _ _ _ E1).
  destruct (refreshExpenses_effect (withLocalStorage m w) Hwf) as (h' & n & E2 & S2 & D2).
  rewrite E2. exists m, h', n. split; [reflexivity|]. split; [exact S2|].
  split; [exact D2|exact Hm].
Qed.

Lemma if_sort_sort_Permutation {A} (cmp : A -> A -> option Z) (b : bool) l :
  Permutation (if b then l else JSArray.sort cmp (JSArray.sort cmp l)) l.
Proof. destruct b; [done|apply sort_sort_Permutation]. Qed.

Lemma addExpense_effect w description amount category date time :
  is_Some (expenseArrays w !! State.expenses (state w)) ->
  Date_parse date = Some time ->
  let expense :=
    Expense.mk (idAt (idCount w)) (JSString.trim description) (eurosToCents amount)
               category (JSString.splitHead "T" (Date_toISOString time)) in
  exists w',
    addExpense description amount category date w = (Return tt, w') /\
    expensesOf w' =
      (if filtering w then expensesOf w ++ [expense]
       else JSArray.sort compareExpenses
              (JSArray.sort compareExpenses (expensesOf w ++ [expense]))) /\
    tasksOf w' = tasksOf w /\
    filterStateOf w' = filterStateOf w /\
    ((forall m k v, storageAccepts m k v = true) ->
     localStorage w' !! STORAGE_KEYS.EXPENSES
     = Some (JSON_stringify (expensesOf w ++ [expense]))).
Proof.
  intros Hwf Hdate expense. unfold addExpense. step.
  erewrite bind_eq; [|unfold dateToISO; rewrite Hdate; reflexivity].
  world_simpl. do 2 step. fold expense.
  set (w1 := withExpenseArrays _ _).
  assert (expensesOf w1 = expensesOf w ++ [expense]) as X1.
  { unfold expensesOf, w1. world_simpl.
    by apply (deref_alter_Some (fun es => es ++ [expense])). }
  assert (is_Some (expenseArrays w1 !! State.expenses (state w1))) as S1.
  { unfold w1. world_simpl. by apply is_Some_alter. }
  destruct (finishExpenseOperation_effect w1 S1) as (m & h' & n & E & S & D & Hm).
  rewrite E. set (w' := mkWorld _ _ _ _ _ _). exists w'. split; [reflexivity|].
  assert (expensesOf w' = deref h' (State.expenses (state w1))) as X' by reflexivity.
  assert (filtering w1 = filtering w) as Hf by reflexivity.
  rewrite X1, Hf in D. rewrite X', D.
  split; [done|]. split; [done|]. split; [done|].
  intros Hacc. destruct (Hm Hacc) as [_ Hx]. by rewrite X1 in Hx.
Qed.

Lemma addExpense_throws w description amount category date :
  Date_parse date = None ->
  addExpense description amount category date w
  = (Throw "RangeError: Invalid time value",
     mkWorld (taskArrays w) (expenseArrays w) (state w) (localStorage w)
             (S (idCount w)) (tick w)).
Proof.
  intros Hdate. unfold addExpense. step. unfold bind at 1. unfold dateToISO.
  by rewrite Hdate.
Qed.

(** X8.  [addExpense] with a date that [new Date] cannot read throws before
    it touches the store; with a readable date it puts one record into
    the collection, with the amount converted to cents, and changes
    nothing else of the store. *)
Theorem addExpense_adds_one_or_throws (w : World)
    (description amount category date : string) :
  is_Some (expenseArrays w !! State.expenses (state w)) ->
  match Date_parse date with
  | None =>
      exists w',
        addExpense description amount category date w
        = (Throw "RangeError: Invalid time value", w') /\
        taskArrays w' = taskArrays w /\ expenseArrays w' = expenseArrays w /\
        state w' = state w /\ localStorage w' = localStorage w
  | Some time =>
      let expense :=
        Expense.mk (idAt (idCount w)) (JSString.trim description) (eurosToCents amount)
                   category (JSString.splitHead "T" (Date_toISOString time)) in
      exists w',
        addExpense description amount category date w = (Return tt, w') /\
        Permutation (expensesOf w') (expensesOf w ++ [expense]) /\
        (filtering w = true -> expensesOf w' = expensesOf w ++ [expense]) /\
        tasksOf w' = tasksOf w /\
        filterStateOf w' = filterStateOf w /\
        ((forall m k v, storageAccepts m k v = true) ->
         localStorage w' !! STORAGE_KEYS.EXPENSES
         = Some (JSON_stringify (expensesOf w ++ [expense])))
  end.
Proof.
  intros Hwf. destruct (Date_parse date) as [time|] eqn:Hdate.
  - intros expense.
    destruct (addExpense_effect w description amount category date time Hwf Hdate)
      as (w' & E & X & T & F & Hm).
    fold expense in X, Hm.
    exists w'. split; [exact E|]. rewrite X.
    split; [apply if_sort_sort_Permutation|]. split; [by intros ->|done].
  - rewrite (addExpense_throws w _ _ _ _ Hdate). eexists. split; [reflexivity|]. done.
Qed.

Lemma deleteExpense_full_effect id w :
  let kept := List.filter (fun e => negb (String.eqb (Expense.id e) id)) (expensesOf w) in
  exists w',
    deleteExpense id w = (Return tt, w') /\
    expensesOf w' =
      (if filtering w then kept
       else JSArray.sort compareExpenses (JSArray.sort compareExpenses kept)) /\
    tasksOf w' = tasksOf w /\
    filterStateOf w' = filterStateOf w /\
    ((forall m k v, storageAccepts m k v = true) ->
     localStorage w' !! STORAGE_KEYS.EXPENSES = Some (JSON_stringify kept)).
Proof.
  intros kept. unfold deleteExpense. do 3 step. fold kept.
  set (w1 := withState _ _).
  assert (expensesOf w1 = kept) as X1.
  { unfold expensesOf, w1. world_simpl. apply deref_insert. }
  assert (is_Some (expenseArrays w1 !! State.expenses (state w1))) as S1.
  { unfold w1. world_simpl. rewrite lookup_insert_eq. by eexists. }
  destruct (finishExpenseOperation_effect w1 S1) as (m & h' & n & E & S & D & Hm).
  rewrite E. set (w' := mkWorld _ _ _ _ _ _). exists w'. split; [reflexivity|].
  assert (expensesOf w' = deref h' (State.expenses (state w1))) as X' by reflexivity.
  assert (filtering w1 = filtering w) as Hf by reflexivity.
  rewrite X1, Hf in D. rewrite X', D.
  split; [done|]. split; [done|]. split; [done|].
  intros Hacc. destruct (Hm Hacc) as [_ Hx]. by rewrite X1 in Hx.
Qed.

(** X9.  [deleteExpense] removes every expense with the given id and no
    other one; deleting the same id again changes no record. *)
Theorem deleteExpense_removes_every_match (w : World) (id : string) :
  let kept := List.filter (fun e => negb (String.eqb (Expense.id e) id)) (expensesOf w) in
  exists w',
    deleteExpense id w = (Return tt, w') /\
    Permutation (expensesOf w') kept /\
    Forall (fun e => Expense.id e <> id) (expensesOf w') /\
    (forall e, In e (expensesOf w') <-> In e (expensesOf w) /\ Expense.id e <> id) /\
    tasksOf w' = tasksOf w /\
    filterStateOf w' = filterStateOf w /\
    ((forall m k v, storageAccepts m k v = true) ->
     localStorage w' !! STORAGE_KEYS.EXPENSES = Some (JSON_stringify kept)) /\
    exists w'',
      deleteExpense id w' = (Return tt, w'') /\
      Permutation (expensesOf w'') (expensesOf w').
Proof.
  intros kept.
  destruct (deleteExpense_full_effect id w) as (w' & E & X & T & F & Hm).
  fold kept in X, Hm.
  assert (Permutation (expensesOf w') kept) as Hperm
    by (rewrite X; apply if_sort_sort_Permutation).
  assert (Forall (fun e => Expense.id e <> id) kept) as Hkept.
  { apply Forall_forall. intros e He.
    apply list_elem_of_In, List.filter_In in He as [_ He].
    apply negb_true_iff in He. by apply String.eqb_neq. }
  assert (Forall (fun e => Expense.id e <> id) (expensesOf w')) as Hgone.
  { eapply Permutation_Forall; [symmetry; exact Hperm|exact Hkept]. }
  exists w'. split; [exact E|]. split; [exact Hperm|]. split; [exact Hgone|]. split.
  { intros e. split.
    - intros He. apply (Permutation_in _ Hperm), List.filter_In in He as [Hin Hid].
      split; [done|]. apply negb_true_iff in Hid. by apply String.eqb_neq.
    - intros [Hin Hid]. apply (Permutation_in _ (Permutation_sym Hperm)).
      apply List.filter_In. split; [done|]. apply negb_true_iff. by apply String.eqb_neq. }
  split; [done|]. split; [done|]. split; [exact Hm|].
  destruct (deleteExpense_full_effect id w') as (w'' & E2 & X2 & _).
  exists w''. split; [exact E2|]. rewrite X2.
  rewrite (filter_absent_expense id (expensesOf w') Hgone). apply if_sort_sort_Permutation.
Qed.

(** X10.  [filterExpenses] stores the two filters and nothing else: the
    records stay, storage is not written, and the collection is put into
    display order only when both new filters are empty. *)
Theorem filterExpenses_sets_filters_only (w : World) (category month : string) :
  is_Some (expenseArrays w !! State.expenses (state w)) ->
  exists w',
    filterExpenses category month w = (Return tt, w') /\
    State.expenseFilters (state w') = Filters.mk category month /\
    State.taskSearch (state w') = State.taskSearch (state w) /\
    expensesOf w' =
      (if truthy category || truthy month then expensesOf w
       else JSArray.sort compareExpenses (JSArray.sort compareExpenses (expensesOf w))) /\
    Permutation (expensesOf w') (expensesOf w) /\
    tasksOf w' = tasksOf w /\
    localStorage w' = localStorage w.
Proof.
  intros Hwf. unfold filterExpenses. step.
  set (w1 := withState _ _).
  destruct (refreshExpenses_effect w1 Hwf) as (h' & n & E & S & D).
  rewrite E. set (w' := mkWorld _ _ _ _ _ _). exists w'. split; [reflexivity|].
  split; [done|]. split; [done|].
  assert (expensesOf w' = deref h' (State.expenses (state w1))) as -> by done.
  rewrite D. split; [done|]. split; [|done].
  apply (if_sort_sort_Permutation compareExpenses (filtering w1) (expensesOf w)).
Qed.
End ExpenseOperationFacts.

(** ** Totals with an amount that is not a number *)

Lemma add_NaN_r x : JSNumber.add x JSNumber.NaN = JSNumber.NaN.
Proof. by destruct x. Qed.

Lemma sum_from_NaN (es : list Expense.t) :
  foldl (fun sum e => JSNumber.add sum (Expense.amountCents e)) JSNumber.NaN es
  = JSNumber.NaN.
Proof. induction es as [|e es IH]; [done|]. simpl. exact IH. Qed.

Lemma sum_with_NaN (es : list Expense.t) e :
  In e es -> Expense.amountCents e = JSNumber.NaN ->
  forall acc,
    foldl (fun sum e => JSNumber.add sum (Expense.amountCents e)) acc es = JSNumber.NaN.
Proof.
  induction es as [|x es IH]; intros Hin Hnan acc; [done|]. simpl.
  destruct Hin as [->|Hin].
  - rewrite Hnan, add_NaN_r. apply sum_from_NaN.
  - by apply IH.
Qed.

Section TotalsFacts.
Context {P : Platform}.

Lemma calculateCategoryTotals_lookup w c :
  In c CATEGORIES.values ->
  exists totals w',
    calculateCategoryTotals w = (Return totals, w') /\
    totals !! c
    = Some (sumAmountCents
              (List.filter (fun e => String.eqb (Expense.category e) c)
                 (JSArray.sort compareExpenses
                    (List.filter (passes (State.expenseFilters (state w)))
                                 (expensesOf w))))).
Proof.
  intros Hc.
  destruct (getFilteredExpenses_effect w) as (l' & h' & E & D & _).
  unfold calculateCategoryTotals, bind at 1. rewrite E.
  do 2 eexists. split; [reflexivity|]. simpl. rewrite D.
  apply foldl_addToKey_lookup.
  pose proof (proj1 (List.Forall_forall _ _) initial_totals c Hc) as H. exact H.
Qed.

(** X11.  One expense whose amountCents is NaN makes the total of
    [calculateExpenseStats] NaN, its monthly total too when the expense
    is of the current month, and the total of its category too when the
    expense passes the filters. *)
Theorem NaN_amount_makes_totals_NaN (w : World) (e : Expense.t) :
  In e (expensesOf w) ->
  Expense.amountCents e = JSNumber.NaN ->
  (exists stats w' currentMonth,
     calculateExpenseStats w = (Return stats, w') /\
     result getCurrentMonth w = Some currentMonth /\
     ExpenseStats.total stats = JSNumber.NaN /\
     (JSString.startsWith (Expense.dateISO e) currentMonth = true ->
      ExpenseStats.monthly stats = JSNumber.NaN)) /\
  (passes (State.expenseFilters (state w)) e = true ->
   In (Expense.category e) CATEGORIES.values ->
   exists totals w',
     calculateCategoryTotals w = (Return totals, w') /\
     totals !! Expense.category e = Some JSNumber.NaN).
Proof.
  intros Hin Hnan. split.
  - destruct (calculateExpenseStats_eq w) as (w' & cm & Ecm & _ & _ & _ & _ & _ & E).
    eexists _, w', cm. split; [exact E|]. split; [unfold result; by rewrite Ecm|].
    simpl. split.
    + by apply (sum_with_NaN _ e).
    + intros Hmonth. apply (sum_with_NaN _ e); [|done].
      apply List.filter_In. by split.
  - intros Hpass Hcat.
    destruct (calculateCategoryTotals_lookup w _ Hcat) as (totals & w' & E & L).
    exists totals, w'. split; [exact E|]. rewrite L. f_equal.
    apply (sum_with_NaN _ e); [|done].
    apply List.filter_In. split; [|apply String.eqb_refl].
    eapply Permutation_in; [symmetry; apply sort_Permutation|].
    apply List.filter_In. by split.
Qed.

(** X12.  While a category filter is set, every other category has the total
    0. *)
Theorem category_filter_zeroes_other_totals (w : World) :
  let category := Filters.category (State.expenseFilters (state w)) in
  category <> "" ->
  exists totals w',
    calculateCategoryTotals w = (Return totals, w') /\
    Forall (fun c => c <> category -> totals !! c = Some JSNumber.posZero)
           CATEGORIES.values.
Proof.
  intros category Hset.
  destruct (getFilteredExpenses_effect w) as (l' & h' & E & D & _).
  unfold calculateCategoryTotals, bind at 1. rewrite E.
  do 2 eexists. split; [reflexivity|]. simpl. rewrite D.
  eapply Forall_impl; [apply initial_totals|].
  intros c Hc Hne. simpl in Hc.
  rewrite (foldl_addToKey_lookup c _ _ _ Hc).
  rewrite filter_none; [done|].
  intros e He. apply String.eqb_neq. intros Heq.
  apply (Permutation_in _ (sort_Permutation _ _)), List.filter_In in He as [_ Hp].
  apply passes_spec in Hp as [[Hempty|Hcat] _]; [done|].
  apply Hne. by rewrite <- Heq, Hcat.
Qed.
End TotalsFacts.

(** ** What loading leaves behind *)

Section LoadInvariantFacts.
Context {P : Platform}.

Lemma loadSampleTasks_store w :
  exists w',
    loadSampleTasks w = (Return tt, w') /\
    isSampleTasks (tasksOf w') /\
    is_Some (taskArrays w' !! State.tasks (state w')) /\
    expenseArrays w' = expenseArrays w /\
    State.expenses (state w') = State.expenses (state w) /\
    filterStateOf w' = filterStateOf w.
Proof.
  unfold loadSampleTasks. do 8 step.
  set (w1 := withState _ _).
  destruct (saveToStorage_effect STORAGE_KEYS.TASKS (tasksOf w1) w1) as (m & E & _).
  assert (tasksOf w1 = _) as T1 by (unfold tasksOf, w1; world_simpl; apply deref_insert).
  rewrite T1 in E. rewrite E.
  eexists. split; [reflexivity|].
  change (tasksOf (withLocalStorage m w1)) with (tasksOf w1). rewrite T1.
  split; [by repeat eexists|]. split; [|done].
  unfold w1. world_simpl. rewrite lookup_insert_eq. by eexists.
Qed.

Lemma loadSampleExpenses_store w :
  exists w',
    loadSampleExpenses w = (Return tt, w') /\
    isSampleExpenses (expensesOf w') /\
    is_Some (expenseArrays w' !! State.expenses (state w')) /\
    taskArrays w' = taskArrays w /\
    State.tasks (state w') = State.tasks (state w) /\
    filterStateOf w' = filterStateOf w.
Proof.
  unfold loadSampleExpenses. do 9 step.
  set (w1 := withState _ _).
  destruct (saveToStorage_effect STORAGE_KEYS.EXPENSES (expensesOf w1) w1) as (m & E & _).
  assert (expensesOf w1 = _) as T1
    by (unfold expensesOf, w1; world_simpl; apply deref_insert).
  rewrite T1 in E. rewrite E.
  eexists. split; [reflexivity|].
  change (expensesOf (withLocalStorage m w1)) with (expensesOf w1). rewrite T1.
  split; [by repeat eexists|]. split; [|done].
  unfold w1. world_simpl. rewrite lookup_insert_eq. by eexists.
Qed.

(** [loadState] returns, whatever storage holds and whether or not it
    accepts writes; each collection is then the stored one, which is not
    empty, or the sample. *)
Lemma loadState_store (w : World) :
  exists w',
    loadState w = (Return tt, w') /\
    wellFormed w' /\
    filterStateOf w' = filterStateOf w /\
    (isSampleTasks (tasksOf w') \/
     tasksOf w' <> [] /\
     fst (loadFromStorage (A := Task.t) STORAGE_KEYS.TASKS w) = Return (tasksOf w')) /\
    (isSampleExpenses (expensesOf w') \/
     expensesOf w' <> [] /\
     fst (loadFromStorage (A := Expense.t) STORAGE_KEYS.EXPENSES w)
     = Return (expensesOf w')).
Proof.
  unfold loadState. do 7 step.
  set (ts := match localStorage w !! STORAGE_KEYS.TASKS with Some _ => _ | None => _ end).
  set (es := match localStorage w !! STORAGE_KEYS.EXPENSES with Some _ => _ | None => _ end).
  assert (fst (loadFromStorage (A := Task.t) STORAGE_KEYS.TASKS w) = Return ts) as Lt by done.
  assert (fst (loadFromStorage (A := Expense.t) STORAGE_KEYS.EXPENSES w) = Return es)
    as Le by done.
  set (w3 := withState _ _).
  assert (tasksOf w3 = ts) as T3 by (unfold tasksOf, w3; world_simpl; apply deref_insert).
  assert (expensesOf w3 = es) as X3
    by (unfold expensesOf, w3; world_simpl; apply deref_insert).
  assert (is_Some (taskArrays w3 !! State.tasks (state w3))) as ST3.
  { unfold w3. world_simpl. rewrite lookup_insert_eq. by eexists. }
  assert (is_Some (expenseArrays w3 !! State.expenses (state w3))) as SX3.
  { unfold w3. world_simpl. rewrite lookup_insert_eq. by eexists. }
  assert (filterStateOf w3 = filterStateOf w) as F3 by done.
  rewrite T3. clearbody w3 ts es.
  assert (exists w4,
            (if (length ts =? 0)%nat then loadSampleTasks else ret tt) w3 = (Return tt, w4) /\
            (isSampleTasks (tasksOf w4) \/ tasksOf w4 <> [] /\ tasksOf w4 = ts) /\
            is_Some (taskArrays w4 !! State.tasks (state w4)) /\
            expenseArrays w4 = expenseArrays w3 /\
            State.expenses (state w4) = State.expenses (state w3) /\
            filterStateOf w4 = filterStateOf w3) as (w4 & E4 & T4 & ST4 & XA4 & XS4 & F4).
  { destruct ts as [|t ts]; simpl.
    - destruct (loadSampleTasks_store w3) as (w4 & E & S & R).
      exists w4. split; [exact E|]. split; [by left|exact R].
    - exists w3. split; [done|]. split; [right; by rewrite T3|done]. }
  rewrite (bind_eq _ _ _ _ _ E4). step.
  assert (expensesOf w4 = es) as X4 by (unfold expensesOf in *; by rewrite XA4, XS4).
  assert (is_Some (expenseArrays w4 !! State.expenses (state w4))) as SX4
    by (by rewrite XA4, XS4).
  rewrite X4.
  destruct es as [|e es]; simpl.
  - destruct (loadSampleExpenses_store w4) as (w5 & E & S & SX5 & TA5 & TS5 & F5).
    exists w5. split; [exact E|].
    assert (tasksOf w5 = tasksOf w4) as T5 by (unfold tasksOf; by rewrite TA5, TS5).
    split; [split; [by rewrite TA5, TS5|exact SX5]|].
    split; [by rewrite F5, F4|]. rewrite T5.
    split; [|by left].
    destruct T4 as [T4|[T4 T4']]; [by left|right; split; [done|by rewrite T4']].
  - exists w4. split; [done|]. split; [by split|]. split; [by rewrite F4|].
    split; [|right; by rewrite X4].
    destruct T4 as [T4|[T4 T4']]; [by left|right; split; [done|by rewrite T4']].
Qed.

(** X13.  Whatever text storage holds, text that [JSON.parse] rejects or
    reads as an array of records, and whether or not storage accepts
    writes, [loadState] returns with two collections that are not empty,
    behind references that point into the store, and with the search
    text and the filters as they were. *)
Theorem loadState_leaves_no_collection_empty (w : World) :
  exists w',
    loadState w = (Return tt, w') /\
    tasksOf w' <> [] /\
    expensesOf w' <> [] /\
    wellFormed w' /\
    filterStateOf w' = filterStateOf w.
Proof.
  destruct (loadState_store w) as (w' & E & Hwf & F & T & X).
  exists w'. split; [exact E|].
  split; [|split; [|done]].
  - destruct T as [(? & ? & ? & ? & ? & ? & ->)|[T _]]; done.
  - destruct X as [(? & ? & ? & ? & ? & ? & ->)|[X _]]; done.
Qed.
End LoadInvariantFacts.

(** ** Saving and loading again *)

Section ReloadFacts.
Context {P : Platform}.
Hypothesis storage_accepts : forall m k v, storageAccepts m k v = true.

Lemma loadFromStorage_saved {A} `{Serializer A} key (l : list A) w :
  localStorage w !! key = Some (JSON_stringify l) ->
  JSON_parse (JSON_stringify l) = Some l ->
  JSON_stringify l <> "" ->
  fst (loadFromStorage (A := A) key w) = Return l.
Proof.
  intros Hk Hrt Hne. unfold loadFromStorage, gets. simpl. rewrite Hk.
  destruct (truthy (JSON_stringify l)) eqn:Ht; [by rewrite Hrt|].
  by apply truthy_false in Ht.
Qed.

Lemma truthy_true s : s <> "" -> truthy s = true.
Proof. intros H. unfold truthy. apply negb_true_iff. by apply String.eqb_neq. Qed.

(** X14.  What [saveState] writes, [loadState] on a page with that storage
    reads back: a collection that was not empty comes back as it was
    saved, and an empty one comes back as the sample data.  Storage
    accepts the writes, and the serializer writes a text that is not
    empty and reads back what it writes, for the two collections. *)
Theorem reload_restores_saved_collections (w : World) :
  JSON_stringify (tasksOf w) <> "" ->
  JSON_parse (JSON_stringify (tasksOf w)) = Some (tasksOf w) ->
  JSON_stringify (expensesOf w) <> "" ->
  JSON_parse (JSON_stringify (expensesOf w)) = Some (expensesOf w) ->
  exists w1,
    saveState w = (Return tt, w1) /\
    forall w2,
      localStorage w2 = localStorage w1 ->
      exists w3,
        loadState w2 = (Return tt, w3) /\
        (tasksOf w <> [] -> tasksOf w3 = tasksOf w) /\
        (tasksOf w = [] -> isSampleTasks (tasksOf w3)) /\
        (expensesOf w <> [] -> expensesOf w3 = expensesOf w) /\
        (expensesOf w = [] -> isSampleExpenses (expensesOf w3)).
Proof.
  intros Nt Ht Ne He.
  destruct (saveState_effect w) as (m & E & Hm).
  destruct (Hm storage_accepts) as [Mt Me].
  exists (withLocalStorage m w). split; [exact E|].
  intros w2 Hw2. simpl in Hw2.
  assert (fst (loadFromStorage (A := Task.t) STORAGE_KEYS.TASKS w2) = Return (tasksOf w))
    as Lt.
  { apply loadFromStorage_saved; [by rewrite Hw2|done|done]. }
  assert (fst (loadFromStorage (A := Expense.t) STORAGE_KEYS.EXPENSES w2)
          = Return (expensesOf w)) as Le.
  { apply loadFromStorage_saved; [by rewrite Hw2|done|done]. }
  destruct (loadState_effect storage_accepts w2 _ _ Lt Le) as (w3 & E3 & HT & HE).
  exists w3. split; [exact E3|].
  destruct (decide (tasksOf w = [])) as [Ets|Ets],
           (decide (expensesOf w = [])) as [Ees|Ees].
  all: repeat split; intros Hc; try done; try (by destruct HT); try (by destruct HE).
Qed.

(** X15.  An emptied task list does not survive a reload: after
    [clearAllTasks], [loadState] on a page with that storage puts the
    three sample tasks back.  Storage accepts the writes and the
    serializer reads the empty array back. *)
Theorem cleared_tasks_are_reseeded_on_reload (w : World) :
  JSON_parse (A := Task.t) (JSON_stringify (A := Task.t) []) = Some [] ->
  exists w1,
    clearAllTasks true w = (Return tt, w1) /\
    tasksOf w1 = [] /\
    forall w2,
      localStorage w2 !! STORAGE_KEYS.TASKS = localStorage w1 !! STORAGE_KEYS.TASKS ->
      exists w3,
        loadState w2 = (Return tt, w3) /\ isSampleTasks (tasksOf w3).
Proof.
  intros Hrt.
  destruct (clearAllTasks_effect w) as (w1 & E & T1 & _ & _ & Hs).
  exists w1. split; [exact E|]. split; [exact T1|].
  intros w2 Hw2. rewrite (Hs storage_accepts) in Hw2.
  assert (fst (loadFromStorage (A := Task.t) STORAGE_KEYS.TASKS w2) = Return []) as Lt.
  { unfold loadFromStorage, gets. simpl. rewrite Hw2.
    destruct (truthy _); [by rewrite Hrt|done]. }
  destruct (loadState_effect storage_accepts w2 [] _ Lt eq_refl) as (w3 & E3 & HT & _).
  exists w3. split; [exact E3|]. by destruct HT.
Qed.

(** X16.  Stored text that [JSON.parse] rejects is treated as no data: the
    error is caught, [loadState] puts the sample records in its place
    and writes them over the rejected text.  Storage accepts the
    writes. *)
Theorem rejected_text_is_replaced_by_samples (w : World) (data : string) :
  (localStorage w !! STORAGE_KEYS.TASKS = Some data ->
   JSON_parse (A := Task.t) data = None ->
   exists w',
     loadState w = (Return tt, w') /\
     isSampleTasks (tasksOf w') /\
     localStorage w' !! STORAGE_KEYS.TASKS = Some (JSON_stringify (tasksOf w'))) /\
  (localStorage w !! STORAGE_KEYS.EXPENSES = Some data ->
   JSON_parse (A := Expense.t) data = None ->
   exists w',
     loadState w = (Return tt, w') /\
     isSampleExpenses (expensesOf w') /\
     localStorage w' !! STORAGE_KEYS.EXPENSES = Some (JSON_stringify (expensesOf w'))).
Proof.
  split; intros Hk Hp.
  - assert (fst (loadFromStorage (A := Task.t) STORAGE_KEYS.TASKS w) = Return []) as Lt.
    { unfold loadFromStorage, gets. simpl. rewrite Hk, Hp. by destruct (truthy data). }
    destruct (loadState_effect storage_accepts w [] _ Lt eq_refl) as (w' & E & HT & _).
    exists w'. split; [exact E|]. exact HT.
  - assert (fst (loadFromStorage (A := Expense.t) STORAGE_KEYS.EXPENSES w) = Return [])
      as Le.
    { unfold loadFromStorage, gets. simpl. rewrite Hk, Hp. by destruct (truthy data). }
    destruct (loadState_effect storage_accepts w _ [] eq_refl Le) as (w' & E & _ & HE).
    exists w'. split; [exact E|]. exact HE.
Qed.
End ReloadFacts.

(** ** The invariant of the running application *)

Section InvariantFacts.
Context {P : Platform}.
Hypothesis collation : JSArray.consistent collate.

(** Each half of the invariant is about its side of the store only. *)
Lemma tasksValid_frame w w' : taskSide w' = taskSide w -> tasksValid w -> tasksValid w'.
Proof. unfold taskSide, tasksValid, tasksOf. by intros [= -> -> _]. Qed.

Lemma tasksInOrder_frame w w' : taskSide w' = taskSide w -> tasksInOrder w -> tasksInOrder w'.
Proof. unfold taskSide, tasksInOrder, tasksOf, searching. by intros [= -> -> ->]. Qed.

Lemma expensesValid_frame w w' :
  expenseSide w' = expenseSide w -> expensesValid w -> expensesValid w'.
Proof. unfold expenseSide, expensesValid, expensesOf. by intros [= -> -> _]. Qed.

Lemma expensesInOrder_frame w w' :
  expenseSide w' = expenseSide w -> expensesInOrder w -> expensesInOrder w'.
Proof. unfold expenseSide, expensesInOrder, expensesOf, filtering. by intros [= -> -> ->]. Qed.

Lemma storeInvariant_frame w w' :
  taskSide w' = taskSide w -> expenseSide w' = expenseSide w ->
  storeInvariant w -> storeInvariant w'.
Proof.
  intros Ht He (Vt & Ot & Ve & Oe).
  split; [by apply (tasksValid_frame w)|]. split; [by apply (tasksInOrder_frame w)|].
  split; [by apply (expensesValid_frame w)|by apply (expensesInOrder_frame w)].
Qed.

Lemma sort_tasks_sorted l :
  Forall knownPriority l ->
  StronglySorted (JSArray.mayPrecede compareTasks) (JSArray.sort compareTasks l).
Proof.
  apply (sort_StronglySorted compareTasks knownPriority (compareTasks_consistent collation)).
Qed.

Lemma sort_expenses_sorted l :
  Forall validDate l ->
  StronglySorted (JSArray.mayPrecede compareExpenses) (JSArray.sort compareExpenses l).
Proof.
  apply (sort_StronglySorted compareExpenses validDate compareExpenses_consistent).
Qed.

Lemma sort_Forall {A} (cmp : A -> A -> option Z) (Q : A -> Prop) l :
  Forall Q l -> Forall Q (JSArray.sort cmp l).
Proof. intros H. eapply Permutation_Forall; [symmetry; apply sort_Permutation|done]. Qed.

(** Rendering the tasks puts them in display order. *)
Lemma renderTasks_order w :
  tasksValid w ->
  exists w',
    renderTasks w = (Return tt, w') /\
    tasksValid w' /\ tasksInOrder w' /\ expenseSide w' = expenseSide w.
Proof.
  intros [St Kt].
  destruct (renderTasks_tasks w St) as (h' & E & S & D).
  exists (withTaskArrays h' w). split; [exact E|].
  assert (tasksOf (withTaskArrays h' w) = deref h' (State.tasks (state w))) as T by done.
  split; [|split; [|done]].
  - split; [exact S|]. rewrite T, D. destruct (searching w); [done|by apply sort_Forall].
  - intros Hs. rewrite T, D. change (searching (withTaskArrays h' w)) with (searching w) in Hs.
    rewrite Hs. by apply sort_tasks_sorted.
Qed.

(** So do the calls at the end of an operation on tasks. *)
Lemma finishTaskOperation_order w :
  tasksValid w ->
  exists w',
    (saveState ;; renderTasks ;; updateTaskStats) w = (Return tt, w') /\
    tasksValid w' /\ tasksInOrder w' /\ expenseSide w' = expenseSide w.
Proof.
  intros Vt.
  destruct (saveState_effect w) as (m & E1 & _).
  rewrite (bind_eq _ _ _ _ _ E1).
  destruct (renderTasks_order (withLocalStorage m w)) as (w' & E2 & I).
  - by apply (tasksValid_frame w).
  - rewrite (bind_eq _ _ _ _ _ E2). by exists w'.
Qed.

(** Rendering the expenses puts them in display order. *)
Lemma refreshExpenses_order w :
  expensesValid w ->
  exists w',
    (renderExpenses ;; updateExpenseStats ;; renderCategoryTotals) w = (Return tt, w') /\
    expensesValid w' /\ expensesInOrder w' /\ taskSide w' = taskSide w.
Proof.
  intros [Se Ke].
  destruct (refreshExpenses_effect w Se) as (h' & n & E & S & D).
  eexists. split; [exact E|].
  set (w' := mkWorld _ _ _ _ _ _).
  assert (expensesOf w' = deref h' (State.expenses (state w))) as T by done.
  split; [|split; [|done]].
  - split; [exact S|]. rewrite T, D.
    destruct (filtering w); [done|by do 2 apply sort_Forall].
  - intros Hf. rewrite T, D. change (filtering w') with (filtering w) in Hf.
    rewrite Hf. by apply sort_expenses_sorted, sort_Forall.
Qed.

Lemma finishExpenseOperation_order w :
  expensesValid w ->
  exists w',
    (saveState ;; renderExpenses ;; updateExpenseStats ;; renderCategoryTotals) w
    = (Return tt, w') /\
    expensesValid w' /\ expensesInOrder w' /\ taskSide w' = taskSide w.
Proof.
  intros Ve.
  destruct (saveState_effect w) as (m & E1 & _).
  rewrite (bind_eq _ _ _ _ _ E1).
  destruct (refreshExpenses_order (withLocalStorage m w)) as (w' & E2 & I).
  - by apply (expensesValid_frame w).
  - rewrite E2. by exists w'.
Qed.

(** An operation on tasks: a change of the task side that leaves the
    tasks valid, then the calls at the end. *)
Lemma task_operation_invariant w w1 :
  storeInvariant w -> tasksValid w1 -> expenseSide w1 = expenseSide w ->
  exists w',
    (saveState ;; renderTasks ;; updateTaskStats) w1 = (Return tt, w') /\ storeInvariant w'.
Proof.
  intros (_ & _ & Ve & Oe) V1 F1.
  destruct (finishTaskOperation_order w1 V1) as (w' & E & Vt' & Ot' & F').
  exists w'. split; [exact E|].
  assert (expenseSide w' = expenseSide w) as F by (by rewrite F').
  split; [done|]. split; [done|].
  split; [by apply (expensesValid_frame w)|by apply (expensesInOrder_frame w)].
Qed.

Lemma expense_operation_invariant w w1 :
  storeInvariant w -> expensesValid w1 -> taskSide w1 = taskSide w ->
  exists w',
    (saveState ;; renderExpenses ;; updateExpenseStats ;; renderCategoryTotals) w1
    = (Return tt, w') /\ storeInvariant w'.
Proof.
  intros (Vt & Ot & _ & _) V1 F1.
  destruct (finishExpenseOperation_order w1 V1) as (w' & E & Ve' & Oe' & F').
  exists w'. split; [exact E|].
  assert (taskSide w' = taskSide w) as F by (by rewrite F').
  split; [by apply (tasksValid_frame w)|]. split; [by apply (tasksInOrder_frame w)|done].
Qed.

Lemma addTask_invariant text priority w :
  is_Some (priorityOrder priority) -> storeInvariant w ->
  exists w', addTask text priority w = (Return tt, w') /\ storeInvariant w'.
Proof.
  intros Hp I. pose proof I as ([St Kt] & _).
  unfold addTask. do 4 step.
  apply (task_operation_invariant w); [done| |done].
  split; [world_simpl; by apply is_Some_alter|].
  unfold tasksOf. world_simpl.
  rewrite (deref_alter_Some (fun ts => ts ++ [_])) by done.
  apply Forall_app. split; [exact Kt|]. by constructor.
Qed.

Lemma toggleTask_invariant id w :
  storeInvariant w ->
  exists w', toggleTask id w = (Return tt, w') /\ storeInvariant w'.
Proof.
  intros I. pose proof I as ([St Kt] & _).
  unfold toggleTask. do 2 step.
  destruct (list_find _ _) as [[i task]|] eqn:Hfind; [|by exists w].
  step.
  apply (task_operation_invariant w); [done| |done].
  split; [world_simpl; by apply is_Some_alter|].
  unfold tasksOf. world_simpl.
  rewrite (deref_alter_Some (alter _ i)) by done.
  apply Forall_alter; [exact Kt|]. by intros t _ Ht.
Qed.

Lemma deleteTask_invariant id w :
  storeInvariant w ->
  exists w', deleteTask id w = (Return tt, w') /\ storeInvariant w'.
Proof.
  intros I. pose proof I as ([St Kt] & _).
  unfold deleteTask. do 3 step.
  apply (task_operation_invariant w); [done| |done].
  split; [world_simpl; rewrite lookup_insert_eq; by eexists|].
  unfold tasksOf. world_simpl. rewrite deref_insert.
  by apply Forall_filter_bool.
Qed.

Lemma clearAllTasks_invariant answer w :
  storeInvariant w ->
  exists w', clearAllTasks answer w = (Return tt, w') /\ storeInvariant w'.
Proof.
  intros I. destruct answer; [|by exists w].
  unfold clearAllTasks. do 2 step.
  apply (task_operation_invariant w); [done| |done].
  split; [world_simpl; rewrite lookup_insert_eq; by eexists|].
  unfold tasksOf. world_simpl. by rewrite deref_insert.
Qed.

Lemma filterTasks_invariant searchText w :
  storeInvariant w ->
  exists w', filterTasks searchText w = (Return tt, w') /\ storeInvariant w'.
Proof.
  intros ([St Kt] & _ & Ve & Oe).
  unfold filterTasks. step.
  set (w1 := withState _ _).
  destruct (renderTasks_order w1) as (w' & E & Vt' & Ot' & F'); [by split|].
  exists w'. split; [exact E|].
  assert (expenseSide w' = expenseSide w) as F by (by rewrite F').
  split; [done|]. split; [done|].
  split; [by apply (expensesValid_frame w)|by apply (expensesInOrder_frame w)].
Qed.

(** [addExpense] throws when the host cannot read the date, after it
    has taken an id. *)
Lemma addExpense_invariant description amount category date w :
  (forall t, Date_parse date = Some t ->
             is_Some (Date_parse (JSString.splitHead "T" (Date_toISOString t)))) ->
  storeInvariant w ->
  exists r w', addExpense description amount category date w = (r, w') /\ storeInvariant w'.
Proof.
  intros Hd I. pose proof I as (_ & _ & [Se Ke] & _).
  unfold addExpense. step.
  unfold dateToISO.
  destruct (Date_parse date) as [t|] eqn:Ht.
  - do 3 step. exists (Return tt).
    apply (expense_operation_invariant w); [done| |done].
    split; [world_simpl; by apply is_Some_alter|].
    unfold expensesOf. world_simpl.
    rewrite (deref_alter_Some (fun es => es ++ [_])) by done.
    apply Forall_app. split; [exact Ke|]. constructor; [|constructor].
    unfold validDate. simpl. by apply Hd.
  - do 2 eexists. split; [reflexivity|]. by apply (storeInvariant_frame w).
Qed.

Lemma deleteExpense_invariant id w :
  storeInvariant w ->
  exists w', deleteExpense id w = (Return tt, w') /\ storeInvariant w'.
Proof.
  intros I. pose proof I as (_ & _ & [Se Ke] & _).
  unfold deleteExpense. do 3 step.
  apply (expense_operation_invariant w); [done| |done].
  split; [world_simpl; rewrite lookup_insert_eq; by eexists|].
  unfold expensesOf. world_simpl. rewrite deref_insert.
  by apply Forall_filter_bool.
Qed.

Lemma clearAllExpenses_invariant answer w :
  storeInvariant w ->
  exists w', clearAllExpenses answer w = (Return tt, w') /\ storeInvariant w'.
Proof.
  intros I. destruct answer; [|by exists w].
  unfold clearAllExpenses. do 2 step.
  apply (expense_operation_invariant w); [done| |done].
  split; [world_simpl; rewrite lookup_insert_eq; by eexists|].
  unfold expensesOf. world_simpl. by rewrite deref_insert.
Qed.

Lemma filterExpenses_invariant category month w :
  storeInvariant w ->
  exists w', filterExpenses category month w = (Return tt, w') /\ storeInvariant w'.
Proof.
  intros (Vt & Ot & [Se Ke] & _).
  unfold filterExpenses. step.
  set (w1 := withState _ _).
  destruct (refreshExpenses_order w1) as (w' & E & Ve' & Oe' & F'); [by split|].
  exists w'. split; [exact E|].
  assert (taskSide w' = taskSide w) as F by (by rewrite F').
  split; [by apply (tasksValid_frame w)|]. split; [by apply (tasksInOrder_frame w)|done].
Qed.

(** Every listener keeps the invariant, also one that ends in an
    exception. *)
Lemma listener_invariant e w :
  offered e -> storeInvariant w -> storeInvariant (snd (listener e w)).
Proof.
  intros He I. destruct e; simpl in *.
  - by apply (storeInvariant_frame w).
  - unfold onTaskSubmit. destruct (truthy _); [|done].
    destruct (addTask_invariant (JSString.trim textValue) priorityValue w He I)
      as (w' & -> & I'). done.
  - destruct (filterTasks_invariant value w I) as (w' & E & I').
    unfold onSearchInput. by rewrite E.
  - unfold onExpenseSubmit. destruct (_ && _); [|done].
    destruct (addExpense_invariant (JSString.trim descriptionValue) amountValue
                categoryValue dateValue w He I) as (r & w' & E & I').
    unfold bind at 1. rewrite E. destruct r; [|done].
    by apply (storeInvariant_frame w').
  - unfold onCategoryFilterChange. step.
    by destruct (filterExpenses_invariant value
                   (Filters.month (State.expenseFilters (state w))) w I) as (w' & -> & I').
  - unfold onMonthFilterChange. step.
    by destruct (filterExpenses_invariant
                   (Filters.category (State.expenseFilters (state w))) value w I)
      as (w' & -> & I').
  - by destruct (clearAllTasks_invariant answer w I) as (w' & -> & I').
  - by destruct (clearAllExpenses_invariant answer w I) as (w' & -> & I').
  - unfold onKeyDown. destruct (String.eqb _ _); [|done].
    destruct (filterTasks_invariant "" w I) as (w1 & E1 & I1).
    rewrite (bind_eq _ _ _ _ _ E1).
    by destruct (filterExpenses_invariant "" "" w1 I1) as (w' & -> & I').
  - by destruct (toggleTask_invariant id w I) as (w' & -> & I').
  - by destruct (deleteTask_invariant id w I) as (w' & -> & I').
  - by destruct (deleteExpense_invariant id w I) as (w' & -> & I').
Qed.

Lemma dispatchAll_invariant events w :
  Forall offered events -> storeInvariant w ->
  storeInvariant (exec (dispatchAll events) w).
Proof.
  intros Hev. revert w. induction Hev as [|e events He _ IH]; intros w I; [done|].
  simpl. unfold exec, bind at 1, dispatch. simpl.
  apply IH. by apply listener_invariant.
Qed.
End InvariantFacts.

(** ** The start of the application *)

Section StartFacts.
Context {P : Platform}.
Hypothesis collation : JSArray.consistent collate.

Lemma sample_tasks_known l : isSampleTasks l -> Forall knownPriority l.
Proof.
  intros (? & ? & ? & ? & ? & ? & ->).
  repeat constructor; by eexists.
Qed.

Lemma bind_chain3 {A B C D} (a : M A) (b : M B) (c : M C) (k : M D) w w' x :
  (a ;; b ;; c) w = (Return x, w') -> (a ;; b ;; c ;; k) w = k w'.
Proof.
  unfold bind.
  destruct (a w) as [[?|?] ?]; [|done]. destruct (b _) as [[?|?] ?]; [|done].
  destruct (c _) as [[?|?] ?]; [|done]. by intros [= _ ->].
Qed.

Lemma initializeApp_invariant hash w :
  (forall ts, fst (loadFromStorage (A := Task.t) STORAGE_KEYS.TASKS w) = Return ts ->
              Forall knownPriority ts) ->
  Forall validDate (expensesOf (exec loadState w)) ->
  exists w',
    initializeApp hash w = (Return tt, w') /\
    storeInvariant w' /\
    filterStateOf w' = filterStateOf w.
Proof.
  intros Hts Hes.
  destruct (loadState_store w) as (w1 & E1 & [St Se] & F1 & T1 & _).
  unfold exec in Hes. rewrite E1 in Hes. simpl in Hes.
  unfold initializeApp. rewrite (bind_eq _ _ _ _ _ E1).
  do 2 step.
  set (w2 := mkWorld _ _ _ _ _ _).
  assert (tasksValid w2) as V2.
  { split; [exact St|]. change (tasksOf w2) with (tasksOf w1).
    destruct T1 as [T1|[_ T1]]; [by apply sample_tasks_known|by apply Hts]. }
  destruct (renderTasks_order collation w2 V2) as (w3 & E3 & V3 & O3 & F3).
  assert (state w3 = state w2) as S3.
  { destruct (renderTasks_tasks w2 (proj1 V2)) as (h' & E3' & _).
    rewrite E3 in E3'. by injection E3' as ->. }
  rewrite (bind_eq _ _ _ _ _ E3). step.
  assert (expensesValid w3) as X3 by (by apply (expensesValid_frame w2)).
  destruct (refreshExpenses_order w3 X3) as (w4 & E4 & V4 & O4 & F4).
  assert (storeInvariant w4) as I4.
  { split; [by apply (tasksValid_frame w3)|].
    split; [by apply (tasksInOrder_frame w3)|done]. }
  rewrite (bind_chain3 _ _ _ _ _ _ _ E4).
  assert (filterStateOf w4 = filterStateOf w) as F.
  { rewrite <- F1. unfold filterStateOf.
    destruct (refreshExpenses_effect w3 (proj1 X3)) as (h' & n & E4' & _).
    rewrite E4 in E4'. injection E4' as ->. simpl. by rewrite S3. }
  destruct (truthy hash); [|by exists w4].
  destruct (_ || _); [|by exists w4].
  eexists. split; [reflexivity|]. split; [|exact F].
  by apply (storeInvariant_frame w4).
Qed.
End StartFacts.

(** X17.  Every listener keeps the store in display order: when the tasks
    have known priorities and the expenses dates the host reads, and each
    collection is in display order unless a search text, or an expense
    filter, is set, then the same holds after any events that offer what
    the forms offer, whether their listeners return or end in an
    exception.  The host's collation is a total order. *)
Theorem events_keep_the_store_in_order {P : Platform} (w : World) (events : list Event) :
  JSArray.consistent collate ->
  Forall offered events ->
  storeInvariant w ->
  storeInvariant (exec (dispatchAll events) w).
Proof. intros collation Hev I. by apply dispatchAll_invariant. Qed.

(** X18.  [initializeApp] returns with the store in display order and with
    the search text and the filters as they were, when the stored tasks
    have known priorities and the expenses that [loadState] leaves have
    dates the host reads. *)
Theorem initializeApp_puts_the_store_in_order {P : Platform} (w : World) (hash : string) :
  JSArray.consistent collate ->
  (forall ts, fst (loadFromStorage (A := Task.t) STORAGE_KEYS.TASKS w) = Return ts ->
              Forall knownPriority ts) ->
  Forall validDate (expensesOf (exec loadState w)) ->
  exists w',
    initializeApp hash w = (Return tt, w') /\
    storeInvariant w' /\
    filterStateOf w' = filterStateOf w.
Proof. intros collation. by apply initializeApp_invariant. Qed.

(** X19.  The application after its start and any events: both collections
    are in display order, and asking it to delete an id that does not
    occur leaves the collection exactly as it is.  The stored tasks have
    known priorities, the expenses that [loadState] leaves have dates the
    host reads, and the events offer what the forms offer. *)
Theorem running_application_ignores_absent_ids {P : Platform}
    (w : World) (hash : string) (events : list Event) (id : string) :
  JSArray.consistent collate ->
  (forall ts, fst (loadFromStorage (A := Task.t) STORAGE_KEYS.TASKS w) = Return ts ->
              Forall knownPriority ts) ->
  Forall validDate (expensesOf (exec loadState w)) ->
  Forall offered events ->
  let w' := exec (initializeApp hash ;; dispatchAll events) w in
  storeInvariant w' /\
  (Forall (fun t => Task.id t <> id) (tasksOf w') ->
   deleteTask id w' = (Return tt, exec (deleteTask id) w') /\
   tasksOf (exec (deleteTask id) w') = tasksOf w') /\
  (Forall (fun e => Expense.id e <> id) (expensesOf w') ->
   deleteExpense id w' = (Return tt, exec (deleteExpense id) w') /\
   expensesOf (exec (deleteExpense id) w') = expensesOf w').
Proof.
  intros collation Hts Hes Hev w'.
  destruct (initializeApp_invariant collation hash w Hts Hes) as (w1 & E1 & I1 & _).
  assert (storeInvariant w') as I.
  { unfold w', exec. rewrite (bind_eq _ _ _ _ _ E1).
    by apply (dispatchAll_invariant collation). }
  split; [exact I|]. destruct I as (_ & Ot & _ & Oe). clearbody w'. split.
  - intros Habsent.
    destruct (deleteTask_effect id w') as (w2 & E & T & _).
    unfold exec. rewrite E. split; [done|]. simpl in *. rewrite T.
    rewrite filter_absent_task by done.
    destruct (searching w') eqn:Hs; [done|]. apply sort_sorted_id. by apply Ot.
  - intros Habsent.
    destruct (deleteExpense_effect id w') as (w2 & E & X & _).
    unfold exec. rewrite E. split; [done|]. simpl in *. rewrite X.
    rewrite filter_absent_expense by done.
    destruct (filtering w') eqn:Hf; [done|].
    by rewrite !(sort_sorted_id _ _ (Oe Hf)).
Qed.

(** ** The forms and the keyboard *)

Lemma string_app_empty_r s : String.app s "" = s.
Proof.
  induction s as [|a s IH]; [done|].
  change (String a (String.app s "") = String a s). by rewrite IH.
Qed.

Lemma rev_app_rev_app s t u :
  String.rev_app (String.rev_app s t) u = String.rev_app t (String.app s u).
Proof. revert t. induction s as [|a s IH]; intros t; [done|]. exact (IH (String a t)). Qed.

Lemma string_rev_involutive s : String.rev (String.rev s) = s.
Proof. unfold String.rev. rewrite rev_app_rev_app. apply string_app_empty_r. Qed.

Lemma string_app_cons c r u : String.app (String c r) u = String c (String.app r u).
Proof. reflexivity. Qed.

Lemma string_app_assoc s t u :
  String.app (String.app s t) u = String.app s (String.app t u).
Proof.
  induction s as [|c s IH]; [done|]. rewrite !string_app_cons. by rewrite IH.
Qed.

Lemma rev_app_app r t : String.rev_app r t = String.app (String.rev r) t.
Proof.
  revert t. induction r as [|c r IH]; intros t; [done|].
  unfold String.rev. cbn [String.rev_app].
  rewrite (IH (String c t)), (IH (String c "")), string_app_assoc. done.
Qed.

Section SkipFacts.
Variables (w1 : ascii -> bool) (w2 : ascii -> ascii -> bool)
          (w3 : ascii -> ascii -> ascii -> bool).

Lemma skip_id s :
  startsWith1to3 w1 w2 w3 s = false -> JSNumber.skip w1 w2 w3 s = s.
Proof.
  destruct s as [|c1 [|c2 [|c3 r3]]]; cbn [startsWith1to3 JSNumber.skip]; try done.
  - destruct (w1 c1); done.
  - destruct (w1 c1); [done|]. destruct (w2 c1 c2); done.
  - destruct (w1 c1); [done|]. destruct (w2 c1 c2); [done|]. destruct (w3 c1 c2 c3); done.
Qed.

Lemma skip_clean_below (n : nat) s :
  (String.length s <= n)%nat ->
  startsWith1to3 w1 w2 w3 (JSNumber.skip w1 w2 w3 s) = false.
Proof.
  revert s. induction n as [|n IH]; intros s Hn.
  { destruct s; [done|]. simpl in Hn. lia. }
  destruct s as [|c1 r1]; [done|]. cbn [JSNumber.skip]. simpl in Hn.
  destruct (w1 c1) eqn:E1; [apply IH; lia|].
  destruct r1 as [|c2 r2]; [cbn; by rewrite E1|]. simpl in Hn.
  destruct (w2 c1 c2) eqn:E2; [apply IH; lia|].
  destruct r2 as [|c3 r3]; [cbn; by rewrite E1, E2|]. simpl in Hn.
  destruct (w3 c1 c2 c3) eqn:E3; [apply IH; lia|].
  cbn. by rewrite E1, E2, E3.
Qed.

Lemma skip_clean s : startsWith1to3 w1 w2 w3 (JSNumber.skip w1 w2 w3 s) = false.
Proof. by apply (skip_clean_below (String.length s)). Qed.

(** What a text starts with, a longer text starts with. *)
Lemma startsWith1to3_app t u :
  startsWith1to3 w1 w2 w3 (String.app t u) = false -> startsWith1to3 w1 w2 w3 t = false.
Proof.
  destruct t as [|c1 [|c2 [|c3 r3]]]; [done|..]; rewrite ?string_app_cons;
    cbn [startsWith1to3]; intros H.
  - destruct (w1 c1); done.
  - destruct (w1 c1); [done|]. simpl in *.
    change (String.app "" u) with u in H. destruct u; destruct (w2 c1 c2); done.
  - exact H.
Qed.
End SkipFacts.

(** Skipping at the head of the reversed text leaves the head of the
    text as it is. *)
Lemma skip_keeps_end w1 w2 w3 v1 v2 v3 (n : nat) x :
  (String.length x <= n)%nat ->
  startsWith1to3 w1 w2 w3 (String.rev x) = false ->
  startsWith1to3 w1 w2 w3 (String.rev (JSNumber.skip v1 v2 v3 x)) = false.
Proof.
  revert x. induction n as [|n IH]; intros x Hn H.
  { destruct x; [done|]. simpl in Hn. lia. }
  assert (forall r t, startsWith1to3 w1 w2 w3 (String.rev_app r t) = false ->
                      startsWith1to3 w1 w2 w3 (String.rev r) = false) as Hcut.
  { intros r t Hr. rewrite rev_app_app in Hr. by apply startsWith1to3_app in Hr. }
  destruct x as [|c1 r1]; [done|]. cbn [JSNumber.skip]. simpl in Hn.
  destruct (v1 c1); [apply IH; [lia|]; by apply (Hcut r1 (String c1 ""))|].
  destruct r1 as [|c2 r2]; [done|]. simpl in Hn.
  destruct (v2 c1 c2); [apply IH; [lia|]; by apply (Hcut r2 (String c2 (String c1 "")))|].
  destruct r2 as [|c3 r3]; [done|]. simpl in Hn.
  destruct (v3 c1 c2 c3); [|done].
  apply IH; [lia|]. by apply (Hcut r3 (String c3 (String c2 (String c1 "")))).
Qed.

(** [trim] on a trimmed text changes nothing. *)
Lemma trim_trim s : JSString.trim (JSString.trim s) = JSString.trim s.
Proof.
  unfold JSString.trim, JSString.trimEnd, JSNumber.trimStart.
  set (a := JSNumber.skip JSNumber.isWhiteSpace _ _ s).
  set (b := JSNumber.skip _ _ _ (String.rev a)).
  assert (JSNumber.skip JSNumber.isWhiteSpace JSNumber.isWhiteSpace2 JSNumber.isWhiteSpace3
            (String.rev b) = String.rev b) as ->.
  { apply skip_id. unfold b. apply (skip_keeps_end _ _ _ _ _ _ (String.length (String.rev a)));
      [done|]. rewrite string_rev_involutive. apply skip_clean. }
  rewrite string_rev_involutive. f_equal. apply skip_id, skip_clean.
Qed.

(** Each white-space character of the language is trimmed at both ends
    and kept inside the text, and [parseFloat] skips it at the head. *)
Lemma trim_whiteSpaceCharacters :
  Forall (fun c =>
            JSString.trim (String.app c (String.app "a" (String.app c (String.app "b" c))))
            = String.app "a" (String.app c "b") /\
            JSString.trim (String.app c c) = "" /\
            JSNumber.parseFloat (String.app c "150") = JSNumber.ofZ 150)
         whiteSpaceCharacters.
Proof. repeat constructor; by vm_compute. Qed.

(** Characters that are not white space stay: the zero-width space
    U+200B, the next-line control U+0085, the Mongolian vowel separator
    U+180E and a letter of two bytes. *)
Lemma trim_keeps_other_characters :
  Forall (fun c => JSString.trim (String.app c (String.app " a " c))
                   = String.app c (String.app " a " c))
         (map ofBytes [[226; 128; 139]; [194; 133]; [225; 160; 142]; [195; 161]]%nat).
Proof. repeat constructor. Qed.

Section FormFacts.
Context {P : Platform}.

(** X20.  The task form adds nothing when its text is blank (empty or
    white space only, the no-break space and the other white space of
    the language included), and otherwise one pending task with the
    trimmed text, which is not empty, and the chosen priority. *)
Theorem task_form_adds_trimmed_text (w : World) (textValue priorityValue : string) :
  is_Some (taskArrays w !! State.tasks (state w)) ->
  exists w',
    onTaskSubmit textValue priorityValue w = (Return tt, w') /\
    (JSString.trim textValue = "" -> w' = w) /\
    (JSString.trim textValue <> "" ->
     exists task,
       Permutation (tasksOf w') (tasksOf w ++ [task]) /\
       Task.text task = JSString.trim textValue /\
       Task.text task <> "" /\
       Task.priority task = priorityValue /\
       Task.done task = false).
Proof.
  intros Hwf. unfold onTaskSubmit.
  destruct (truthy (JSString.trim textValue)) eqn:Ht.
  - destruct (addTask_effect w (JSString.trim textValue) priorityValue Hwf)
      as (w' & E & T & _).
    exists w'. split; [exact E|].
    assert (JSString.trim textValue <> "") as Hne.
    { intros Heq. rewrite Heq in Ht. done. }
    split; [done|]. intros _. eexists. split; [rewrite T; apply if_sort_Permutation|].
    simpl. by rewrite trim_trim.
  - apply truthy_false in Ht. exists w. by split.
Qed.

(** X21.  The expense form adds nothing when its description is blank
    (empty or white space only, the no-break space and the other white
    space of the language included) or its amount or its date is empty;
    otherwise it adds one expense with the trimmed description, or ends
    in the RangeError of a date that the host cannot read and adds
    nothing. *)
Theorem expense_form_requires_every_field (w : World)
    (descriptionValue amountValue categoryValue dateValue : string) :
  is_Some (expenseArrays w !! State.expenses (state w)) ->
  exists r w',
    onExpenseSubmit descriptionValue amountValue categoryValue dateValue w = (r, w') /\
    (JSString.trim descriptionValue = "" \/ amountValue = "" \/ dateValue = "" ->
     r = Return tt /\ w' = w) /\
    (JSString.trim descriptionValue <> "" -> amountValue <> "" -> dateValue <> "" ->
     match Date_parse dateValue with
     | None =>
         r = Throw "RangeError: Invalid time value" /\ expensesOf w' = expensesOf w
     | Some time =>
         r = Return tt /\
         exists expense,
           Permutation (expensesOf w') (expensesOf w ++ [expense]) /\
           Expense.description expense = JSString.trim descriptionValue /\
           Expense.amountCents expense = eurosToCents amountValue /\
           Expense.category expense = categoryValue /\
           Expense.dateISO expense = JSString.splitHead "T" (Date_toISOString time)
     end).
Proof.
  intros Hwf. unfold onExpenseSubmit.
  destruct (truthy (JSString.trim descriptionValue)) eqn:Hd; simpl.
  2:{ apply truthy_false in Hd. exists (Return tt), w. split; [done|]. by split. }
  destruct (truthy amountValue) eqn:Ha; simpl.
  2:{ apply truthy_false in Ha. exists (Return tt), w. split; [done|]. by split. }
  destruct (truthy dateValue) eqn:Ht; simpl.
  2:{ apply truthy_false in Ht. exists (Return tt), w. split; [done|]. by split. }
  assert (forall s, truthy s = true -> s <> "") as Hne.
  { intros s Hs Heq. by rewrite Heq in Hs. }
  destruct (Date_parse dateValue) as [time|] eqn:Hdate.
  - destruct (addExpense_effect w (JSString.trim descriptionValue) amountValue
                categoryValue dateValue time Hwf Hdate) as (w' & E & X & _).
    rewrite (bind_eq _ _ _ _ _ E). do 2 eexists. split; [reflexivity|]. split.
    + intros [H|[H|H]]; [by apply (Hne _ Hd) in H|by apply (Hne _ Ha) in H
                        |by apply (Hne _ Ht) in H].
    + intros _ _ _. split; [done|]. eexists.
      split.
      * set (w'' := mkWorld _ _ _ _ _ _).
        change (expensesOf w'') with (expensesOf w'). rewrite X. apply if_sort_sort_Permutation.
      * simpl. by rewrite trim_trim.
  - unfold bind at 1. rewrite (addExpense_throws w _ _ _ _ Hdate).
    do 2 eexists. split; [reflexivity|]. split.
    + intros [H|[H|H]]; [by apply (Hne _ Hd) in H|by apply (Hne _ Ha) in H
                        |by apply (Hne _ Ht) in H].
    + by intros _ _ _.
Qed.

(** X22.  The Escape key empties the search text and both expense filters
    and writes nothing to storage; the records stay, and both
    collections are put into display order.  Any other key changes
    nothing.  The host lower-cases the empty text to itself. *)
Theorem escape_clears_search_and_filters (w : World) (key : string) :
  wellFormed w ->
  toLowerCase "" = "" ->
  exists w',
    onKeyDown key w = (Return tt, w') /\
    (key <> "Escape" -> w' = w) /\
    (key = "Escape" ->
     filterStateOf w' = ("", Filters.mk "" "") /\
     tasksOf w' = JSArray.sort compareTasks (tasksOf w) /\
     expensesOf w' =
       JSArray.sort compareExpenses (JSArray.sort compareExpenses (expensesOf w)) /\
     localStorage w' = localStorage w).
Proof.
  intros [St Se] Hlower. unfold onKeyDown.
  destruct (String.eqb_spec key "Escape") as [->|Hne]; [|by exists w].
  set (w1 := withState (State.setTaskSearch "" (state w)) w).
  destruct (renderTasks_tasks w1 St) as (h' & E1 & S1 & D1).
  assert (filterTasks "" w = (Return tt, withTaskArrays h' w1)) as F1.
  { unfold filterTasks. step. rewrite Hlower. exact E1. }
  rewrite (bind_eq _ _ _ _ _ F1).
  unfold filterExpenses. step.
  set (w2 := withState _ _).
  destruct (refreshExpenses_effect w2 Se) as (h'' & n & E2 & S2 & D2).
  rewrite E2. eexists. split; [reflexivity|]. split; [done|]. intros _.
  split; [done|]. split; [exact D1|]. split; [exact D2|done].
Qed.
End FormFacts.

(** ** The properties on the example stores *)

Lemma store_wellFormed : wellFormed Examples.store.
Proof. split; by eexists. Qed.

Lemma orderedStore_invariant : @storeInvariant TestHost.host orderedStore.
Proof.
  split; [split; [by eexists|repeat constructor; by eexists]|].
  split; [intros _; repeat constructor|].
  split; [split; [by eexists|repeat constructor; by eexists]|].
  intros _. repeat constructor.
Qed.

Lemma addTask_adds_one_pending_task_witness :
  exists w',
    @addTask TestHost.host "  comprar pan " "alta" Examples.store = (Return tt, w') /\
    length (tasksOf w') = 3%nat.
Proof.
  destruct (@addTask_adds_one_pending_task TestHost.host Examples.store
              "  comprar pan " "alta") as (w' & E & _ & Hp & _).
  - by eexists.
  - exists w'. split; [exact E|]. by rewrite (Permutation_length Hp).
Defined.

Lemma toggleTask_flips_first_match_witness :
  exists w',
    @toggleTask TestHost.host "t2" Examples.store = (Return tt, w') /\
    In (Task.setDone true Examples.gym) (tasksOf w').
Proof.
  destruct (@toggleTask_flips_first_match TestHost.host Examples.store "t2" 1%nat
              Examples.gym) as (w' & E & _ & Hin & _).
  - reflexivity.
  - exists w'. split; [exact E|exact Hin].
Defined.

Lemma toggleTask_twice_restores_witness :
  exists w'',
    (@toggleTask TestHost.host "t2" ;; @toggleTask TestHost.host "t2") Examples.store
    = (Return tt, w'') /\
    Permutation (tasksOf w'') (tasksOf Examples.store).
Proof.
  apply (@toggleTask_twice_restores TestHost.host Examples.store "t2").
  by apply (bool_decide_unpack _).
Defined.

Lemma deleteTask_removes_every_match_witness :
  exists w',
    @deleteTask TestHost.host "t1" Examples.store = (Return tt, w') /\
    Forall (fun t => Task.id t <> "t1") (tasksOf w').
Proof.
  destruct (@deleteTask_removes_every_match TestHost.host Examples.store "t1")
    as (w' & E & _ & H & _).
  exists w'. split; [exact E|exact H].
Defined.

Lemma filterTasks_sets_search_only_witness :
  exists w',
    @filterTasks TestHost.host "GIM" Examples.store = (Return tt, w') /\
    State.taskSearch (state w') = "gim" /\
    tasksOf w' = tasksOf Examples.store.
Proof.
  destruct (@filterTasks_sets_search_only TestHost.host Examples.store "GIM")
    as (w' & E & S & T & _).
  - by eexists.
  - exists w'. split; [exact E|]. split; [exact S|exact T].
Defined.

Lemma clearAll_empties_one_collection_witness :
  exists w',
    @clearAllTasks TestHost.host true Examples.store = (Return tt, w') /\
    tasksOf w' = [] /\ expensesOf w' = expensesOf Examples.store.
Proof.
  destruct (@clearAll_empties_one_collection TestHost.host Examples.store true)
    as [(w' & E & _ & H) _].
  destruct (H eq_refl) as (T & X & _).
  exists w'. split; [exact E|]. split; [exact T|exact X].
Defined.

Lemma renderTasks_shows_matches_in_order_witness :
  exists l' w',
    (filteredTasks <- @getFilteredTasks TestHost.host ;; @sortTasks TestHost.host filteredTasks)
      Examples.storeSearching = (Return l', w') /\
    StronglySorted (@taskOrder TestHost.host) (deref (taskArrays w') l').
Proof.
  destruct (@renderTasks_shows_matches_in_order TestHost.host host_collation
              Examples.storeSearching) as (l' & w' & E & _ & S & _).
  - repeat constructor; by eexists.
  - exists l', w'. split; [exact E|exact S].
Defined.

Lemma addExpense_adds_one_or_throws_witness :
  exists w',
    @addExpense TestHost.host "cine" "8.50" "ocio" "pronto" Examples.store
    = (Throw "RangeError: Invalid time value", w') /\
    state w' = state Examples.store.
Proof.
  pose proof (@addExpense_adds_one_or_throws TestHost.host Examples.store
                "cine" "8.50" "ocio" "pronto") as H.
  change (@Date_parse TestHost.host "pronto") with (@None Z) in H.
  destruct H as (w' & E & _ & _ & S & _).
  - by eexists.
  - exists w'. split; [exact E|exact S].
Defined.

Lemma deleteExpense_removes_every_match_witness :
  exists w',
    @deleteExpense TestHost.host "e1" Examples.store = (Return tt, w') /\
    Forall (fun e => Expense.id e <> "e1") (expensesOf w').
Proof.
  destruct (@deleteExpense_removes_every_match TestHost.host Examples.store "e1")
    as (w' & E & _ & H & _).
  exists w'. split; [exact E|exact H].
Defined.

Lemma filterExpenses_sets_filters_only_witness :
  exists w',
    @filterExpenses TestHost.host "comida" "" Examples.store = (Return tt, w') /\
    expensesOf w' = expensesOf Examples.store.
Proof.
  destruct (@filterExpenses_sets_filters_only TestHost.host Examples.store "comida" "")
    as (w' & E & _ & _ & X & _).
  - by eexists.
  - exists w'. split; [exact E|exact X].
Defined.

Lemma NaN_amount_makes_totals_NaN_witness :
  exists stats w',
    @calculateExpenseStats TestHost.host
      (TestHost.world [] [Expense.mk "e9" "cena" JSNumber.NaN "ocio" "2024-03-15"] "" "" "")
    = (Return stats, w') /\
    ExpenseStats.total stats = JSNumber.NaN.
Proof.
  destruct (@NaN_amount_makes_totals_NaN TestHost.host
              (TestHost.world [] [Expense.mk "e9" "cena" JSNumber.NaN "ocio" "2024-03-15"]
                              "" "" "")
              (Expense.mk "e9" "cena" JSNumber.NaN "ocio" "2024-03-15"))
    as [(stats & w' & _ & E & _ & T & _) _].
  - by left.
  - reflexivity.
  - exists stats, w'. split; [exact E|exact T].
Defined.

Lemma category_filter_zeroes_other_totals_witness :
  exists totals w',
    @calculateCategoryTotals TestHost.host
      (TestHost.world [] [Examples.groceries; Examples.fuel] "" "comida" "")
    = (Return totals, w') /\
    Forall (fun c => c <> "comida" -> totals !! c = Some JSNumber.posZero)
           CATEGORIES.values.
Proof.
  apply (@category_filter_zeroes_other_totals TestHost.host
           (TestHost.world [] [Examples.groceries; Examples.fuel] "" "comida" "")).
  done.
Defined.

Lemma reload_restores_saved_collections_witness :
  exists w1,
    @saveState Codec.host Codec.store = (Return tt, w1) /\
    exists w3,
      @loadState Codec.host w1 = (Return tt, w3) /\
      tasksOf w3 = [Examples.report; Examples.gym].
Proof.
  destruct (@reload_restores_saved_collections Codec.host (fun _ _ _ => eq_refl)
              Codec.store) as (w1 & E & H).
  - done.
  - reflexivity.
  - done.
  - reflexivity.
  - exists w1. split; [exact E|].
    destruct (H w1 eq_refl) as (w3 & E3 & T & _).
    exists w3. split; [exact E3|]. by apply T.
Defined.

Lemma cleared_tasks_are_reseeded_on_reload_witness :
  exists w1,
    @clearAllTasks Codec.host true Codec.store = (Return tt, w1) /\
    exists w3,
      @loadState Codec.host w1 = (Return tt, w3) /\ isSampleTasks (tasksOf w3).
Proof.
  destruct (@cleared_tasks_are_reseeded_on_reload Codec.host (fun _ _ _ => eq_refl)
              Codec.store) as (w1 & E & _ & H).
  - reflexivity.
  - exists w1. split; [exact E|]. exact (H w1 eq_refl).
Defined.

Lemma events_keep_the_store_in_order_witness :
  @storeInvariant TestHost.host
    (exec (@dispatchAll TestHost.host
             [ TaskSubmit "  comprar pan " "alta";
               ExpenseSubmit "cine" "8.50" "ocio" "2024-03-20";
               SearchInput "pan";
               DeleteTaskClick "t1";
               KeyDown "Escape" ])
          orderedStore).
Proof.
  apply (@events_keep_the_store_in_order TestHost.host).
  - exact host_collation.
  - repeat constructor.
    + by eexists.
    + intros t [= <-]. compute_done.
  - exact orderedStore_invariant.
Defined.

Lemma initializeApp_puts_the_store_in_order_witness :
  exists w',
    @initializeApp TestHost.host "#gastos" (TestHost.world [] [] "" "" "")
    = (Return tt, w') /\
    @storeInvariant TestHost.host w'.
Proof.
  destruct (@initializeApp_puts_the_store_in_order TestHost.host
              (TestHost.world [] [] "" "" "") "#gastos") as (w' & E & I & _).
  - exact host_collation.
  - intros ts [= <-]. constructor.
  - unfold validDate. compute_done.
  - exists w'. split; [exact E|exact I].
Defined.

Lemma running_application_ignores_absent_ids_witness :
  let w' :=
    exec (@initializeApp TestHost.host "" ;;
          @dispatchAll TestHost.host
            [TaskSubmit "comprar pan" "alta"; ToggleTaskClick "id1"])
         (TestHost.world [] [] "" "" "") in
  tasksOf (exec (@deleteTask TestHost.host "t9") w') = tasksOf w'.
Proof.
  intros w'.
  destruct (@running_application_ignores_absent_ids TestHost.host
              (TestHost.world [] [] "" "" "") ""
              [TaskSubmit "comprar pan" "alta"; ToggleTaskClick "id1"] "t9")
    as (_ & H & _).
  - exact host_collation.
  - intros ts [= <-]. constructor.
  - unfold validDate. compute_done.
  - repeat constructor. by eexists.
  - apply H. compute_done.
Defined.

Lemma task_form_adds_trimmed_text_witness :
  exists w',
    @onTaskSubmit TestHost.host (String.app " " nbsp) "alta" Examples.store
    = (Return tt, w') /\
    w' = Examples.store.
Proof.
  destruct (@task_form_adds_trimmed_text TestHost.host Examples.store
              (String.app " " nbsp) "alta") as (w' & E & H & _).
  - by eexists.
  - exists w'. split; [exact E|]. by apply H.
Defined.

Lemma expense_form_requires_every_field_witness :
  exists r w',
    @onExpenseSubmit TestHost.host nbsp "8.50" "ocio" "2024-03-20" Examples.store
    = (r, w') /\
    r = Return tt /\ w' = Examples.store.
Proof.
  destruct (@expense_form_requires_every_field TestHost.host Examples.store
              nbsp "8.50" "ocio" "2024-03-20") as (r & w' & E & H & _).
  - by eexists.
  - exists r, w'. split; [exact E|]. apply H. by left.
Defined.

Lemma rejected_text_is_replaced_by_samples_witness :
  exists w',
    @loadState TestHost.host
      (withLocalStorage {[ STORAGE_KEYS.TASKS := "{oops" ]} Examples.store)
    = (Return tt, w') /\
    isSampleTasks (tasksOf w').
Proof.
  destruct (@rejected_text_is_replaced_by_samples TestHost.host (fun _ _ _ => eq_refl)
              (withLocalStorage {[ STORAGE_KEYS.TASKS := "{oops" ]} Examples.store)
              "{oops") as [H _].
  destruct H as (w' & E & S & _).
  - reflexivity.
  - reflexivity.
  - exists w'. split; [exact E|exact S].
Defined.

Lemma escape_clears_search_and_filters_witness :
  exists w',
    @onKeyDown TestHost.host "Escape" Examples.storeSearching = (Return tt, w') /\
    filterStateOf w' = ("", Filters.mk "" "").
Proof.
  destruct (@escape_clears_search_and_filters TestHost.host Examples.storeSearching
              "Escape") as (w' & E & _ & H).
  - exact store_wellFormed.
  - reflexivity.
  - exists w'. split; [exact E|]. by destruct (H eq_refl).
Defined.
